(** * ServiceInvoice: a shallow embedding of [run_server.py]

    The program is a single-file HTTP server over an SQLite store.  This
    development embeds the handlers that carry business rules
    ([process_new_booking], [next_invoice_number], [handle_invoice],
    [process_cancel_booking]), the routing of [do_GET] and [do_POST] and
    the pages that list what the store holds, together with the Python
    built-ins they call, and proves the properties the specification
    states about them and the invariants the handlers keep.  Templates
    and static files are read from the file system and are not embedded:
    a page is the context its handler hands to [render_template].

    Modelling conventions.
    - A Python [str] is a Rocq [string] of ASCII characters: case
      mapping, white space and digits are those of the ASCII range.
      Statements that depend on how a form value is read say that the
      form is ASCII.
    - A Python [int] is a [Z], and [int()] reads a decimal string of any
      length (CPython 3.11 and later refuse more than 4300 digits unless
      configured otherwise: statements that depend on it bound the
      length); a Python [float] is a primitive binary64 [float], so that
      sums and products round exactly as in the program.
    - SQLite tables are lists of rows in rowid order.  An INSERT checks
      what [sqlite3] checks of the values the handlers compute: an [int]
      outside the signed 64-bit range raises [OverflowError], NaN is
      NULL and violates [NOT NULL] ([IntegrityError]).  A REAL column
      keeps the float written to it; SQLite returns -0.0 as 0.0, which
      is the same number.  The ids of the rows are SQLite's own, hence
      within the 64-bit range whatever a list of the model holds: an id
      bound to [WHERE id = ?] raises [OverflowError] when it is outside
      the range and is the id of no row.
    - Exceptions that the handlers do not catch are modelled
      ([Raised]); the transaction is then never committed and the store
      is left as it was.
    - [datetime.date.today()] is an input: each request receives the
      dates its calls to [today()] return.  [strftime] is modelled for
      years of four digits, where every platform agrees with
      [isoformat]. *)

From Stdlib Require Import ZArith NArith Floats Ascii String List Lia Bool.
From stdpp Require Import base option list gmap strings pretty sorting.

Set Warnings "-inexact-float".

Local Open Scope Z_scope.

(* ===================================================================== *)
(** * Python strings *)
(* ===================================================================== *)

Module Str.

Definition is_digit (c : ascii) : bool :=
  let n := N_of_ascii c in ((48 <=? n) && (n <=? 57))%N.

Definition digit_val (c : ascii) : N := (N_of_ascii c - 48)%N.

(** [str.isspace] on the ASCII range: TAB, LF, VT, FF, CR, FS, GS, RS, US
    and SPACE. *)
Definition is_space (c : ascii) : bool :=
  let n := N_of_ascii c in
  (((9 <=? n) && (n <=? 13)) || ((28 <=? n) && (n <=? 31)) || (n =? 32))%N.

Definition is_upper (c : ascii) : bool :=
  let n := N_of_ascii c in ((65 <=? n) && (n <=? 90))%N.

Definition is_lower (c : ascii) : bool :=
  let n := N_of_ascii c in ((97 <=? n) && (n <=? 122))%N.

Definition lower_char (c : ascii) : ascii :=
  if is_upper c then ascii_of_N (N_of_ascii c + 32) else c.

Definition upper_char (c : ascii) : ascii :=
  if is_lower c then ascii_of_N (N_of_ascii c - 32) else c.

Fixpoint map (f : ascii -> ascii) (s : string) : string :=
  match s with
  | EmptyString => EmptyString
  | String c s' => String (f c) (map f s')
  end.

(** [s.lower()] and [s.upper()] *)
Definition lower : string -> string := map lower_char.
Definition upper : string -> string := map upper_char.

Fixpoint lstrip (s : string) : string :=
  match s with
  | String c s' => if is_space c then lstrip s' else s
  | EmptyString => EmptyString
  end.

(** [x] followed by the stripped tail, or the stripped tail alone when
    nothing but white space follows a white-space [x]. *)
Fixpoint rstrip (s : string) : string :=
  match s with
  | EmptyString => EmptyString
  | String c s' =>
      match rstrip s' with
      | EmptyString => if is_space c then EmptyString else String c EmptyString
      | r => String c r
      end
  end.

(** [s.strip()] *)
Definition strip (s : string) : string := rstrip (lstrip s).

Fixpoint forallb (p : ascii -> bool) (s : string) : bool :=
  match s with
  | EmptyString => true
  | String c s' => p c && forallb p s'
  end.

(** [s.isdigit()]: non-empty and made of digits. *)
Definition isdigit (s : string) : bool :=
  match s with
  | EmptyString => false
  | _ => forallb is_digit s
  end.

(** [needle in hay] *)
Fixpoint contains (needle hay : string) : bool :=
  String.prefix needle hay ||
  match hay with
  | EmptyString => false
  | String _ hay' => contains needle hay'
  end.

(** Truthiness of a string: [if s:] *)
Definition truthy (s : string) : bool :=
  match s with EmptyString => false | _ => true end.

Fixpoint zeros (n : nat) : string :=
  match n with O => EmptyString | S n' => String "0" (zeros n') end.

(** [str(n)] for an [int]. *)
Definition of_Z (n : Z) : string := pretty n.

(** The format specification [0{w}d]: sign first, then zeros up to a
    total width of [w], then the decimal digits. *)
Definition fmt_0d (w : nat) (n : Z) : string :=
  let body := pretty (Z.abs_N n) in
  if n <? 0
  then "-" +:+ zeros (w - 1 - String.length body) +:+ body
  else zeros (w - String.length body) +:+ body.

End Str.

(* ===================================================================== *)
(** * Exceptions *)
(* ===================================================================== *)

Inductive exn : Type :=
| ValueError
| TypeError
| OverflowError
| IntegrityError.   (* sqlite3.IntegrityError *)

Inductive result (A : Type) : Type :=
| Ok (a : A)
| Raised (e : exn).
Arguments Ok {A} a.
Arguments Raised {A} e.

Definition rbind {A B} (r : result A) (k : A -> result B) : result B :=
  match r with
  | Ok a => k a
  | Raised e => Raised e
  end.

Global Instance result_ret : MRet result := fun A a => Ok a.
Global Instance result_bind : MBind result := fun A B k r => rbind r k.

(** [try: e except ValueError: d] *)
Definition except_ValueError {A} (r : result A) (d : A) : result A :=
  match r with
  | Raised ValueError => Ok d
  | r => r
  end.

Definition is_ok {A} (r : result A) : bool :=
  match r with Ok _ => true | Raised _ => false end.

(* ===================================================================== *)
(** * Python numbers: [int()], [float()], mixed arithmetic *)
(* ===================================================================== *)

Module Num.

(** The longest prefix that is a [digitpart]: digits, with single
    underscores allowed between two digits.  Returns the value, the
    number of digits and what follows. *)
Fixpoint digits_go (acc : N) (cnt : nat) (s : string) : N * nat * string :=
  match s with
  | String c s' =>
      if Str.is_digit c then digits_go (10 * acc + Str.digit_val c)%N (S cnt) s'
      else if Ascii.eqb c "_" then
        match s' with
        | String c' _ =>
            if Str.is_digit c' then digits_go acc cnt s' else (acc, cnt, s)
        | EmptyString => (acc, cnt, s)
        end
      else (acc, cnt, s)
  | EmptyString => (acc, cnt, s)
  end.

Definition digitpart (s : string) : option (N * nat * string) :=
  match s with
  | String c _ => if Str.is_digit c then Some (digits_go 0 0 s) else None
  | EmptyString => None
  end.

Definition sign (s : string) : bool * string :=
  match s with
  | String "-" s' => (true, s')
  | String "+" s' => (false, s')
  | _ => (false, s)
  end.

(** The white space [int()] and [float()] skip around a literal: TAB, LF,
    VT, FF, CR and SPACE.  Unlike [str.strip], they do not skip the
    separators FS, GS, RS and US. *)
Definition is_space (c : ascii) : bool :=
  let n := N_of_ascii c in (((9 <=? n) && (n <=? 13)) || (n =? 32))%N.

Fixpoint lstrip (s : string) : string :=
  match s with
  | String c s' => if is_space c then lstrip s' else s
  | EmptyString => EmptyString
  end.

Fixpoint rstrip (s : string) : string :=
  match s with
  | EmptyString => EmptyString
  | String c s' =>
      match rstrip s' with
      | EmptyString => if is_space c then EmptyString else String c EmptyString
      | r => String c r
      end
  end.

Definition strip (s : string) : string := rstrip (lstrip s).

(** [int(s)] in base 10 *)
Definition py_int (s : string) : result Z :=
  let '(neg, body) := sign (strip s) in
  match digitpart body with
  | Some (n, _, EmptyString) => Ok (if neg then - Z.of_N n else Z.of_N n)
  | _ => Raised ValueError
  end.

(** The binary64 nearest to [m * 10^e], ties to even. *)
Definition dec_to_float (neg : bool) (m : N) (e : Z) : float :=
  let sgn (z : Z) := if neg then - z else z in
  match m with
  | N0 => if neg then (-0)%float else 0%float
  | Npos p =>
      if 0 <=? e
      then SF2Prim (binary_normalize prec emax (sgn (Zpos p * 10 ^ e)) 0 false)
      else
        let d := 10 ^ (- e) in
        let k := Z.max 0 (Z.log2 d - Z.log2 (Zpos p) + 66) in
        let q := Z.shiftl (Zpos p) k / d in
        let sticky := if Z.shiftl (Zpos p) k mod d =? 0 then 0 else 1 in
        SF2Prim (binary_normalize prec emax (sgn (2 * q + sticky)) (- (k + 1)) false)
  end.

Definition exponent (s : string) : option (Z * string) :=
  match s with
  | String c s' =>
      if Ascii.eqb c "e" || Ascii.eqb c "E" then
        let '(neg, body) := sign s' in
        match digitpart body with
        | Some (n, _, rest) => Some (if neg then - Z.of_N n else Z.of_N n, rest)
        | None => None
        end
      else None
  | EmptyString => Some (0, EmptyString)
  end.

(** [number [exponent]] of the [float()] grammar. *)
Definition floatnumber (neg : bool) (s : string) : result float :=
  let '(ip, s1) :=
    match digitpart s with
    | Some (n, _, rest) => (Some n, rest)
    | None => (None, s)
    end in
  let '(fp, s2) :=
    match s1 with
    | String "." rest =>
        match digitpart rest with
        | Some (n, cnt, rest') => (Some (n, cnt), rest')
        | None => (None, rest)
        end
    | _ => (None, s1)
    end in
  let mantissa : option (N * nat) :=
    match ip, fp with
    | Some i, Some (f, cnt) => Some (i * 10 ^ N.of_nat cnt + f, cnt)%N
    | Some i, None => Some (i, O)
    | None, Some (f, cnt) => Some (f, cnt)
    | None, None => None
    end in
  match mantissa, exponent s2 with
  | Some (m, cnt), Some (e, EmptyString) => Ok (dec_to_float neg m (e - Z.of_nat cnt))
  | _, _ => Raised ValueError
  end.

(** [float(s)] *)
Definition py_float (s : string) : result float :=
  let '(neg, body) := sign (strip s) in
  let low := Str.lower body in
  if String.eqb low "inf" || String.eqb low "infinity"
  then Ok (if neg then neg_infinity else infinity)
  else if String.eqb low "nan" then Ok nan
  else floatnumber neg body.

(** Conversion of an [int] operand in mixed [int]/[float] arithmetic:
    the nearest binary64 ([to_float]), [OverflowError] beyond the finite
    range. *)
Definition to_float (n : Z) : float :=
  SF2Prim (binary_normalize prec emax n 0 false).

Definition float_of_int (n : Z) : result float :=
  match binary_normalize prec emax n 0 false with
  | S754_infinity _ => Raised OverflowError
  | _ => Ok (to_float n)
  end.

(** [n * x] for an [int] [n] and a [float] [x] *)
Definition int_mul_float (n : Z) (x : float) : result float :=
  f ← float_of_int n; Ok (f * x)%float.

(** [x > 0] for a [float] [x] *)
Definition float_gt_0 (x : float) : bool := (0 <? x)%float.

End Num.

(* ===================================================================== *)
(** * Calendar dates: the [datetime] module *)
(* ===================================================================== *)

Module Date.

Record date : Type := mk { year : Z; month : Z; day : Z }.

Definition _MAXORDINAL : Z := 3652059.

(** [_DAYS_IN_MONTH[month]] *)
Definition _DAYS_IN_MONTH (month : Z) : Z :=
  match month with
  | 1 => 31 | 2 => 28 | 3 => 31 | 4 => 30 | 5 => 31 | 6 => 30
  | 7 => 31 | 8 => 31 | 9 => 30 | 10 => 31 | 11 => 30 | 12 => 31
  | _ => -1
  end.

(** [_DAYS_BEFORE_MONTH[month]] *)
Definition _DAYS_BEFORE_MONTH (month : Z) : Z :=
  match month with
  | 1 => 0 | 2 => 31 | 3 => 59 | 4 => 90 | 5 => 120 | 6 => 151
  | 7 => 181 | 8 => 212 | 9 => 243 | 10 => 273 | 11 => 304 | 12 => 334
  | _ => -1
  end.

Definition _is_leap (year : Z) : bool :=
  (year mod 4 =? 0) && (negb (year mod 100 =? 0) || (year mod 400 =? 0)).

Definition _days_before_year (year : Z) : Z :=
  let y := year - 1 in
  y * 365 + y / 4 - y / 100 + y / 400.

Definition _days_in_month (year month : Z) : Z :=
  if (month =? 2) && _is_leap year then 29 else _DAYS_IN_MONTH month.

Definition _days_before_month (year month : Z) : Z :=
  _DAYS_BEFORE_MONTH month + (if (2 <? month) && _is_leap year then 1 else 0).

Definition _ymd2ord (year month day : Z) : Z :=
  _days_before_year year + _days_before_month year month + day.

Definition _DI400Y : Z := 146097.
Definition _DI100Y : Z := 36524.
Definition _DI4Y : Z := 1461.

Definition _ord2ymd (n : Z) : date :=
  let n := n - 1 in
  let n400 := n / _DI400Y in
  let n := n mod _DI400Y in
  let year := n400 * 400 + 1 in
  let n100 := n / _DI100Y in
  let n := n mod _DI100Y in
  let n4 := n / _DI4Y in
  let n := n mod _DI4Y in
  let n1 := n / 365 in
  let n := n mod 365 in
  let year := year + (n100 * 100 + n4 * 4 + n1) in
  if (n1 =? 4) || (n100 =? 4) then mk (year - 1) 12 31
  else
    let leapyear := (n1 =? 3) && (negb (n4 =? 24) || (n100 =? 3)) in
    let month := Z.shiftr (n + 50) 5 in
    let preceding :=
      _DAYS_BEFORE_MONTH month + (if (2 <? month) && leapyear then 1 else 0) in
    if n <? preceding then
      let month := month - 1 in
      let preceding :=
        preceding - (_DAYS_IN_MONTH month + (if (month =? 2) && leapyear then 1 else 0)) in
      mk year month (n - preceding + 1)
    else mk year month (n - preceding + 1).

(** [_check_date_fields]: what the [date] constructor accepts. *)
Definition valid (d : date) : bool :=
  (1 <=? year d) && (year d <=? 9999) &&
  (1 <=? month d) && (month d <=? 12) &&
  (1 <=? day d) && (day d <=? _days_in_month (year d) (month d)).

Definition toordinal (d : date) : Z := _ymd2ord (year d) (month d) (day d).

(** [d.isoformat()], also [d.strftime('%Y-%m-%d')] *)
Definition isoformat (d : date) : string :=
  Str.fmt_0d 4 (year d) +:+ "-" +:+ Str.fmt_0d 2 (month d) +:+ "-" +:+ Str.fmt_0d 2 (day d).

(** [d.strftime('%Y%m%d')] *)
Definition strftime_Ymd (d : date) : string :=
  Str.fmt_0d 4 (year d) +:+ Str.fmt_0d 2 (month d) +:+ Str.fmt_0d 2 (day d).

(** [dt + datetime.timedelta(days=days)]: the [timedelta] constructor
    rejects more than 999999999 days, the sum must be an ordinal of the
    years 1 to 9999. *)
Definition add_days (d : date) (days : Z) : result date :=
  if 999999999 <? Z.abs days then Raised OverflowError
  else
    let o := toordinal d + days in
    if (0 <? o) && (o <=? _MAXORDINAL) then Ok (_ord2ymd o)
    else Raised OverflowError.

(** ** [datetime.strptime(s, '%Y-%m-%d')]

    The format compiles to the regular expression
    [(\d\d\d\d)-(1[0-2]|0[1-9]|[1-9])-(3[01]|[12]\d|0[1-9]|[1-9]| [1-9])];
    alternatives are tried in order, text left over after the match is
    an error, and the fields must form a date. *)

Definition digit (s : string) : option (Z * string) :=
  match s with
  | String c s' => if Str.is_digit c then Some (Z.of_N (Str.digit_val c), s') else None
  | EmptyString => None
  end.

Definition digit_in (lo hi : Z) (s : string) : option (Z * string) :=
  match digit s with
  | Some (v, s') => if (lo <=? v) && (v <=? hi) then Some (v, s') else None
  | None => None
  end.

(** two-character alternative: a digit in [lo1..hi1] then one in [lo2..hi2] *)
Definition two (lo1 hi1 lo2 hi2 : Z) (s : string) : list (Z * string) :=
  match digit_in lo1 hi1 s with
  | Some (a, s') =>
      match digit_in lo2 hi2 s' with
      | Some (b, s'') => [(10 * a + b, s'')]
      | None => []
      end
  | None => []
  end.

Definition one (lo hi : Z) (s : string) : list (Z * string) :=
  match digit_in lo hi s with
  | Some r => [r]
  | None => []
  end.

Definition directive_Y (s : string) : list (Z * string) :=
  match digit s with
  | Some (a, s1) =>
      match digit s1 with
      | Some (b, s2) =>
          match digit s2 with
          | Some (c, s3) =>
              match digit s3 with
              | Some (d, s4) => [(1000 * a + 100 * b + 10 * c + d, s4)]
              | None => []
              end
          | None => []
          end
      | None => []
      end
  | None => []
  end.

Definition directive_m (s : string) : list (Z * string) :=
  two 1 1 0 2 s ++ two 0 0 1 9 s ++ one 1 9 s.

Definition directive_d (s : string) : list (Z * string) :=
  two 3 3 0 1 s ++ two 1 2 0 9 s ++ two 0 0 1 9 s ++ one 1 9 s ++
  match s with
  | String " " s' => one 1 9 s'
  | _ => []
  end.

Definition literal (c : ascii) (s : string) : list string :=
  match s with
  | String c' s' => if Ascii.eqb c c' then [s'] else []
  | EmptyString => []
  end.

(** All ways the expression matches a prefix of [s], in the order the
    backtracking matcher explores them. *)
Definition matches_Ymd (s : string) : list (date * string) :=
  '(y, s1) ← directive_Y s;
  s2 ← literal "-" s1;
  '(m, s3) ← directive_m s2;
  s4 ← literal "-" s3;
  '(d, s5) ← directive_d s4;
  [(mk y m d, s5)].

Definition strptime_Ymd (s : string) : result date :=
  match matches_Ymd s with
  | (d, EmptyString) :: _ => if valid d then Ok d else Raised ValueError
  | _ => Raised ValueError
  end.

End Date.

(* ===================================================================== *)
(** * The store: the tables created by [init_db] *)
(* ===================================================================== *)

Record Customer : Type := {
  c_id : Z; first_name : string; last_name : string;
  phone : string; email : string; address : string }.

Record Vehicle : Type := {
  v_id : Z; v_customer_id : Z; vrm : string; make : string;
  model : string; mileage : option Z }.

Record Service : Type := {
  s_id : Z; s_name : string; s_description : string;
  s_unit_price : float; s_vat_rate : float }.

Record Booking : Type := {
  b_id : Z; b_customer_id : Z; b_vehicle_id : Z;
  booking_date : string; notes : string; b_status : string }.

Record BookingItem : Type := {
  bi_id : Z; bi_booking_id : Z; bi_service_id : Z;
  bi_quantity : Z; bi_unit_price : float; bi_vat_rate : float }.

Record MiscItem : Type := {
  mi_id : Z; mi_booking_id : Z; mi_name : string;
  mi_quantity : Z; mi_unit_price : float; mi_vat_rate : float }.

Record Invoice : Type := {
  i_id : Z; i_booking_id : Z; invoice_number : string; issue_date : string;
  total_ex_vat : float; total_vat : float; total_inc : float;
  i_status : string }.

(** A settings row: [key TEXT PRIMARY KEY, value TEXT]; [None] is NULL. *)
Record Store : Type := {
  customers : list Customer;
  vehicles : list Vehicle;
  services : list Service;
  bookings : list Booking;
  booking_items : list BookingItem;
  misc_items : list MiscItem;
  invoices : list Invoice;
  settings : list (string * option string) }.

Definition empty_store : Store :=
  {| customers := []; vehicles := []; services := []; bookings := [];
     booking_items := []; misc_items := []; invoices := []; settings := [] |}.

(** ** What [sqlite3] checks of the values of a row *)

Module Sql.

(** An [int] bound to a statement: outside the signed 64-bit range of an
    SQLite INTEGER the binding raises [OverflowError]. *)
Definition in_range (n : Z) : bool := (- 2 ^ 63 <=? n) && (n <? 2 ^ 63).

Definition integer (n : Z) : result Z :=
  if in_range n then Ok n else Raised OverflowError.

(** An [int] or [None]. *)
Definition integer_or_null (n : option Z) : result (option Z) :=
  match n with
  | Some n => n' ← integer n; Ok (Some n')
  | None => Ok None
  end.

(** An [int] bound to the parameter of [WHERE id = ?], [held] being the
    ids of the rows of the table: outside the signed 64-bit range the
    binding raises [OverflowError].  The ids a table holds are within
    the range. *)
Definition row_id (n : Z) (held : list Z) : result Z :=
  if in_range n || bool_decide (n ∈ held) then Ok n else Raised OverflowError.

(** A [float] written to a [REAL NOT NULL] column: NaN is bound as NULL,
    which the constraint rejects when the statement runs. *)
Definition real_not_null (x : float) : result float :=
  if PrimFloat.is_nan x then Raised IntegrityError else Ok x.

End Sql.

(** [cur.lastrowid] after an insert into an [AUTOINCREMENT] table from
    which no row was ever deleted: one more than the largest id, 1 for an
    empty table. *)
Definition next_rowid (ids : list Z) : Z := 1 + foldr Z.max 0 ids.

Definition insert_customer (r : Z -> Customer) (st : Store) : Store * Z :=
  let id := next_rowid (c_id <$> customers st) in
  ({| customers := customers st ++ [r id]; vehicles := vehicles st;
      services := services st; bookings := bookings st;
      booking_items := booking_items st; misc_items := misc_items st;
      invoices := invoices st; settings := settings st |}, id).

Definition insert_vehicle (r : Z -> Vehicle) (st : Store) : result (Store * Z) :=
  let id := next_rowid (v_id <$> vehicles st) in
  _ ← Sql.integer_or_null (mileage (r id));
  Ok ({| customers := customers st; vehicles := vehicles st ++ [r id];
         services := services st; bookings := bookings st;
         booking_items := booking_items st; misc_items := misc_items st;
         invoices := invoices st; settings := settings st |}, id).

Definition insert_service (r : Z -> Service) (st : Store) : Store * Z :=
  let id := next_rowid (s_id <$> services st) in
  ({| customers := customers st; vehicles := vehicles st;
      services := services st ++ [r id]; bookings := bookings st;
      booking_items := booking_items st; misc_items := misc_items st;
      invoices := invoices st; settings := settings st |}, id).

Definition insert_booking (r : Z -> Booking) (st : Store) : Store * Z :=
  let id := next_rowid (b_id <$> bookings st) in
  ({| customers := customers st; vehicles := vehicles st;
      services := services st; bookings := bookings st ++ [r id];
      booking_items := booking_items st; misc_items := misc_items st;
      invoices := invoices st; settings := settings st |}, id).

Definition insert_booking_item (r : Z -> BookingItem) (st : Store)
  : result (Store * Z) :=
  let id := next_rowid (bi_id <$> booking_items st) in
  _ ← Sql.integer (bi_quantity (r id));
  _ ← Sql.real_not_null (bi_unit_price (r id));
  _ ← Sql.real_not_null (bi_vat_rate (r id));
  Ok ({| customers := customers st; vehicles := vehicles st;
         services := services st; bookings := bookings st;
         booking_items := booking_items st ++ [r id]; misc_items := misc_items st;
         invoices := invoices st; settings := settings st |}, id).

Definition insert_misc_item (r : Z -> MiscItem) (st : Store)
  : result (Store * Z) :=
  let id := next_rowid (mi_id <$> misc_items st) in
  _ ← Sql.integer (mi_quantity (r id));
  _ ← Sql.real_not_null (mi_unit_price (r id));
  _ ← Sql.real_not_null (mi_vat_rate (r id));
  Ok ({| customers := customers st; vehicles := vehicles st;
         services := services st; bookings := bookings st;
         booking_items := booking_items st; misc_items := misc_items st ++ [r id];
         invoices := invoices st; settings := settings st |}, id).

Definition insert_invoice (r : Z -> Invoice) (st : Store) : result (Store * Z) :=
  let id := next_rowid (i_id <$> invoices st) in
  _ ← Sql.real_not_null (total_ex_vat (r id));
  _ ← Sql.real_not_null (total_vat (r id));
  _ ← Sql.real_not_null (total_inc (r id));
  Ok ({| customers := customers st; vehicles := vehicles st;
         services := services st; bookings := bookings st;
         booking_items := booking_items st; misc_items := misc_items st;
         invoices := invoices st ++ [r id]; settings := settings st |}, id).

Definition insert_settings (rows : list (string * option string)) (st : Store) : Store :=
  {| customers := customers st; vehicles := vehicles st;
     services := services st; bookings := bookings st;
     booking_items := booking_items st; misc_items := misc_items st;
     invoices := invoices st; settings := settings st ++ rows |}.

(** [UPDATE bookings SET status = s WHERE id = booking_id] *)
Definition update_booking_status (s : string) (booking_id : Z) (st : Store) : Store :=
  {| customers := customers st; vehicles := vehicles st;
     services := services st;
     bookings :=
       (fun b => if decide (b_id b = booking_id)
                 then {| b_id := b_id b; b_customer_id := b_customer_id b;
                         b_vehicle_id := b_vehicle_id b;
                         booking_date := booking_date b; notes := notes b;
                         b_status := s |}
                 else b) <$> bookings st;
     booking_items := booking_items st; misc_items := misc_items st;
     invoices := invoices st; settings := settings st |}.

(** [UPDATE invoices SET status = s WHERE booking_id = booking_id] *)
Definition update_invoice_status (s : string) (booking_id : Z) (st : Store) : Store :=
  {| customers := customers st; vehicles := vehicles st;
     services := services st; bookings := bookings st;
     booking_items := booking_items st; misc_items := misc_items st;
     invoices :=
       (fun i => if decide (i_booking_id i = booking_id)
                 then {| i_id := i_id i; i_booking_id := i_booking_id i;
                         invoice_number := invoice_number i;
                         issue_date := issue_date i;
                         total_ex_vat := total_ex_vat i;
                         total_vat := total_vat i; total_inc := total_inc i;
                         i_status := s |}
                 else i) <$> invoices st;
     settings := settings st |}.

(** ** [init_db] *)

Definition default_settings : list (string * option string) :=
  [ ("company_name", Some "Motorhouse Beds Ltd");
    ("address_line1", Some "87 High Street");
    ("address_line2", Some "Clapham");
    ("address_city", Some "Bedford");
    ("address_county", Some "Bedfordshire");
    ("address_postcode", Some "MK41 6AQ");
    ("phone1", Some "01234 225570");
    ("phone2", Some "07923 829234");
    ("email", Some "info@motorhouse-beds.co.uk");
    ("company_number", Some "14696224");
    ("fca_number", Some "1000208");
    ("payment_methods", Some "Bank transfer, Credit/Debit card, Cash");
    ("bank_details", Some "Sort Code: 01-02-03, Account No: 12345678");
    ("payment_terms_days", Some "14");
    ("terms_conditions", Some "Payment is due within 14 days of the invoice date. Late payments may incur interest at 2% per month. All goods remain the property of Motorhouse Beds Ltd until paid for in full.") ].

Definition default_services : list (string * string * float * float) :=
  [ ("Full Service", "Comprehensive vehicle servicing including oil and filter change, safety checks and diagnostics", 200.0, 0.20);
    ("Interim Service", "Basic service including oil and filter change and essential safety checks", 120.0, 0.20);
    ("MOT Test", "Annual Ministry of Transport test to ensure roadworthiness", 54.85, 0.00);
    ("Brake Pads Replacement", "Replace front or rear brake pads as needed", 150.0, 0.20);
    ("Diagnostics", "Computer diagnostics and fault code reading", 60.0, 0.20) ]%float.

Definition init_db (st : Store) : Store :=
  let st :=
    if decide (length (settings st) = 0%nat)
    then insert_settings default_settings st else st in
  if decide (length (services st) = 0%nat)
  then
    foldl (fun st '(name, description, unit_price, vat_rate) =>
             fst (insert_service
                    (fun id => {| s_id := id; s_name := name;
                                  s_description := description;
                                  s_unit_price := unit_price;
                                  s_vat_rate := vat_rate |}) st))
          st default_services
  else st.

(** The store of a fresh installation. *)
Definition init_store : Store := init_db empty_store.

(** [get_settings]: the dictionary of the settings rows; as in a dict
    comprehension, a later row of the same key replaces an earlier one. *)
Definition get_settings (st : Store) : gmap string (option string) :=
  foldl (fun d row => <[fst row := snd row]> d) ∅ (settings st).

(** [next_invoice_number], reading the committed store. *)
Definition next_invoice_number (today : Date.date) (st : Store) : string :=
  let next_id :=
    match i_id <$> invoices st with
    | [] => 1
    | id :: ids => foldr Z.max id ids + 1
    end in
  let date_str := Date.strftime_Ymd today in
  "INV" +:+ date_str +:+ "-" +:+ Str.fmt_0d 3 next_id.

(* ===================================================================== *)
(** * Requests and responses *)
(* ===================================================================== *)

(** The dictionary [urllib.parse.parse_qs] returns: each name present in
    the body is mapped to the non-empty list of its values, first value
    first.  Blank values are dropped by [parse_qs], so an empty form field
    is an absent key. *)
Abbreviation Fields := (gmap string (string * list string)).

(** [fields.get(key, [default])[0]] *)
Definition field (fields : Fields) (key default : string) : string :=
  match fields !! key with
  | Some (v, _) => v
  | None => default
  end.

(** The dates returned by the calls to [datetime.date.today()] a booking
    submission may make, in program order. *)
Record Clock : Type := {
  today_booking_date : Date.date;
  today_invoice_number : Date.date;
  today_issue_date : Date.date }.

(** One row of the invoice table of the page. *)
Record InvoiceLine : Type := {
  l_name : string; l_qty : Z; l_unit_price : float;
  line_total_ex : float; line_vat : float; line_total_inc : float }.

(** The context handed to [render_template('invoice.html', ...)], before
    currency formatting. *)
Record InvoicePage : Type := {
  p_invoice_number : string;
  p_issue_date : string;
  due_date : string;
  next_service_date : string;
  items_rows : list InvoiceLine;
  p_total_ex : float; p_total_vat : float; p_total_inc : float }.

Inductive Response : Type :=
| See_Other (location : string)              (* 303 with a Location header *)
| Send_Error (code : Z) (message : string)   (* [send_error] *)
| Respond_Invoice (page : InvoicePage).      (* 200, the invoice page *)

(** A [for] loop whose body may raise. *)
Fixpoint for_each {A S : Type} (body : S -> A -> result S) (l : list A) (s : S)
  : result S :=
  match l with
  | [] => Ok s
  | x :: l' => s' ← body s x; for_each body l' s'
  end.

(* ===================================================================== *)
(** * [process_new_booking] *)
(* ===================================================================== *)

(** The loop state: the open transaction and the two running totals. *)
Record Totals : Type := {
  tx : Store; acc_total_ex_vat : float; acc_total_vat : float }.

(** Body of [for svc_id, unit_price, vat_rate in services]. *)
Definition service_item (fields : Fields) (booking_id : Z)
    (t : Totals) (svc : Service) : result Totals :=
  let svc_id := s_id svc in
  let unit_price := s_unit_price svc in
  let vat_rate := s_vat_rate svc in
  let qty_key := "qty_" +:+ Str.of_Z svc_id in
  let qty_str := field fields qty_key "0" in
  qty ← except_ValueError (Num.py_int qty_str) 0;
  if 0 <? qty then
    '(tx', _) ←
      insert_booking_item
        (fun id => {| bi_id := id; bi_booking_id := booking_id;
                      bi_service_id := svc_id; bi_quantity := qty;
                      bi_unit_price := unit_price;
                      bi_vat_rate := vat_rate |}) (tx t);
    line_total ← Num.int_mul_float qty unit_price;
    let line_vat := (line_total * vat_rate)%float in
    Ok {| tx := tx';
          acc_total_ex_vat := (acc_total_ex_vat t + line_total)%float;
          acc_total_vat := (acc_total_vat t + line_vat)%float |}
  else Ok t.

(** Body of [for i in range(1, 4)]. *)
Definition custom_item (fields : Fields) (booking_id : Z)
    (t : Totals) (i : Z) : result Totals :=
  let name_key := "custom_name_" +:+ Str.of_Z i in
  let qty_key := "custom_qty_" +:+ Str.of_Z i in
  let price_key := "custom_price_" +:+ Str.of_Z i in
  let vat_key := "custom_vat_" +:+ Str.of_Z i in
  let name_val := Str.strip (field fields name_key "") in
  let qty_val := field fields qty_key "0" in
  let price_val := field fields price_key "" in
  let vat_val := field fields vat_key "" in
  if negb (Str.truthy name_val) then Ok t
  else
    qty_int ← except_ValueError (Num.py_int qty_val) 0;
    price_float ← except_ValueError (Num.py_float price_val) 0%float;
    vat_float ← except_ValueError (Num.py_float vat_val) 0.20%float;
    if (0 <? qty_int) && Num.float_gt_0 price_float then
      '(tx', _) ←
        insert_misc_item
          (fun id => {| mi_id := id; mi_booking_id := booking_id;
                        mi_name := name_val; mi_quantity := qty_int;
                        mi_unit_price := price_float;
                        mi_vat_rate := vat_float |}) (tx t);
      line_total ← Num.int_mul_float qty_int price_float;
      let line_vat := (line_total * vat_float)%float in
      Ok {| tx := tx';
            acc_total_ex_vat := (acc_total_ex_vat t + line_total)%float;
            acc_total_vat := (acc_total_vat t + line_vat)%float |}
    else Ok t.

(** The booking date: the submitted one if [strptime] accepts it, else
    today's. *)
Definition booking_date_of (clk : Clock) (fields : Fields) : result string :=
  let date_str := Str.strip (field fields "booking_date" "") in
  if Str.truthy date_str then
    except_ValueError
      (_ ← Date.strptime_Ymd date_str; Ok date_str)
      (Date.isoformat (today_booking_date clk))
  else Ok (Date.isoformat (today_booking_date clk)).

(** Truthiness of [invoice_id]: [None] and [0] are false. *)
Definition id_truthy (invoice_id : option Z) : bool :=
  match invoice_id with
  | Some id => negb (id =? 0)
  | None => false
  end.

Definition process_new_booking (clk : Clock) (fields : Fields) (st : Store)
  : result (Store * Response) :=
  let first_name := Str.strip (field fields "first_name" "") in
  let last_name := Str.strip (field fields "last_name" "") in
  let phone := Str.strip (field fields "phone" "") in
  let email := Str.strip (field fields "email" "") in
  let address := Str.strip (field fields "address" "") in
  let vrm := Str.upper (Str.strip (field fields "vrm" "")) in
  let make := Str.strip (field fields "make" "") in
  let model := Str.strip (field fields "model" "") in
  let mileage := Str.strip (field fields "mileage" "0") in
  booking_date ← booking_date_of clk fields;
  let notes := Str.strip (field fields "notes" "") in
  let '(tx1, customer_id) :=
    insert_customer
      (fun id => {| c_id := id; first_name := first_name;
                    last_name := last_name; phone := phone; email := email;
                    address := address |}) st in
  mileage_val ←
    (if Str.isdigit mileage then n ← Num.py_int mileage; Ok (Some n)
     else Ok None);
  '(tx2, vehicle_id) ←
    insert_vehicle
      (fun id => {| v_id := id; v_customer_id := customer_id; vrm := vrm;
                    make := make; model := model; mileage := mileage_val |})
      tx1;
  let '(tx3, booking_id) :=
    insert_booking
      (fun id => {| b_id := id; b_customer_id := customer_id;
                    b_vehicle_id := vehicle_id; booking_date := booking_date;
                    notes := notes; b_status := "booked" |}) tx2 in
  t ← for_each (service_item fields booking_id) (services tx3)
        {| tx := tx3; acc_total_ex_vat := 0%float; acc_total_vat := 0%float |};
  t ← for_each (custom_item fields booking_id) [1; 2; 3] t;
  let total_ex_vat := acc_total_ex_vat t in
  let total_vat := acc_total_vat t in
  '(tx4, invoice_id) ←
    (if Num.float_gt_0 total_ex_vat then
       let invoice_number := next_invoice_number (today_invoice_number clk) st in
       let total_inc := (total_ex_vat + total_vat)%float in
       let issue_date := Date.isoformat (today_issue_date clk) in
       '(tx4, id) ←
         insert_invoice
           (fun id => {| i_id := id; i_booking_id := booking_id;
                         invoice_number := invoice_number;
                         issue_date := issue_date;
                         total_ex_vat := total_ex_vat; total_vat := total_vat;
                         total_inc := total_inc; i_status := "unpaid" |})
           (tx t);
       Ok (tx4, Some id)
     else Ok (tx t, None));
  (* conn.commit() *)
  if id_truthy invoice_id then
    Ok (tx4, See_Other ("/invoice/" +:+ Str.of_Z (default 0 invoice_id)))
  else
    Ok (tx4, See_Other "/").

(* ===================================================================== *)
(** * [process_cancel_booking] and [do_POST] *)
(* ===================================================================== *)

Definition process_cancel_booking (fields : Fields) (st : Store)
  : result (Store * Response) :=
  let booking_id_str := field fields "booking_id" "" in
  match Num.py_int booking_id_str with
  | Raised ValueError => Ok (st, Send_Error 400 "Invalid booking ID")
  | Raised e => Raised e
  | Ok booking_id =>
      _ ← Sql.row_id booking_id (b_id <$> bookings st);
      let tx1 := update_booking_status "canceled" booking_id st in
      let tx2 := update_invoice_status "canceled" booking_id tx1 in
      (* conn.commit() *)
      Ok (tx2, See_Other "/bookings")
  end.

Definition do_POST (clk : Clock) (path : string) (fields : Fields) (st : Store)
  : result (Store * Response) :=
  if decide (path = "/booking/new") then process_new_booking clk fields st
  else if decide (path = "/booking/cancel") then process_cancel_booking fields st
  else Ok (st, Send_Error 404 "Page not found").

(* ===================================================================== *)
(** * [handle_invoice] *)
(* ===================================================================== *)

(** The row of the four-table join for one invoice id, if any. *)
Definition invoice_join (invoice_id : Z) (st : Store)
  : option (Invoice * Booking * Customer * Vehicle) :=
  head (
    i ← filter (fun i => i_id i = invoice_id) (invoices st);
    b ← filter (fun b => b_id b = i_booking_id i) (bookings st);
    c ← filter (fun c => c_id c = b_customer_id b) (customers st);
    v ← filter (fun v => v_id v = b_vehicle_id b) (vehicles st);
    [(i, b, c, v)]).

(** The line items of a booking: its booking items joined with their
    services, then its misc items with an empty description. *)
Definition invoice_items (booking_id : Z) (st : Store)
  : list (string * string * Z * float * float) :=
  let items :=
    bi ← filter (fun bi => bi_booking_id bi = booking_id) (booking_items st);
    s ← filter (fun s => s_id s = bi_service_id bi) (services st);
    [(s_name s, s_description s, bi_quantity bi, bi_unit_price bi, bi_vat_rate bi)] in
  let misc :=
    (fun mi => (mi_name mi, "", mi_quantity mi, mi_unit_price mi, mi_vat_rate mi))
      <$> filter (fun mi => mi_booking_id mi = booking_id) (misc_items st) in
  items ++ misc.

(** Body of [for name, desc, qty, unit_price, vat_rate in items]. *)
Definition item_row (acc : list InvoiceLine * list string)
    (item : string * string * Z * float * float)
  : result (list InvoiceLine * list string) :=
  let '(name, desc, qty, unit_price, vat_rate) := item in
  let '(item_rows, service_names) := acc in
  let service_names := service_names ++ [name] in
  line_total_ex ← Num.int_mul_float qty unit_price;
  let line_vat := (line_total_ex * vat_rate)%float in
  let line_total_inc := (line_total_ex + line_vat)%float in
  Ok (item_rows ++ [{| l_name := name; l_qty := qty; l_unit_price := unit_price;
                       line_total_ex := line_total_ex; line_vat := line_vat;
                       line_total_inc := line_total_inc |}],
      service_names).

(** The loop [for name in service_names: ... break]. *)
Fixpoint service_interval_months (months : Z) (service_names : list string) : Z :=
  match service_names with
  | [] => months
  | name :: rest =>
      let lower := Str.lower name in
      if Str.contains "interim" lower then 6
      else service_interval_months months rest
  end.

Definition handle_invoice (invoice_id : Z) (st : Store) : result Response :=
  _ ← Sql.row_id invoice_id (i_id <$> invoices st);
  match invoice_join invoice_id st with
  | None => Ok (Send_Error 404 "Invoice not found")
  | Some (i, b, c, v) =>
      let booking_id := b_id b in
      let issue_date := issue_date i in
      let items := invoice_items booking_id st in
      '(item_rows, service_names) ← for_each item_row items ([], []);
      let settings := get_settings st in
      days ←
        except_ValueError
          (match default (Some "14") (settings !! "payment_terms_days") with
           | Some s => Num.py_int s
           | None => Raised TypeError
           end) 14;
      issue_dt ← Date.strptime_Ymd issue_date;
      due_dt ← Date.add_days issue_dt days;
      let due_date := Date.isoformat due_dt in
      let months := service_interval_months 12 service_names in
      next_service_dt ← Date.add_days issue_dt (30 * months);
      let next_service_date := Date.isoformat next_service_dt in
      Ok (Respond_Invoice
            {| p_invoice_number := invoice_number i;
               p_issue_date := issue_date;
               due_date := due_date;
               next_service_date := next_service_date;
               items_rows := item_rows;
               p_total_ex := total_ex_vat i;
               p_total_vat := total_vat i;
               p_total_inc := total_inc i |})
  end.

(** The dictionary [parse_qs] builds from the decoded name/value pairs of
    the request body: blank values are skipped, a repeated name collects
    its values in order. *)
Definition fields_of_pairs (pairs : list (string * string)) : Fields :=
  foldl (fun (d : Fields) '(name, value) =>
           if String.eqb value "" then d
           else match d !! name with
                | Some (v, vs) => <[name := (v, vs ++ [value])]> d
                | None => <[name := (value, [])]> d
                end)
        ∅ pairs.

(* ===================================================================== *)
(** * Runs of the server *)
(* ===================================================================== *)

(** What [datetime.date.today()] can return. *)
Definition valid_clock (clk : Clock) : Prop :=
  Date.valid (today_booking_date clk) = true /\
  Date.valid (today_invoice_number clk) = true /\
  Date.valid (today_issue_date clk) = true.

(** The stores a fresh installation reaches by handling POST requests one
    after the other (GET requests do not write).  A request that raises
    commits nothing. *)
Inductive reachable : Store -> Prop :=
| reach_init : reachable init_store
| reach_post clk path fields st st' resp :
    reachable st ->
    valid_clock clk ->
    do_POST clk path fields st = Ok (st', resp) ->
    reachable st'.

(* ===================================================================== *)
(** * Notions of the specification *)
(* ===================================================================== *)

(** Sum of a list of amounts, accumulated from 0.0 in list order. *)
Definition fsum (l : list float) : float := foldl PrimFloat.add 0%float l.

(** A persisted line item: quantity, unit price, VAT rate. *)
Definition Line : Type := Z * float * float.

Definition line_ex (l : Line) : float :=
  let '(quantity, unit_price, _) := l in
  (Num.to_float quantity * unit_price)%float.

Definition line_vat_of (l : Line) : float :=
  let '(_, _, vat_rate) := l in
  (line_ex l * vat_rate)%float.

(** The line items persisted for a booking: its [booking_items] rows, then
    its [misc_items] rows. *)
Definition booking_lines (booking_id : Z) (st : Store) : list Line :=
  ((fun bi => (bi_quantity bi, bi_unit_price bi, bi_vat_rate bi))
     <$> filter (fun bi => bi_booking_id bi = booking_id) (booking_items st))
  ++
  ((fun mi => (mi_quantity mi, mi_unit_price mi, mi_vat_rate mi))
     <$> filter (fun mi => mi_booking_id mi = booking_id) (misc_items st)).

(** The names of the line items of a booking: the catalog services its
    booking items refer to, then its misc items. *)
Definition line_item_names (booking_id : Z) (st : Store) : list string :=
  (bi ← filter (fun bi => bi_booking_id bi = booking_id) (booking_items st);
   s ← filter (fun s => s_id s = bi_service_id bi) (services st);
   [s_name s])
  ++ (mi_name <$> filter (fun mi => mi_booking_id mi = booking_id) (misc_items st)).

(** [needle] occurs in [name] up to ASCII letter case. *)
Definition ci_substring (needle name : string) : Prop :=
  exists pre mid post,
    name = pre +:+ mid +:+ post /\ Str.lower mid = Str.lower needle.

Definition all_digits (s : string) : bool := Str.forallb Str.is_digit s.

(** The value of a string of decimal digits. *)
Fixpoint dec_value_go (acc : N) (s : string) : N :=
  match s with
  | EmptyString => acc
  | String c s' => dec_value_go (10 * acc + Str.digit_val c)%N s'
  end.
Definition dec_value (s : string) : N := dec_value_go 0 s.

(** The pattern [INV{8-digit date}-{3-digit sequence}]. *)
Definition inv_pattern_3 (s : string) : bool :=
  (String.length s =? 15)%nat &&
  String.eqb (String.substring 0 3 s) "INV" &&
  all_digits (String.substring 3 8 s) &&
  String.eqb (String.substring 11 1 s) "-" &&
  all_digits (String.substring 12 3 s).

(** The day after [d] in the Gregorian calendar. *)
Definition next_day (d : Date.date) : Date.date :=
  if Date.day d <? Date._days_in_month (Date.year d) (Date.month d)
  then Date.mk (Date.year d) (Date.month d) (Date.day d + 1)
  else if Date.month d <? 12
       then Date.mk (Date.year d) (Date.month d + 1) 1
       else Date.mk (Date.year d + 1) 1 1.

(** [d'] is [n] calendar days after [d] ([- n] days before, for a
    negative [n]). *)
Definition plus_days (d : Date.date) (n : Z) (d' : Date.date) : Prop :=
  if 0 <=? n then d' = Nat.iter (Z.to_nat n) next_day d
  else d = Nat.iter (Z.to_nat (- n)) next_day d'.

(** A string of the form YYYY-MM-DD that names a date of the calendar. *)
Definition iso_date_string (s : string) : Prop :=
  exists d, Date.valid d = true /\ s = Date.isoformat d.

(** Every item and invoice row belongs to a booking of the store. *)
Definition references_bookings (st : Store) : Prop :=
  (forall bi, bi ∈ booking_items st -> bi_booking_id bi ∈ (b_id <$> bookings st)) /\
  (forall mi, mi ∈ misc_items st -> mi_booking_id mi ∈ (b_id <$> bookings st)) /\
  (forall i, i ∈ invoices st -> i_booking_id i ∈ (b_id <$> bookings st)).

(** Invoice ids are positive and distinct, and every invoice carries the
    number generated from its own id on some calendar date. *)
Definition numbered (st : Store) : Prop :=
  NoDup (i_id <$> invoices st) /\
  forall i, i ∈ invoices st ->
    1 <= i_id i /\
    exists today, Date.valid today = true /\
      invoice_number i =
        "INV" +:+ Date.strftime_Ymd today +:+ "-" +:+ Str.fmt_0d 3 (i_id i).

(** A year written as 400-, 100-, 4- and 1-year cycles since year 1, and
    whether such a year is a leap year. *)
Definition cycles_year (a b c e : Z) : Z := 400 * a + 100 * b + 4 * c + e + 1.

Definition cycles_leap (b c e : Z) : bool :=
  (e =? 3) && (negb (c =? 24) || (b =? 3)).

(** ** The line items a submission asks for *)

(** The quantity submitted for a catalog service: the field
    [qty_{service id}], 0 when absent or not an integer. *)
Definition catalog_quantity (fields : Fields) (svc : Service) : Z :=
  match Num.py_int (field fields ("qty_" +:+ Str.of_Z (s_id svc)) "0") with
  | Ok qty => qty
  | Raised _ => 0
  end.

(** The catalog lines of a submission: one for each service with a
    positive quantity, priced from the catalog.  Service id and line. *)
Definition catalog_rows (fields : Fields) (svcs : list Service) : list (Z * Line) :=
  (fun svc => (s_id svc, (catalog_quantity fields svc, s_unit_price svc, s_vat_rate svc)))
    <$> filter (fun svc => 0 < catalog_quantity fields svc) svcs.

(** The [i]-th custom line of a submission, with the defaults for values
    that do not parse: quantity 0, price 0.0, VAT rate 0.20.  [None] when
    the line is skipped. *)
Definition custom_row (fields : Fields) (i : Z) : option (string * Line) :=
  let name := Str.strip (field fields ("custom_name_" +:+ Str.of_Z i) "") in
  let quantity :=
    match Num.py_int (field fields ("custom_qty_" +:+ Str.of_Z i) "0") with
    | Ok q => q | Raised _ => 0
    end in
  let price :=
    match Num.py_float (field fields ("custom_price_" +:+ Str.of_Z i) "") with
    | Ok p => p | Raised _ => 0%float
    end in
  let vat_rate :=
    match Num.py_float (field fields ("custom_vat_" +:+ Str.of_Z i) "") with
    | Ok v => v | Raised _ => 0.20%float
    end in
  if decide (name <> "" /\ 0 < quantity /\ Num.float_gt_0 price = true)
  then Some (name, (quantity, price, vat_rate))
  else None.

Definition custom_rows (fields : Fields) : list (string * Line) :=
  omap (custom_row fields) [1; 2; 3].

Definition booking_item_row (bi : BookingItem) : Z * Line :=
  (bi_service_id bi, (bi_quantity bi, bi_unit_price bi, bi_vat_rate bi)).

Definition misc_item_row (mi : MiscItem) : string * Line :=
  (mi_name mi, (mi_quantity mi, mi_unit_price mi, mi_vat_rate mi)).

(** Two states of the transaction that differ at most in their
    [booking_items] and [misc_items]. *)
Definition same_outside_items (st st' : Store) : Prop :=
  customers st' = customers st /\ vehicles st' = vehicles st /\
  services st' = services st /\ bookings st' = bookings st /\
  invoices st' = invoices st /\ settings st' = settings st.

(** [n] booking submissions handled one after the other, all with the
    same clock readings and the same form. *)
Fixpoint submissions (clk : Clock) (fields : Fields) (n : nat) (st : Store)
  : result Store :=
  match n with
  | O => Ok st
  | S n' =>
      st' ← submissions clk fields n' st;
      r ← do_POST clk "/booking/new" fields st';
      Ok (fst r)
  end.

(** 15 January 2025 on the clock. *)
Definition clock_2025_01_15 : Clock :=
  {| today_booking_date := Date.mk 2025 1 15;
     today_invoice_number := Date.mk 2025 1 15;
     today_issue_date := Date.mk 2025 1 15 |}.

(** The configured payment terms: the setting [payment_terms_days] read as
    an integer, 14 when it is missing or does not parse. *)
Definition payment_terms_days (st : Store) : Z :=
  match get_settings st !! "payment_terms_days" with
  | Some (Some value) =>
      match Num.py_int value with
      | Ok days => days
      | Raised _ => 14
      end
  | _ => 14
  end.

(** Some line item of the booking has "interim" in its name, in any
    letter case. *)
Definition has_interim_item (booking_id : Z) (st : Store) : Prop :=
  exists name, name ∈ line_item_names booking_id st /\ ci_substring "interim" name.

(** ** What a form may hold *)

(** [s.isascii()] *)
Definition isascii (s : string) : bool :=
  Str.forallb (fun c => (N_of_ascii c <? 128)%N) s.

(** ASCII text of at most 4300 characters: the text on which [int()],
    [float()] and the [str] methods of the program are the ones embedded
    here. *)
Definition plain (s : string) : bool :=
  isascii s && (String.length s <=? 4300)%nat.

(** Every value the handlers read from the form is plain. *)
Definition plain_form (fields : Fields) : Prop :=
  map_Forall (fun _ value => plain (fst value) = true) fields.


(** The misc row [mi] holds the custom line [r]: its name, its quantity
    and its price, and its VAT rate as a number (a REAL column returns
    -0.0 as 0.0). *)
Definition holds_custom_line (mi : MiscItem) (r : string * Line) : Prop :=
  mi_name mi = r.1 /\ mi_quantity mi = r.2.1.1 /\ mi_unit_price mi = r.2.1.2 /\
  (mi_vat_rate mi =? r.2.2)%float = true.

(** The value the settings table holds for [key]: that of the last row
    with the key (the key is the primary key of the table: there is at
    most one), [None] without such a row.  The value may be NULL. *)
Definition setting (key : string) (st : Store) : option (option string) :=
  snd <$> last (filter (fun row => fst row = key) (settings st)).

(** ** A worked example *)

(** A submission with one Interim Service and one custom part. *)
Definition example_fields : Fields :=
  fields_of_pairs
    [ ("first_name", "Ann"); ("last_name", "Lee"); ("vrm", "ab12 cde");
      ("mileage", "41200"); ("booking_date", "2025-01-20");
      ("qty_2", "1");
      ("custom_name_1", "Tow fee"); ("custom_qty_1", "1");
      ("custom_price_1", "50"); ("custom_vat_1", "") ].

(** The store of a fresh installation after that submission. *)
Definition example_store : Store :=
  match process_new_booking clock_2025_01_15 example_fields init_store with
  | Ok (st, _) => st
  | Raised _ => init_store
  end.

(** A submission of three custom items: the first with a VAT rate that
    does not parse, the second with a quantity and the third with a price
    that do not parse. *)
Definition unparsable_fields : Fields :=
  fields_of_pairs
    [ ("custom_name_1", "Tow fee"); ("custom_qty_1", "1");
      ("custom_price_1", "50"); ("custom_vat_1", "n/a");
      ("custom_name_2", "Wiper blades"); ("custom_qty_2", "two");
      ("custom_price_2", "12.50"); ("custom_vat_2", "0.2");
      ("custom_name_3", "Bulb"); ("custom_qty_3", "2");
      ("custom_price_3", "cheap"); ("custom_vat_3", "0.2") ].

(** The same store with payment terms of 30 days. *)
Definition example_store_30 : Store :=
  {| customers := customers example_store; vehicles := vehicles example_store;
     services := services example_store; bookings := bookings example_store;
     booking_items := booking_items example_store;
     misc_items := misc_items example_store;
     invoices := invoices example_store;
     settings :=
       (fun row => if String.eqb (fst row) "payment_terms_days"
                   then (fst row, Some "30") else row)
         <$> settings example_store |}.

(* ===================================================================== *)
(** * [do_GET] and the pages that read the store *)
(* ===================================================================== *)

(** [s.split(sep)] for a one-character separator: the pieces between the
    occurrences of [sep], never an empty list. *)
Fixpoint str_split (sep : ascii) (s : string) : list string :=
  match s with
  | EmptyString => [EmptyString]
  | String c s' =>
      if Ascii.eqb c sep then EmptyString :: str_split sep s'
      else
        match str_split sep s' with
        | piece :: pieces => String c piece :: pieces
        | [] => [String c EmptyString]
        end
  end.

(** [s.split(sep)[-1]] *)
Definition last_piece (sep : ascii) (s : string) : string :=
  default "" (last (str_split sep s)).

(** The nearest integer to [n * 2^e], ties to the even one. *)
Definition round_half_even (n e : Z) : Z :=
  if 0 <=? e then n * 2 ^ e
  else
    let d := 2 ^ (- e) in
    let q := n / d in
    let r := n mod d in
    if 2 * r <? d then q
    else if d <? 2 * r then q + 1
    else if Z.even q then q else q + 1.

(** The format specification [.2f] on a [float]: the decimal with two
    places nearest to the exact binary value, ties to even. *)
Definition fmt_2f (x : float) : string :=
  match Prim2SF x with
  | S754_nan => "nan"
  | S754_infinity s => if s then "-inf" else "inf"
  | S754_zero s => if s then "-0.00" else "0.00"
  | S754_finite s m e =>
      let q := round_half_even (Z.pos m * 100) e in
      (if s then "-" else "") +:+
      Str.of_Z (q / 100) +:+ "." +:+ Str.fmt_0d 2 (q mod 100)
  end.

(** [int(x)] for a [float]: truncation towards zero. *)
Definition int_of_float (x : float) : result Z :=
  match Prim2SF x with
  | S754_nan => Raised ValueError
  | S754_infinity _ => Raised OverflowError
  | S754_zero _ => Ok 0
  | S754_finite s m e =>
      let v := if 0 <=? e then Z.pos m * 2 ^ e else Z.pos m / 2 ^ (- e) in
      Ok (if s then - v else v)
  end.

(** ** [handle_dashboard] *)

(** The context handed to [render_template('dashboard.html', ...)];
    [render_template] replaces a [None] by the empty string. *)
Record DashboardPage : Type := {
  dp_booking_count : Z;
  dp_invoice_count : Z;
  dp_company_name : string }.

Definition handle_dashboard (st : Store) : DashboardPage :=
  let booking_count := Z.of_nat (length (bookings st)) in
  let invoice_count := Z.of_nat (length (invoices st)) in
  let settings := get_settings st in
  {| dp_booking_count := booking_count;
     dp_invoice_count := invoice_count;
     dp_company_name := default "" (mjoin (settings !! "company_name")) |}.

(** ** [handle_new_booking_form] *)

(** One row of the services table of the form: the texts of its cells
    and the name of its quantity input. *)
Record ServiceRow : Type := {
  sr_name : string;
  sr_description : string;
  sr_price : string;
  sr_vat_percent : Z;
  sr_input_name : string }.

(** Body of [for svc in services]. *)
Definition service_row (service_rows : list ServiceRow) (svc : Service)
  : result (list ServiceRow) :=
  let svc_id := s_id svc in
  let name := s_name svc in
  let description := s_description svc in
  let price := s_unit_price svc in
  let vat := s_vat_rate svc in
  percent ← int_of_float (vat * 100)%float;
  let row :=
    {| sr_name := name; sr_description := description;
       sr_price := fmt_2f price; sr_vat_percent := percent;
       sr_input_name := "qty_" +:+ Str.of_Z svc_id |} in
  Ok (service_rows ++ [row]).

Definition handle_new_booking_form (st : Store) : result (list ServiceRow) :=
  for_each service_row (services st) [].

(** ** [handle_invoice_list] and [handle_booking_list] *)

(** [ORDER BY key DESC, id DESC] on a text key, compared byte by byte,
    and an integer id: whether a row with [(key1, id1)] may be listed
    before a row with [(key2, id2)]. *)
Definition desc_key_id (key1 : string) (id1 : Z) (key2 : string) (id2 : Z) : bool :=
  match String.compare key1 key2 with
  | Gt => true
  | Lt => false
  | Eq => id2 <=? id1
  end.

(** The rows in that order; rows with the same key and id (there are
    none when ids are distinct) keep the order they had. *)
Definition order_by_desc {A : Type} (key : A -> string) (id : A -> Z) (rows : list A)
  : list A :=
  merge_sort (fun x y => Is_true (desc_key_id (key x) (id x) (key y) (id y))) rows.

(** [f"{first_name} {last_name}".strip()] *)
Definition display_name (first_name last_name : string) : string :=
  Str.strip (first_name +:+ " " +:+ last_name).

(** One row of the invoice list, before currency formatting. *)
Record InvoiceListRow : Type := {
  il_inv_id : Z;
  il_inv_num : string;
  il_issue_date : string;
  il_total_inc : float;
  il_status : string;
  il_customer_name : string }.

(** The rows the query of [handle_invoice_list] returns. *)
Definition invoice_list_query (st : Store) : list (Invoice * Customer) :=
  order_by_desc (fun r => issue_date r.1) (fun r => i_id r.1)
    (i ← invoices st;
     b ← filter (fun b => b_id b = i_booking_id i) (bookings st);
     c ← filter (fun c => c_id c = b_customer_id b) (customers st);
     [(i, c)]).

Definition handle_invoice_list (st : Store) : list InvoiceListRow :=
  (fun '(i, c) =>
     {| il_inv_id := i_id i;
        il_inv_num := invoice_number i;
        il_issue_date := issue_date i;
        il_total_inc := total_inc i;
        il_status := i_status i;
        il_customer_name := display_name (first_name c) (last_name c) |})
    <$> invoice_list_query st.

(** One row of the booking list.  [bl_inv_link] is the target and the
    text of the invoice link, [bl_cancel_form] the action of the cancel
    form and the fields it posts; [None] is an empty cell. *)
Record BookingListRow : Type := {
  bl_id : Z;
  bl_date : string;
  bl_customer_name : string;
  bl_vrm : string;
  bl_status : string;
  bl_inv_link : option (string * string);
  bl_cancel_form : option (string * list (string * string)) }.

(** The rows the query of [handle_booking_list] returns: a booking
    without an invoice gives one row with no invoice. *)
Definition booking_list_query (st : Store)
  : list (Booking * Customer * Vehicle * option Invoice) :=
  order_by_desc (fun r => booking_date r.1.1.1) (fun r => b_id r.1.1.1)
    (b ← bookings st;
     c ← filter (fun c => c_id c = b_customer_id b) (customers st);
     v ← filter (fun v => v_id v = b_vehicle_id b) (vehicles st);
     match filter (fun i => i_booking_id i = b_id b) (invoices st) with
     | [] => [(b, c, v, None)]
     | matching => (fun i => (b, c, v, Some i)) <$> matching
     end).

Definition booking_list_row (r : Booking * Customer * Vehicle * option Invoice)
  : BookingListRow :=
  let '(b, c, v, i) := r in
  let inv_num := default "" (invoice_number <$> i) in
  let inv_id := i_id <$> i in
  let customer_name := display_name (first_name c) (last_name c) in
  let action_html :=
    if decide (b_status b <> "canceled")
    then Some ("/booking/cancel", [("booking_id", Str.of_Z (b_id b))])
    else None in
  let inv_link :=
    if id_truthy inv_id
    then Some ("/invoice/" +:+ Str.of_Z (default 0 inv_id), inv_num)
    else None in
  {| bl_id := b_id b; bl_date := booking_date b;
     bl_customer_name := customer_name; bl_vrm := vrm v;
     bl_status := b_status b; bl_inv_link := inv_link;
     bl_cancel_form := action_html |}.

Definition handle_booking_list (st : Store) : list BookingListRow :=
  booking_list_row <$> booking_list_query st.

(** ** [do_GET] *)

(** What a GET request is answered with.  [serve_static] reads the file
    system; its answer is left as [Static_File]. *)
Inductive Reply : Type :=
| Dashboard (page : DashboardPage)
| Booking_Form (services_rows : list ServiceRow)
| Invoice_List (invoice_rows : list InvoiceListRow)
| Booking_List (booking_rows : list BookingListRow)
| Plain (r : Response)
| Static_File (path : string).

Definition do_GET (path : string) (st : Store) : result Reply :=
  if decide (path = "/") then Ok (Dashboard (handle_dashboard st))
  else if decide (path = "/booking/new") then
    rows ← handle_new_booking_form st; Ok (Booking_Form rows)
  else if decide (path = "/invoices") then Ok (Invoice_List (handle_invoice_list st))
  else if decide (path = "/bookings") then Ok (Booking_List (handle_booking_list st))
  else if String.prefix "/invoice/" path then
    except_ValueError
      (invoice_id ← Num.py_int (last_piece "/" path);
       r ← handle_invoice invoice_id st;
       Ok (Plain r))
      (Plain (Send_Error 404 "Invoice not found"))
  else if String.prefix "/static/" path then Ok (Static_File path)
  else Ok (Plain (Send_Error 404 "Page not found")).

(* ===================================================================== *)
(** * Invariants of the store *)
(* ===================================================================== *)

(** The ids of every table are distinct. *)
Definition unique_ids (st : Store) : Prop :=
  NoDup (c_id <$> customers st) /\
  NoDup (v_id <$> vehicles st) /\
  NoDup (s_id <$> services st) /\
  NoDup (b_id <$> bookings st) /\
  NoDup (bi_id <$> booking_items st) /\
  NoDup (mi_id <$> misc_items st) /\
  NoDup (i_id <$> invoices st).

(** Every foreign key names a row of the table it refers to, and the
    vehicle of a booking belongs to the customer of the booking. *)
Definition referential_integrity (st : Store) : Prop :=
  (forall v, v ∈ vehicles st -> v_customer_id v ∈ (c_id <$> customers st)) /\
  (forall b, b ∈ bookings st ->
     b_customer_id b ∈ (c_id <$> customers st) /\
     exists v, v ∈ vehicles st /\ v_id v = b_vehicle_id b /\
               v_customer_id v = b_customer_id b) /\
  (forall bi, bi ∈ booking_items st -> bi_service_id bi ∈ (s_id <$> services st)) /\
  references_bookings st.

(** Every booking item carries a positive quantity and the price and VAT
    rate of its catalog service; every misc item a name, a positive
    quantity and a positive price.  The quantities are in the range of a
    [float]. *)
Definition items_sound (st : Store) : Prop :=
  (forall bi, bi ∈ booking_items st ->
     0 < bi_quantity bi /\
     is_ok (Num.float_of_int (bi_quantity bi)) = true /\
     exists s, s ∈ services st /\ s_id s = bi_service_id bi /\
               bi_unit_price bi = s_unit_price s /\
               bi_vat_rate bi = s_vat_rate s) /\
  (forall mi, mi ∈ misc_items st ->
     mi_name mi <> "" /\
     0 < mi_quantity mi /\
     is_ok (Num.float_of_int (mi_quantity mi)) = true /\
     Num.float_gt_0 (mi_unit_price mi) = true).

(** A booking has at most one invoice; the totals of an invoice are the
    sums over the lines of its booking, its total before VAT is positive
    and its issue date is a calendar date in ISO form. *)
Definition invoices_sound (st : Store) : Prop :=
  NoDup (i_booking_id <$> invoices st) /\
  forall i, i ∈ invoices st ->
    total_ex_vat i = fsum (line_ex <$> booking_lines (i_booking_id i) st) /\
    total_vat i = fsum (line_vat_of <$> booking_lines (i_booking_id i) st) /\
    total_inc i = (total_ex_vat i + total_vat i)%float /\
    Num.float_gt_0 (total_ex_vat i) = true /\
    iso_date_string (issue_date i).

(** A booking is booked or canceled, an invoice unpaid or canceled, and
    an invoice is canceled exactly when its booking is. *)
Definition statuses_sound (st : Store) : Prop :=
  (forall b, b ∈ bookings st -> b_status b = "booked" \/ b_status b = "canceled") /\
  (forall i, i ∈ invoices st -> i_status i = "unpaid" \/ i_status i = "canceled") /\
  (forall i b, i ∈ invoices st -> b ∈ bookings st -> i_booking_id i = b_id b ->
     (i_status i = "canceled" <-> b_status b = "canceled")).

(** The catalog and the settings are those [init_db] seeded. *)
Definition seeded (st : Store) : Prop :=
  services st = services init_store /\ settings st = settings init_store.

Record consistent (st : Store) : Prop := {
  consistent_ids : unique_ids st;
  consistent_refs : referential_integrity st;
  consistent_items : items_sound st;
  consistent_invoices : invoices_sound st;
  consistent_numbers : numbered st;
  consistent_statuses : statuses_sound st;
  consistent_seed : seeded st }.

(** One POST request that completes. *)
Definition post_step (st st' : Store) : Prop :=
  exists clk path fields resp, do_POST clk path fields st = Ok (st', resp).

(** A booking and an invoice without their status. *)
Definition booking_core (b : Booking) : Z * Z * Z * string * string :=
  (b_id b, b_customer_id b, b_vehicle_id b, booking_date b, notes b).

Definition invoice_core (i : Invoice)
  : Z * Z * string * string * float * float * float :=
  (i_id i, i_booking_id i, invoice_number i, issue_date i,
   total_ex_vat i, total_vat i, total_inc i).

(** The store keeps what it held: the rows of [st] are still in [st'], at
    their place and as they were, but for a status that went to
    canceled. *)
Definition keeps (st st' : Store) : Prop :=
  customers st `prefix_of` customers st' /\
  vehicles st `prefix_of` vehicles st' /\
  services st' = services st /\
  settings st' = settings st /\
  booking_items st `prefix_of` booking_items st' /\
  misc_items st `prefix_of` misc_items st' /\
  (forall k b, bookings st !! k = Some b ->
     exists b', bookings st' !! k = Some b' /\
                booking_core b' = booking_core b /\
                (b_status b' = b_status b \/ b_status b' = "canceled")) /\
  (forall k i, invoices st !! k = Some i ->
     exists i', invoices st' !! k = Some i' /\
                invoice_core i' = invoice_core i /\
                (i_status i' = i_status i \/ i_status i' = "canceled")).

(** The calendar date an ISO date string names, year 1 January 1 for a
    string that names none. *)
Definition date_of_iso (s : string) : Date.date :=
  match Date.strptime_Ymd s with
  | Ok d => d
  | Raised _ => Date.mk 1 1 1
  end.

(** The quantity of a line is in the range of a [float]. *)
Definition convertible (l : Line) : Prop :=
  is_ok (Num.float_of_int l.1.1) = true.

(** The lines a submission asks for: catalog lines, then custom lines. *)
(** A line an INSERT accepts: a quantity within the range of an SQLite
    integer, a price and a VAT rate that are numbers. *)
Definition storable (l : Line) : bool :=
  Sql.in_range l.1.1 && negb (PrimFloat.is_nan l.1.2) && negb (PrimFloat.is_nan l.2).

Definition requested_lines (fields : Fields) (st : Store) : list Line :=
  (snd <$> catalog_rows fields (services st)) ++ (snd <$> custom_rows fields).

(** The store after the two updates of [process_cancel_booking]. *)
Definition canceled (booking_id : Z) (st : Store) : Store :=
  update_invoice_status "canceled" booking_id
    (update_booking_status "canceled" booking_id st).

(** The row of the invoice page for a line item whose quantity is in
    the range of a [float]. *)
Definition invoice_line (item : string * string * Z * float * float) : InvoiceLine :=
  let '(name, desc, qty, unit_price, vat_rate) := item in
  let total_ex := (Num.to_float qty * unit_price)%float in
  let vat := (total_ex * vat_rate)%float in
  {| l_name := name; l_qty := qty; l_unit_price := unit_price;
     line_total_ex := total_ex; line_vat := vat;
     line_total_inc := (total_ex + vat)%float |}.

(** The order of the invoice list: the later issue date first, and the
    larger id first among the invoices of one date. *)
Definition invoice_row_before (r1 r2 : InvoiceListRow) : Prop :=
  Is_true (desc_key_id (il_issue_date r1) (il_inv_id r1)
                       (il_issue_date r2) (il_inv_id r2)).

(** The order of the booking list: the later booking date first, and the
    larger id first among the bookings of one date. *)
Definition booking_row_before (r1 r2 : BookingListRow) : Prop :=
  Is_true (desc_key_id (bl_date r1) (bl_id r1) (bl_date r2) (bl_id r2)).

(** The rows of a table carry the ids 1, 2, 3, ... in the order they
    were inserted. *)
Definition numbered_from_1 {A : Type} (id : A -> Z) (rows : list A) : Prop :=
  forall k x, rows !! k = Some x -> id x = Z.of_nat k + 1.

Definition sequential (st : Store) : Prop :=
  numbered_from_1 c_id (customers st) /\
  numbered_from_1 v_id (vehicles st) /\
  numbered_from_1 s_id (services st) /\
  numbered_from_1 b_id (bookings st) /\
  numbered_from_1 bi_id (booking_items st) /\
  numbered_from_1 mi_id (misc_items st) /\
  numbered_from_1 i_id (invoices st).

(* ===================================================================== *)
(** * Sanity checks of the embedding *)
(* ===================================================================== *)

Example py_int_ex1 : Num.py_int " 12 " = Ok 12. Proof. reflexivity. Qed.
Example py_int_ex2 : Num.py_int "-1_000" = Ok (-1000). Proof. reflexivity. Qed.
Example py_int_ex3 : Num.py_int "1__0" = Raised ValueError. Proof. reflexivity. Qed.
Example py_int_ex4 : Num.py_int "" = Raised ValueError. Proof. reflexivity. Qed.
Example py_int_ex5 : Num.py_int "2.0" = Raised ValueError. Proof. reflexivity. Qed.
Example py_float_ex1 : Num.py_float "50" = Ok 50%float. Proof. reflexivity. Qed.
Example py_float_ex2 : Num.py_float "0.2" = Ok 0.2%float. Proof. reflexivity. Qed.
Example py_float_ex3 : Num.py_float "54.85" = Ok 54.85%float. Proof. reflexivity. Qed.
Example py_float_ex4 : Num.py_float "" = Raised ValueError. Proof. reflexivity. Qed.
Example py_float_ex5 : Num.py_float "1e3" = Ok 1000%float. Proof. reflexivity. Qed.
Example py_float_ex6 : Num.py_float "abc" = Raised ValueError. Proof. reflexivity. Qed.
Example fmt_ex1 : Str.fmt_0d 3 7 = "007". Proof. reflexivity. Qed.
Example fmt_ex2 : Str.fmt_0d 3 1000 = "1000". Proof. reflexivity. Qed.
Example fmt_ex3 : Str.fmt_0d 3 (-5) = "-05". Proof. reflexivity. Qed.
Example strptime_ex1 : Date.strptime_Ymd "2025-01-05" = Ok (Date.mk 2025 1 5).
Proof. reflexivity. Qed.
Example strptime_ex2 : Date.strptime_Ymd "2025-02-30" = Raised ValueError.
Proof. reflexivity. Qed.
Example strptime_ex3 : Date.strptime_Ymd "05/01/2025" = Raised ValueError.
Proof. reflexivity. Qed.
Example strptime_ex4 : Date.strptime_Ymd "2024-02-29" = Ok (Date.mk 2024 2 29).
Proof. reflexivity. Qed.
Example strptime_ex5 : Date.strptime_Ymd "2025-12-31x" = Raised ValueError.
Proof. reflexivity. Qed.
Example isoformat_ex1 : Date.isoformat (Date.mk 2025 1 5) = "2025-01-05".
Proof. reflexivity. Qed.
Example add_days_ex1 :
  Date.add_days (Date.mk 2025 1 20) 14 = Ok (Date.mk 2025 2 3).
Proof. reflexivity. Qed.
Example add_days_ex2 :
  Date.add_days (Date.mk 2025 1 20) 360 = Ok (Date.mk 2026 1 15).
Proof. reflexivity. Qed.
Example add_days_ex3 :
  Date.add_days (Date.mk 9999 12 31) 1 = Raised OverflowError.
Proof. reflexivity. Qed.
Example next_invoice_number_fresh :
  next_invoice_number (Date.mk 2025 1 15) init_store = "INV20250115-001".
Proof. reflexivity. Qed.
Example fmt_2f_ex1 : fmt_2f 54.85 = "54.85". Proof. reflexivity. Qed.
Example fmt_2f_ex2 : fmt_2f 0.125 = "0.12". Proof. reflexivity. Qed.
Example fmt_2f_ex3 : fmt_2f 2.675 = "2.67". Proof. reflexivity. Qed.
Example fmt_2f_ex4 : fmt_2f (-0.001) = "-0.00". Proof. reflexivity. Qed.
Example fmt_2f_ex5 : fmt_2f 480 = "480.00". Proof. reflexivity. Qed.
Example int_of_float_ex1 : int_of_float (0.2 * 100) = Ok 20. Proof. reflexivity. Qed.
Example int_of_float_ex2 : int_of_float (0.29 * 100) = Ok 28. Proof. reflexivity. Qed.
Example int_of_float_ex3 : int_of_float (-3.7) = Ok (-3). Proof. reflexivity. Qed.
Example int_of_float_ex4 : int_of_float nan = Raised ValueError. Proof. reflexivity. Qed.
Example str_split_ex1 : str_split "/" "/invoice/12" = [""; "invoice"; "12"].
Proof. reflexivity. Qed.
Example str_split_ex2 : str_split "/" "" = [""]. Proof. reflexivity. Qed.
Example str_split_ex3 : last_piece "/" "/invoice/12/" = "". Proof. reflexivity. Qed.
Example do_GET_ex1 :
  do_GET "/nowhere" init_store = Ok (Plain (Send_Error 404 "Page not found")).
Proof. reflexivity. Qed.
Example do_GET_ex2 :
  do_GET "/invoice/x" init_store = Ok (Plain (Send_Error 404 "Invoice not found")).
Proof. reflexivity. Qed.
Example do_GET_ex3 :
  do_GET "/static/style.css" init_store = Ok (Static_File "/static/style.css").
Proof. reflexivity. Qed.
Example py_int_ex6 : Num.py_int (String (ascii_of_N 11) "7") = Ok 7.
Proof. reflexivity. Qed.
Example py_int_ex7 : Num.py_int (String (ascii_of_N 31) "7") = Raised ValueError.
Proof. reflexivity. Qed.
Example py_float_ex7 :
  Num.py_float ("50" +:+ String (ascii_of_N 28) "") = Raised ValueError.
Proof. reflexivity. Qed.
Example strip_ex1 : Str.strip (String (ascii_of_N 31) "7 ") = "7".
Proof. reflexivity. Qed.
Example integer_ex1 : Sql.integer (2 ^ 63 - 1) = Ok 9223372036854775807.
Proof. reflexivity. Qed.
Example integer_ex2 : Sql.integer (2 ^ 63) = Raised OverflowError.
Proof. reflexivity. Qed.
Example real_not_null_ex1 : Sql.real_not_null nan = Raised IntegrityError.
Proof. reflexivity. Qed.
Example real_not_null_ex2 : Sql.real_not_null infinity = Ok infinity.
Proof. reflexivity. Qed.
Example process_new_booking_ex1 :
  process_new_booking clock_2025_01_15
    (fields_of_pairs [("custom_name_1", "Part"); ("custom_qty_1", "1");
                      ("custom_price_1", "inf"); ("custom_vat_1", "-1")])
    init_store = Raised IntegrityError.
Proof. by vm_compute. Qed.
Example process_new_booking_ex2 :
  process_new_booking clock_2025_01_15
    (fields_of_pairs [("custom_name_1", "Part"); ("custom_qty_1", "1");
                      ("custom_price_1", "5"); ("custom_vat_1", "nan")])
    init_store = Raised IntegrityError.
Proof. by vm_compute. Qed.
Example handle_invoice_ex1 :
  handle_invoice (2 ^ 63) init_store = Raised OverflowError.
Proof. reflexivity. Qed.

(* ===================================================================== *)
(** * Lemmas: strings and decimal numerals *)
(* ===================================================================== *)

Lemma string_app_cons (x : ascii) (a b : string) :
  String x a +:+ b = String x (a +:+ b).
Proof. reflexivity. Qed.

Lemma string_app_nil_l (a : string) : "" +:+ a = a.
Proof. reflexivity. Qed.

Lemma string_app_assoc (a b c : string) : (a +:+ b) +:+ c = a +:+ (b +:+ c).
Proof.
  induction a as [|x a IH]; [done |].
  by rewrite !string_app_cons, IH.
Qed.

Lemma string_app_nil_r (a : string) : a +:+ "" = a.
Proof.
  induction a as [|x a IH]; [done |].
  by rewrite string_app_cons, IH.
Qed.

Lemma string_app_length (a b : string) :
  String.length (a +:+ b) = (String.length a + String.length b)%nat.
Proof.
  induction a as [|x a IH]; [done |].
  rewrite string_app_cons. simpl. by rewrite IH.
Qed.

Lemma string_app_inj_length (a b c d : string) :
  String.length a = String.length b ->
  a +:+ c = b +:+ d -> a = b /\ c = d.
Proof.
  revert b. induction a as [|x a IH]; intros [|y b] Hlen Heq;
    simpl in Hlen; try discriminate.
  - done.
  - rewrite !string_app_cons in Heq. injection Heq as -> Heq.
    destruct (IH b) as [-> ->]; [lia | done | done].
Qed.

Lemma all_digits_app (a b : string) :
  all_digits (a +:+ b) = all_digits a && all_digits b.
Proof.
  unfold all_digits. induction a as [|x a IH]; [done |].
  rewrite string_app_cons. simpl. by rewrite IH, andb_assoc.
Qed.

Lemma zeros_length (k : nat) : String.length (Str.zeros k) = k.
Proof. induction k; simpl; congruence. Qed.

Lemma zeros_digits (k : nat) : all_digits (Str.zeros k) = true.
Proof. induction k; [done | exact IHk]. Qed.

Lemma dec_value_go_app (acc : N) (a b : string) :
  dec_value_go acc (a +:+ b) = dec_value_go (dec_value_go acc a) b.
Proof.
  revert acc. induction a as [|x a IH]; intros acc; [done |].
  rewrite string_app_cons. simpl. apply IH.
Qed.

Lemma dec_value_zeros (k : nat) (s : string) :
  dec_value (Str.zeros k +:+ s) = dec_value s.
Proof.
  unfold dec_value. induction k as [|k IH]; [done |].
  simpl Str.zeros. rewrite string_app_cons. exact IH.
Qed.

Lemma pretty_N_char_digit (x : N) :
  (x < 10)%N ->
  Str.is_digit (pretty_N_char x) = true /\ Str.digit_val (pretty_N_char x) = x.
Proof.
  intros Hx.
  assert (x = 0 \/ x = 1 \/ x = 2 \/ x = 3 \/ x = 4 \/ x = 5 \/ x = 6
          \/ x = 7 \/ x = 8 \/ x = 9)%N as Hc by lia.
  repeat (destruct Hc as [-> | Hc]; [by vm_compute |]). subst x. by vm_compute.
Qed.

(** The digits of [x] are written in front of the accumulator. *)
Lemma pretty_N_go_app (x : N) (s : string) :
  pretty_N_go x s = pretty_N_go x "" +:+ s.
Proof.
  revert s. induction (N.lt_wf_0 x) as [x _ IH]; intros s.
  destruct (decide (x = 0%N)) as [-> | Hx]; [done |].
  rewrite (pretty_N_go_step x s), (pretty_N_go_step x "") by lia.
  assert (x `div` 10 < x)%N as Hlt by (apply N.div_lt; lia).
  rewrite (IH _ Hlt (String _ s)), (IH _ Hlt (String _ "")).
  by rewrite string_app_assoc.
Qed.

Lemma pretty_N_go_snoc (x : N) :
  (0 < x)%N ->
  pretty_N_go x "" =
  pretty_N_go (x `div` 10)%N "" +:+ String (pretty_N_char (x `mod` 10)%N) "".
Proof. intros Hx. rewrite pretty_N_go_step by done. apply pretty_N_go_app. Qed.

Lemma pretty_N_go_digits (x : N) : all_digits (pretty_N_go x "") = true.
Proof.
  induction (N.lt_wf_0 x) as [x _ IH].
  destruct (decide (x = 0%N)) as [-> | Hx]; [done |].
  rewrite pretty_N_go_snoc, all_digits_app by lia.
  rewrite IH by (apply N.div_lt; lia). simpl.
  unfold all_digits. simpl.
  destruct (pretty_N_char_digit (x `mod` 10)%N) as [-> _]; [|done].
  apply N.mod_lt. lia.
Qed.

Lemma pretty_N_go_value (x : N) : dec_value (pretty_N_go x "") = x.
Proof.
  unfold dec_value. induction (N.lt_wf_0 x) as [x _ IH].
  destruct (decide (x = 0%N)) as [-> | Hx]; [done |].
  rewrite pretty_N_go_snoc, dec_value_go_app by lia.
  rewrite IH by (apply N.div_lt; lia). simpl.
  destruct (pretty_N_char_digit (x `mod` 10)%N) as [_ ->].
  { apply N.mod_lt. lia. }
  pose proof (N.div_mod x 10). lia.
Qed.

Lemma pretty_N_go_length (k : nat) (x : N) :
  (x < 10 ^ N.of_nat k)%N -> (String.length (pretty_N_go x "") <= k)%nat.
Proof.
  revert x. induction k as [|k IH]; intros x Hx.
  - assert (x = 0%N) as -> by (simpl in Hx; lia). done.
  - destruct (decide (x = 0%N)) as [-> | Hx0]; [simpl; lia |].
    rewrite pretty_N_go_snoc, string_app_length by lia. simpl.
    assert (x `div` 10 < 10 ^ N.of_nat k)%N as Hd.
    { apply N.Div0.div_lt_upper_bound.
      replace (N.of_nat (S k)) with (N.succ (N.of_nat k)) in Hx by lia.
      by rewrite N.pow_succ_r' in Hx. }
    specialize (IH _ Hd). lia.
Qed.

Lemma pretty_N_digits (n : N) : all_digits (pretty n) = true.
Proof.
  unfold pretty, pretty_N. case_decide; [done | apply pretty_N_go_digits].
Qed.

Lemma pretty_N_value (n : N) : dec_value (pretty n) = n.
Proof.
  unfold pretty, pretty_N. case_decide; [by subst | apply pretty_N_go_value].
Qed.

Lemma pretty_N_length (k : nat) (n : N) :
  (n < 10 ^ N.of_nat (S k))%N -> (String.length (pretty n) <= S k)%nat.
Proof.
  intros Hn. unfold pretty, pretty_N.
  case_decide; [simpl; lia | by apply pretty_N_go_length].
Qed.

Lemma pretty_N_nonempty (n : N) : (1 <= String.length (pretty n))%nat.
Proof.
  unfold pretty, pretty_N. case_decide; [simpl; lia |].
  rewrite pretty_N_go_snoc, string_app_length by lia. simpl. lia.
Qed.

(** ** The format [0{w}d] on non-negative integers *)

Lemma fmt_0d_nonneg (w : nat) (n : Z) :
  0 <= n ->
  Str.fmt_0d w n =
  Str.zeros (w - String.length (pretty (Z.to_N n))) +:+ pretty (Z.to_N n).
Proof.
  intros Hn. unfold Str.fmt_0d.
  destruct (Z.ltb_spec n 0) as [?|_]; [lia |].
  by replace (Z.abs_N n) with (Z.to_N n) by lia.
Qed.

Lemma fmt_0d_digits (w : nat) (n : Z) :
  0 <= n -> all_digits (Str.fmt_0d w n) = true.
Proof.
  intros Hn. rewrite fmt_0d_nonneg, all_digits_app by done.
  by rewrite zeros_digits, pretty_N_digits.
Qed.

Lemma fmt_0d_value (w : nat) (n : Z) :
  0 <= n -> Z.of_N (dec_value (Str.fmt_0d w n)) = n.
Proof.
  intros Hn. rewrite fmt_0d_nonneg, dec_value_zeros, pretty_N_value by done. lia.
Qed.

Lemma fmt_0d_length_ge (w : nat) (n : Z) :
  0 <= n -> (w <= String.length (Str.fmt_0d w n))%nat.
Proof.
  intros Hn. rewrite fmt_0d_nonneg, string_app_length, zeros_length by done. lia.
Qed.

Lemma fmt_0d_length (w : nat) (n : Z) :
  0 <= n < 10 ^ Z.of_nat (S w) ->
  String.length (Str.fmt_0d (S w) n) = S w.
Proof.
  intros [Hn Hlt]. rewrite fmt_0d_nonneg, string_app_length, zeros_length by done.
  assert (String.length (pretty (Z.to_N n)) <= S w)%nat; [|lia].
  apply pretty_N_length.
  apply N2Z.inj_lt. rewrite N2Z.inj_pow, Z2N.id by done.
  by rewrite nat_N_Z.
Qed.

Lemma fmt_0d_inj (w : nat) (n m : Z) :
  0 <= n -> 0 <= m -> Str.fmt_0d w n = Str.fmt_0d w m -> n = m.
Proof.
  intros Hn Hm Heq.
  rewrite <- (fmt_0d_value w n), <- (fmt_0d_value w m) by done.
  by rewrite Heq.
Qed.

(* ===================================================================== *)
(** * Lemmas: the calendar *)
(* ===================================================================== *)

Lemma month_cases (m : Z) :
  1 <= m <= 12 ->
  m = 1 \/ m = 2 \/ m = 3 \/ m = 4 \/ m = 5 \/ m = 6 \/
  m = 7 \/ m = 8 \/ m = 9 \/ m = 10 \/ m = 11 \/ m = 12.
Proof. lia. Qed.

Ltac split_month H :=
  apply month_cases in H;
  repeat (destruct H as [H | H]).

Ltac bool_cases :=
  repeat match goal with
    | |- context [Z.eqb ?a ?b] => destruct (Z.eqb_spec a b)
    | |- context [Z.ltb ?a ?b] => destruct (Z.ltb_spec a b)
    | |- context [Z.leb ?a ?b] => destruct (Z.leb_spec a b)
    end.

Lemma days_before_year_cycles (a b c e : Z) :
  0 <= a -> 0 <= b < 4 -> 0 <= c < 25 -> 0 <= e < 4 ->
  Date._days_before_year (cycles_year a b c e) =
  146097 * a + 36524 * b + 1461 * c + 365 * e.
Proof.
  intros. unfold Date._days_before_year, cycles_year.
  Z.div_mod_to_equations. lia.
Qed.

Lemma is_leap_cycles (a b c e : Z) :
  0 <= a -> 0 <= b < 4 -> 0 <= c < 25 -> 0 <= e < 4 ->
  Date._is_leap (cycles_year a b c e) = cycles_leap b c e.
Proof.
  intros. unfold Date._is_leap, cycles_leap, cycles_year.
  bool_cases; simpl; try done; exfalso; Z.div_mod_to_equations; lia.
Qed.

Ltac tables :=
  repeat match goal with
    | |- context [Date._DAYS_IN_MONTH ?m] =>
        let v := eval vm_compute in (Date._DAYS_IN_MONTH m) in
        change (Date._DAYS_IN_MONTH m) with v
    | |- context [Date._DAYS_BEFORE_MONTH ?m] =>
        let v := eval vm_compute in (Date._DAYS_BEFORE_MONTH m) in
        change (Date._DAYS_BEFORE_MONTH m) with v
    end.

(** [_ord2ymd] inverts [_ymd2ord] on the ordinals of the years 1 to 9999. *)
Lemma ord2ymd_valid_toordinal (n : Z) :
  1 <= n <= Date._MAXORDINAL ->
  Date.valid (Date._ord2ymd n) = true /\ Date.toordinal (Date._ord2ymd n) = n.
Proof.
  intros Hn. unfold Date._MAXORDINAL in Hn.
  unfold Date._ord2ymd, Date._DI400Y, Date._DI100Y, Date._DI4Y.
  rewrite Z.shiftr_div_pow2 by lia. change (2 ^ 5) with 32.
  set (n0 := n - 1).
  set (n400 := n0 / 146097). set (r400 := n0 mod 146097).
  set (n100 := r400 / 36524). set (r100 := r400 mod 36524).
  set (n4 := r100 / 1461). set (r4 := r100 mod 1461).
  set (n1 := r4 / 365). set (r1 := r4 mod 365).
  set (month := (r1 + 50) / 32).
  assert (0 <= n400 <= 24 /\ n0 = 146097 * n400 + r400 /\ 0 <= r400 < 146097)
    as (H400 & E400 & B400)
    by (subst n400 r400 n0; Z.div_mod_to_equations; lia).
  assert (0 <= n100 <= 4 /\ r400 = 36524 * n100 + r100 /\ 0 <= r100 < 36524)
    as (H100 & E100 & B100)
    by (subst n100 r100; Z.div_mod_to_equations; lia).
  assert (0 <= n4 <= 24 /\ r100 = 1461 * n4 + r4 /\ 0 <= r4 < 1461)
    as (H4 & E4 & B4)
    by (subst n4 r4; Z.div_mod_to_equations; lia).
  assert (0 <= n1 <= 4 /\ r4 = 365 * n1 + r1 /\ 0 <= r1 < 365)
    as (H1 & E1 & B1)
    by (subst n1 r1; Z.div_mod_to_equations; lia).
  assert (1 <= month <= 12 /\ 32 * month <= r1 + 50 < 32 * month + 32)
    as (Hm & Em)
    by (subst month; Z.div_mod_to_equations; lia).
  assert (n = n0 + 1) as En by (subst n0; lia).
  clearbody n0 n400 r400 n100 r100 n4 r4 n1 r1 month.
  unfold Date.valid, Date.toordinal, Date._ymd2ord,
    Date._days_before_month, Date._days_in_month.
  destruct ((n1 =? 4) || (n100 =? 4)) eqn:Hend; cbn [Date.year Date.month Date.day].
  - assert (n1 = 4 /\ n100 < 4 /\ n4 < 24 /\ r1 = 0 \/
            n100 = 4 /\ n4 = 0 /\ n1 = 0 /\ r1 = 0) as Hc by lia.
    assert (exists b c,
               n400 * 400 + 1 + (n100 * 100 + n4 * 4 + n1) - 1
               = cycles_year n400 b c 3 /\
               0 <= b < 4 /\ 0 <= c < 25 /\ cycles_leap b c 3 = true /\
               n = 146097 * n400 + 36524 * b + 1461 * c + 365 * 3 + 366)
      as (b & c & -> & Hb & Hc' & Hlp & ->).
    { destruct Hc as [(-> & ? & ? & ->) | (-> & -> & -> & ->)].
      - exists n100, n4. unfold cycles_year, cycles_leap.
        repeat split; try lia; bool_cases; simpl; lia.
      - exists 3, 24. unfold cycles_year, cycles_leap. repeat split; lia. }
    rewrite days_before_year_cycles, is_leap_cycles, Hlp by lia.
    unfold cycles_year. simpl. split; [rewrite !andb_true_iff, !Z.leb_le; lia | lia].
  - assert (n1 < 4 /\ n100 < 4) as [? ?] by lia.
    replace (n400 * 400 + 1 + (n100 * 100 + n4 * 4 + n1))
      with (cycles_year n400 n100 n4 n1) by (unfold cycles_year; lia).
    assert (1 <= cycles_year n400 n100 n4 n1 <= 9999) as Hy
      by (unfold cycles_year; lia).
    change ((n1 =? 3) && (negb (n4 =? 24) || (n100 =? 3)))
      with (cycles_leap n100 n4 n1).
    destruct (cycles_leap n100 n4 n1) eqn:Hlp;
      split_month Hm; subst month; cbn [Date._DAYS_BEFORE_MONTH andb Z.ltb Z.compare Pos.compare Pos.compare_cont];
      repeat match goal with
        | |- context [if ?n <? ?p then _ else _] => destruct (Z.ltb_spec n p)
        end;
      cbn [Date.year Date.month Date.day];
      rewrite days_before_year_cycles, is_leap_cycles, Hlp by lia;
      tables;
      simpl; (split; [rewrite !andb_true_iff, !Z.leb_le; lia | lia]).
Qed.

Lemma days_before_year_succ (y : Z) :
  Date._days_before_year (y + 1) =
  Date._days_before_year y + (if Date._is_leap y then 366 else 365).
Proof.
  unfold Date._days_before_year, Date._is_leap.
  bool_cases; simpl; Z.div_mod_to_equations; lia.
Qed.

Lemma days_before_year_mono (y y' : Z) :
  y <= y' -> Date._days_before_year y <= Date._days_before_year y'.
Proof.
  intros. unfold Date._days_before_year. Z.div_mod_to_equations. lia.
Qed.

(** What [Date.valid] says, as inequalities. *)
Lemma valid_bounds (d : Date.date) :
  Date.valid d = true <->
  1 <= Date.year d <= 9999 /\ 1 <= Date.month d <= 12 /\
  1 <= Date.day d <= Date._days_in_month (Date.year d) (Date.month d).
Proof. unfold Date.valid. rewrite !andb_true_iff, !Z.leb_le. lia. Qed.

(** The day of the year lies within the year. *)
Lemma day_of_year_bounds (y m d : Z) :
  1 <= m <= 12 -> 1 <= d <= Date._days_in_month y m ->
  1 <= Date._days_before_month y m + d <= (if Date._is_leap y then 366 else 365).
Proof.
  intros Hm Hd. unfold Date._days_before_month, Date._days_in_month in *.
  destruct (Date._is_leap y); split_month Hm; subst m; simpl in *; lia.
Qed.

Lemma toordinal_bounds (d : Date.date) :
  Date.valid d = true -> 1 <= Date.toordinal d <= Date._MAXORDINAL.
Proof.
  intros (Hy & Hm & Hd)%valid_bounds. unfold Date.toordinal, Date._ymd2ord.
  pose proof (day_of_year_bounds _ _ _ Hm Hd) as Hdoy.
  pose proof (days_before_year_succ (Date.year d)) as Hs.
  pose proof (days_before_year_mono 1 (Date.year d) ltac:(lia)) as H1.
  pose proof (days_before_year_mono (Date.year d + 1) 10000 ltac:(lia)) as H2.
  change (Date._days_before_year 1) with 0 in H1.
  change (Date._days_before_year 10000) with 3652059 in H2.
  unfold Date._MAXORDINAL. destruct (Date._is_leap (Date.year d)); lia.
Qed.

(** Two dates of the calendar with the same ordinal are the same date. *)
Lemma toordinal_inj (d1 d2 : Date.date) :
  Date.valid d1 = true -> Date.valid d2 = true ->
  Date.toordinal d1 = Date.toordinal d2 -> d1 = d2.
Proof.
  destruct d1 as [y1 m1 dd1], d2 as [y2 m2 dd2].
  intros (Hy1 & Hm1 & Hd1)%valid_bounds (Hy2 & Hm2 & Hd2)%valid_bounds.
  unfold Date.toordinal, Date._ymd2ord. simpl in *. intros Heq.
  pose proof (day_of_year_bounds _ _ _ Hm1 Hd1) as B1.
  pose proof (day_of_year_bounds _ _ _ Hm2 Hd2) as B2.
  assert (y1 = y2) as ->.
  { pose proof (days_before_year_succ y1) as S1.
    pose proof (days_before_year_succ y2) as S2.
    destruct (Z.lt_trichotomy y1 y2) as [Hlt | [-> | Hlt]]; [|done|].
    - pose proof (days_before_year_mono (y1 + 1) y2 ltac:(lia)).
      destruct (Date._is_leap y1); lia.
    - pose proof (days_before_year_mono (y2 + 1) y1 ltac:(lia)).
      destruct (Date._is_leap y2); lia. }
  assert (m1 = m2 /\ dd1 = dd2) as [-> ->]; [|done].
  clear B1 B2. unfold Date._days_before_month, Date._days_in_month in *.
  destruct (Date._is_leap y2);
    split_month Hm1; subst m1; split_month Hm2; subst m2; simpl in *; lia.
Qed.

Lemma ord2ymd_toordinal (d : Date.date) :
  Date.valid d = true -> Date._ord2ymd (Date.toordinal d) = d.
Proof.
  intros Hv.
  destruct (ord2ymd_valid_toordinal (Date.toordinal d)) as [Hv' Ho].
  { by apply toordinal_bounds. }
  by apply toordinal_inj.
Qed.

(** ** The next day *)

Lemma next_day_toordinal (d : Date.date) :
  Date.valid d = true -> Date.toordinal (next_day d) = Date.toordinal d + 1.
Proof.
  destruct d as [y m dd]. intros (Hy & Hm & Hd)%valid_bounds.
  unfold next_day, Date.toordinal, Date._ymd2ord. simpl in *.
  destruct (Z.ltb_spec dd (Date._days_in_month y m)) as [Hlt | Hge]; simpl; [lia |].
  destruct (Z.ltb_spec m 12) as [Hm12 | Hm12]; simpl.
  - unfold Date._days_before_month, Date._days_in_month in *.
    destruct (Date._is_leap y);
      split_month Hm; subst m; simpl in *; lia.
  - assert (m = 12) as -> by lia.
    rewrite days_before_year_succ.
    unfold Date._days_before_month, Date._days_in_month in *.
    destruct (Date._is_leap y), (Date._is_leap (y + 1)); simpl in *; lia.
Qed.

Lemma next_day_valid (d : Date.date) :
  Date.valid d = true -> Date.toordinal d < Date._MAXORDINAL ->
  Date.valid (next_day d) = true.
Proof.
  destruct d as [y m dd]. intros (Hy & Hm & Hd)%valid_bounds Hlast.
  apply valid_bounds. revert Hlast.
  unfold next_day, Date.toordinal, Date._ymd2ord, Date._MAXORDINAL. simpl in *.
  destruct (Z.ltb_spec dd (Date._days_in_month y m)) as [Hlt | Hge]; simpl; [lia |].
  destruct (Z.ltb_spec m 12) as [Hm12 | Hm12]; simpl.
  - intros _. unfold Date._days_in_month.
    destruct ((m + 1 =? 2) && Date._is_leap y);
      split_month Hm; subst m; simpl; lia.
  - assert (m = 12) as -> by lia. intros Hlast.
    assert (y <> 9999).
    { intros ->. revert Hlast Hd Hge.
      change (Date._days_before_year 9999) with 3651694.
      change (Date._days_before_month 9999 12) with 334.
      change (Date._days_in_month 9999 12) with 31. lia. }
    unfold Date._days_in_month. simpl. lia.
Qed.

Lemma iter_next_day (k : nat) (d : Date.date) :
  Date.valid d = true ->
  Date.toordinal d + Z.of_nat k <= Date._MAXORDINAL ->
  Date.valid (Nat.iter k next_day d) = true /\
  Date.toordinal (Nat.iter k next_day d) = Date.toordinal d + Z.of_nat k.
Proof.
  intros Hv. induction k as [|k IH]; intros Hk.
  - simpl. split; [done | lia].
  - destruct IH as [IHv IHo]; [lia |]. simpl.
    split.
    + apply next_day_valid; [done | lia].
    + rewrite next_day_toordinal by done. lia.
Qed.

(** [Date.add_days] counts calendar days. *)
Lemma add_days_spec (d d' : Date.date) (n : Z) :
  Date.valid d = true ->
  Date.add_days d n = Ok d' ->
  Date.valid d' = true /\
  Date.toordinal d' = Date.toordinal d + n /\
  plus_days d n d'.
Proof.
  intros Hv. unfold Date.add_days.
  destruct (999999999 <? Z.abs n); [done |].
  destruct ((0 <? Date.toordinal d + n) && (Date.toordinal d + n <=? Date._MAXORDINAL))
    eqn:Hrange; [|done].
  apply andb_true_iff in Hrange as [Hlo%Z.ltb_lt Hhi%Z.leb_le].
  intros [= <-].
  destruct (ord2ymd_valid_toordinal (Date.toordinal d + n)) as [Hv' Ho]; [lia |].
  split; [done |]. split; [done |].
  pose proof (toordinal_bounds d Hv) as Hb.
  unfold plus_days. destruct (Z.leb_spec 0 n) as [Hn | Hn].
  - destruct (iter_next_day (Z.to_nat n) d Hv) as [Hiv Hio]; [lia |].
    apply toordinal_inj; [done | done |]. rewrite Ho, Hio. lia.
  - destruct (iter_next_day (Z.to_nat (- n)) _ Hv') as [Hiv Hio]; [lia |].
    apply toordinal_inj; [done | done |]. rewrite Hio, Ho. lia.
Qed.

(* ===================================================================== *)
(** * Lemmas: exceptions and loops *)
(* ===================================================================== *)

Lemma bind_Ok {A B : Type} (r : result A) (k : A -> result B) (b : B) :
  r ≫= k = Ok b -> exists a, r = Ok a /\ k a = Ok b.
Proof. destruct r as [a|e]; [eauto | done]. Qed.

Lemma except_ValueError_Ok {A : Type} (r : result A) (d a : A) :
  except_ValueError r d = Ok a ->
  r = Ok a \/ (r = Raised ValueError /\ a = d).
Proof. destruct r as [x|[]]; simpl; intros [= <-]; auto. Qed.

Lemma py_int_raises (s : string) (e : exn) :
  Num.py_int s = Raised e -> e = ValueError.
Proof.
  unfold Num.py_int. destruct (Num.sign _) as [neg body].
  destruct (Num.digitpart body) as [[[n c] [|]]|]; congruence.
Qed.

Lemma py_float_raises (s : string) (e : exn) :
  Num.py_float s = Raised e -> e = ValueError.
Proof.
  unfold Num.py_float, Num.floatnumber.
  destruct (Num.sign _) as [neg body].
  repeat case_match; congruence.
Qed.

Lemma strptime_raises (s : string) (e : exn) :
  Date.strptime_Ymd s = Raised e -> e = ValueError.
Proof. unfold Date.strptime_Ymd. repeat case_match; congruence. Qed.

Lemma strptime_valid (s : string) (d : Date.date) :
  Date.strptime_Ymd s = Ok d -> Date.valid d = true.
Proof. unfold Date.strptime_Ymd. repeat case_match; congruence. Qed.

(** [int()] under [except ValueError] never raises. *)
Lemma py_int_default (s : string) (d : Z) :
  except_ValueError (Num.py_int s) d =
  Ok (match Num.py_int s with Ok n => n | Raised _ => d end).
Proof.
  destruct (Num.py_int s) as [n|e] eqn:E; [done |].
  by rewrite (py_int_raises _ _ E).
Qed.

Lemma py_float_default (s : string) (d : float) :
  except_ValueError (Num.py_float s) d =
  Ok (match Num.py_float s with Ok x => x | Raised _ => d end).
Proof.
  destruct (Num.py_float s) as [n|e] eqn:E; [done |].
  by rewrite (py_float_raises _ _ E).
Qed.

Lemma int_mul_float_Ok (q : Z) (p x : float) :
  Num.int_mul_float q p = Ok x -> x = (Num.to_float q * p)%float.
Proof.
  unfold Num.int_mul_float, Num.float_of_int.
  destruct (binary_normalize _ _ _ _ _); simpl; congruence.
Qed.

(** The booking date is computed without raising. *)
Lemma booking_date_of_total (clk : Clock) (fields : Fields) :
  booking_date_of clk fields =
  Ok (let date_str := Str.strip (field fields "booking_date" "") in
      if Str.truthy date_str && is_ok (Date.strptime_Ymd date_str)
      then date_str else Date.isoformat (today_booking_date clk)).
Proof.
  unfold booking_date_of. cbv zeta.
  destruct (Str.truthy _); [|done].
  destruct (Date.strptime_Ymd _) as [d|e] eqn:E; [done |].
  by rewrite (strptime_raises _ _ E).
Qed.

Lemma foldl_fadd_app (x : float) (l1 l2 : list float) :
  foldl PrimFloat.add x (l1 ++ l2) = foldl PrimFloat.add (foldl PrimFloat.add x l1) l2.
Proof. apply foldl_app. Qed.

(** ** What an INSERT checks *)

Lemma integer_Ok (n m : Z) :
  Sql.integer n = Ok m -> m = n /\ Sql.in_range n = true.
Proof. unfold Sql.integer. destruct (Sql.in_range n); [|done]. by intros [= <-]. Qed.



Lemma in_range_spec (n : Z) : Sql.in_range n = true <-> - 2 ^ 63 <= n < 2 ^ 63.
Proof. unfold Sql.in_range. rewrite andb_true_iff, Z.leb_le, Z.ltb_lt. lia. Qed.

Lemma row_id_Ok (n m : Z) (held : list Z) :
  Sql.row_id n held = Ok m -> m = n.
Proof. unfold Sql.row_id. destruct (_ || _); [|done]. by intros [= <-]. Qed.

Lemma row_id_in_range (n : Z) (held : list Z) :
  - 2 ^ 63 <= n < 2 ^ 63 -> Sql.row_id n held = Ok n.
Proof. intros H%in_range_spec. unfold Sql.row_id. by rewrite H. Qed.

Lemma row_id_held (n : Z) (held : list Z) :
  n ∈ held -> Sql.row_id n held = Ok n.
Proof.
  intros H. unfold Sql.row_id. rewrite (bool_decide_eq_true_2 _ H).
  by rewrite orb_true_r.
Qed.

Lemma row_id_raises (n : Z) (held : list Z) (e : exn) :
  Sql.row_id n held = Raised e ->
  e = OverflowError /\ ~ (- 2 ^ 63 <= n < 2 ^ 63) /\ n ∉ held.
Proof.
  unfold Sql.row_id. destruct (Sql.in_range n) eqn:Hr; [done |]. simpl.
  case_bool_decide as Hh; [done |]. intros [= <-]. split; [done |].
  split; [|done]. rewrite <- in_range_spec. congruence.
Qed.

Lemma real_not_null_Ok (x y : float) :
  Sql.real_not_null x = Ok y -> y = x /\ PrimFloat.is_nan x = false.
Proof.
  unfold Sql.real_not_null. destruct (PrimFloat.is_nan x); [done |]. by intros [= <-].
Qed.

Lemma real_not_null_number (x : float) :
  PrimFloat.is_nan x = false -> Sql.real_not_null x = Ok x.
Proof. unfold Sql.real_not_null. by intros ->. Qed.

Lemma real_not_null_nan (x : float) :
  PrimFloat.is_nan x = true -> Sql.real_not_null x = Raised IntegrityError.
Proof. unfold Sql.real_not_null. by intros ->. Qed.

(** ** Row ids *)

Lemma foldr_max_ge (b : Z) (ids : list Z) :
  b <= foldr Z.max b ids /\ forall x, x ∈ ids -> x <= foldr Z.max b ids.
Proof.
  induction ids as [|i ids [IHb IH]]; simpl.
  - split; [lia |]. intros x Hx. by apply elem_of_nil in Hx.
  - split; [lia |]. intros x [-> | Hx]%elem_of_cons; [lia |].
    specialize (IH x Hx). lia.
Qed.

Lemma next_rowid_fresh (ids : list Z) :
  1 <= next_rowid ids /\ forall x, x ∈ ids -> x < next_rowid ids.
Proof.
  unfold next_rowid. destruct (foldr_max_ge 0 ids) as [H0 H].
  split; [lia |]. intros x Hx. specialize (H x Hx). lia.
Qed.

Lemma foldr_max_base (b : Z) (ids : list Z) :
  0 <= b -> foldr Z.max b ids = Z.max b (foldr Z.max 0 ids).
Proof. intros Hb. induction ids as [|i ids IH]; simpl; lia. Qed.

(** ** The two line-item loops of [process_new_booking] *)

Lemma same_outside_items_refl (st : Store) : same_outside_items st st.
Proof. by repeat split. Qed.

Lemma same_outside_items_trans (st1 st2 st3 : Store) :
  same_outside_items st1 st2 -> same_outside_items st2 st3 ->
  same_outside_items st1 st3.
Proof.
  intros (?&?&?&?&?&?) (?&?&?&?&?&?). repeat split; congruence.
Qed.

(** What an INSERT accepts, and the row it appends. *)
Lemma insert_booking_item_Ok (r : Z -> BookingItem) (st st' : Store) (id : Z) :
  insert_booking_item r st = Ok (st', id) ->
  id = next_rowid (bi_id <$> booking_items st) /\
  booking_items st' = booking_items st ++ [r id] /\
  misc_items st' = misc_items st /\
  same_outside_items st st' /\
  Sql.in_range (bi_quantity (r id)) = true /\
  PrimFloat.is_nan (bi_unit_price (r id)) = false /\
  PrimFloat.is_nan (bi_vat_rate (r id)) = false.
Proof.
  unfold insert_booking_item. cbv zeta.
  intros (? & [_ Hq]%integer_Ok & H)%bind_Ok.
  apply bind_Ok in H as (? & [_ Hp]%real_not_null_Ok & H).
  apply bind_Ok in H as (? & [_ Hv]%real_not_null_Ok & H).
  injection H as <- <-. simpl. by repeat split.
Qed.

Lemma insert_misc_item_Ok (r : Z -> MiscItem) (st st' : Store) (id : Z) :
  insert_misc_item r st = Ok (st', id) ->
  id = next_rowid (mi_id <$> misc_items st) /\
  misc_items st' = misc_items st ++ [r id] /\
  booking_items st' = booking_items st /\
  same_outside_items st st' /\
  Sql.in_range (mi_quantity (r id)) = true /\
  PrimFloat.is_nan (mi_unit_price (r id)) = false /\
  PrimFloat.is_nan (mi_vat_rate (r id)) = false.
Proof.
  unfold insert_misc_item. cbv zeta.
  intros (? & [_ Hq]%integer_Ok & H)%bind_Ok.
  apply bind_Ok in H as (? & [_ Hp]%real_not_null_Ok & H).
  apply bind_Ok in H as (? & [_ Hv]%real_not_null_Ok & H).
  injection H as <- <-. simpl. by repeat split.
Qed.

Lemma insert_vehicle_Ok (r : Z -> Vehicle) (st st' : Store) (id : Z) :
  insert_vehicle r st = Ok (st', id) ->
  id = next_rowid (v_id <$> vehicles st) /\
  st' = {| customers := customers st; vehicles := vehicles st ++ [r id];
           services := services st; bookings := bookings st;
           booking_items := booking_items st; misc_items := misc_items st;
           invoices := invoices st; settings := settings st |} /\
  (forall n, mileage (r id) = Some n -> Sql.in_range n = true).
Proof.
  unfold insert_vehicle. cbv zeta.
  intros (? & Hm & H)%bind_Ok. injection H as <- <-.
  split; [done |]. split; [done |]. intros n Hn. rewrite Hn in Hm. simpl in Hm.
  apply bind_Ok in Hm as (? & [_ Hr]%integer_Ok & _). done.
Qed.

Lemma insert_invoice_Ok (r : Z -> Invoice) (st st' : Store) (id : Z) :
  insert_invoice r st = Ok (st', id) ->
  id = next_rowid (i_id <$> invoices st) /\
  st' = {| customers := customers st; vehicles := vehicles st;
           services := services st; bookings := bookings st;
           booking_items := booking_items st; misc_items := misc_items st;
           invoices := invoices st ++ [r id]; settings := settings st |} /\
  PrimFloat.is_nan (total_ex_vat (r id)) = false /\
  PrimFloat.is_nan (total_vat (r id)) = false /\
  PrimFloat.is_nan (total_inc (r id)) = false.
Proof.
  unfold insert_invoice. cbv zeta.
  intros (? & [_ H1]%real_not_null_Ok & H)%bind_Ok.
  apply bind_Ok in H as (? & [_ H2]%real_not_null_Ok & H).
  apply bind_Ok in H as (? & [_ H3]%real_not_null_Ok & H).
  injection H as <- <-. by repeat split.
Qed.

Lemma service_item_Ok (fields : Fields) (bid : Z) (t t' : Totals) (svc : Service) :
  service_item fields bid t svc = Ok t' ->
  let q := catalog_quantity fields svc in
  let l : Line := (q, s_unit_price svc, s_vat_rate svc) in
  if decide (0 < q) then
    exists bi,
      booking_items (tx t') = booking_items (tx t) ++ [bi] /\
      misc_items (tx t') = misc_items (tx t) /\
      same_outside_items (tx t) (tx t') /\
      bi_booking_id bi = bid /\
      booking_item_row bi = (s_id svc, l) /\
      acc_total_ex_vat t' = (acc_total_ex_vat t + line_ex l)%float /\
      acc_total_vat t' = (acc_total_vat t + line_vat_of l)%float
  else t' = t.
Proof.
  unfold service_item, catalog_quantity. cbv zeta.
  rewrite py_int_default. simpl.
  set (q := match Num.py_int _ with Ok n => n | Raised _ => 0 end).
  destruct (Z.ltb_spec 0 q) as [Hq | Hq].
  - rewrite decide_True by done.
    intros ([tx' id] & Hins & (x & Hx & [= <-])%bind_Ok)%bind_Ok.
    apply int_mul_float_Ok in Hx as ->.
    apply insert_booking_item_Ok in Hins as (-> & Hbi & Hmi & Hsame & _).
    eexists. simpl. split_and!; first [eassumption | reflexivity].
  - rewrite decide_False by lia. by intros [= <-].
Qed.

Lemma service_loop (fields : Fields) (bid : Z) (svcs : list Service) (t t' : Totals) :
  for_each (service_item fields bid) svcs t = Ok t' ->
  exists items,
    booking_items (tx t') = booking_items (tx t) ++ items /\
    misc_items (tx t') = misc_items (tx t) /\
    same_outside_items (tx t) (tx t') /\
    Forall (fun bi => bi_booking_id bi = bid) items /\
    booking_item_row <$> items = catalog_rows fields svcs /\
    acc_total_ex_vat t' =
      foldl PrimFloat.add (acc_total_ex_vat t) (line_ex ∘ snd <$> catalog_rows fields svcs) /\
    acc_total_vat t' =
      foldl PrimFloat.add (acc_total_vat t) (line_vat_of ∘ snd <$> catalog_rows fields svcs).
Proof.
  revert t. induction svcs as [|svc svcs IH]; intros t; simpl.
  - intros [= <-]. exists []. rewrite app_nil_r.
    split_and!; auto using same_outside_items_refl.
  - intros (t1 & Hstep & Hrest)%bind_Ok.
    apply service_item_Ok in Hstep. cbv zeta in Hstep.
    destruct (IH _ Hrest) as (items & Hbi & Hmi & Hsame & Hall & Hrows & Hex & Hvat).
    unfold catalog_rows in *. rewrite filter_cons.
    destruct (decide (0 < catalog_quantity fields svc)) as [Hq | Hq].
    + destruct Hstep as (bi & Hbi1 & Hmi1 & Hsame1 & Hbid & Hrow & Hex1 & Hvat1).
      exists (bi :: items). rewrite fmap_cons. simpl.
      rewrite Hbi, Hbi1, <- app_assoc, Hmi, Hmi1, Hrow, Hrows, Hex, Hvat, Hex1, Hvat1.
      split_and!; eauto using same_outside_items_trans.
    + subst t1. exists items. split_and!; auto.
Qed.



Lemma truthy_nonempty (s : string) : Str.truthy s = true <-> s <> "".
Proof. by destruct s. Qed.

Lemma custom_item_Ok (fields : Fields) (bid : Z) (t t' : Totals) (i : Z) :
  custom_item fields bid t i = Ok t' ->
  match custom_row fields i with
  | Some (name, l) =>
      exists mi,
        misc_items (tx t') = misc_items (tx t) ++ [mi] /\
        booking_items (tx t') = booking_items (tx t) /\
        same_outside_items (tx t) (tx t') /\
        mi_booking_id mi = bid /\
        misc_item_row mi = (name, l) /\
        acc_total_ex_vat t' = (acc_total_ex_vat t + line_ex l)%float /\
        acc_total_vat t' = (acc_total_vat t + line_vat_of l)%float
  | None => t' = t
  end.
Proof.
  unfold custom_item, custom_row. cbv zeta.
  set (name := Str.strip _).
  rewrite py_int_default, !py_float_default. simpl.
  set (q := match Num.py_int _ with Ok n => n | Raised _ => 0 end).
  set (p := match Num.py_float (field fields ("custom_price_" +:+ _) _) with
            | Ok x => x | Raised _ => _ end).
  set (v := match Num.py_float (field fields ("custom_vat_" +:+ _) _) with
            | Ok x => x | Raised _ => _ end).
  destruct (Str.truthy name) eqn:Hname; simpl.
  - apply truthy_nonempty in Hname.
    destruct (Z.ltb_spec 0 q) as [Hq | Hq]; simpl.
    + destruct (Num.float_gt_0 p) eqn:Hp.
      * rewrite decide_True by done.
        intros ([tx' id] & Hins & (x & Hx & [= <-])%bind_Ok)%bind_Ok.
        apply int_mul_float_Ok in Hx as ->.
        apply insert_misc_item_Ok in Hins as (-> & Hmi & Hbi & Hsame & _).
        eexists. simpl. split_and!; first [eassumption | reflexivity].
      * rewrite decide_False by (intros (_ & _ & ?); done). by intros [= <-].
    + rewrite decide_False by lia. by intros [= <-].
  - rewrite decide_False; [by intros [= <-] |].
    intros (Hne & _). apply truthy_nonempty in Hne. congruence.
Qed.

Lemma custom_loop (fields : Fields) (bid : Z) (t t' : Totals) :
  for_each (custom_item fields bid) [1; 2; 3] t = Ok t' ->
  exists miscs,
    misc_items (tx t') = misc_items (tx t) ++ miscs /\
    booking_items (tx t') = booking_items (tx t) /\
    same_outside_items (tx t) (tx t') /\
    Forall (fun mi => mi_booking_id mi = bid) miscs /\
    misc_item_row <$> miscs = custom_rows fields /\
    acc_total_ex_vat t' =
      foldl PrimFloat.add (acc_total_ex_vat t) (line_ex ∘ snd <$> custom_rows fields) /\
    acc_total_vat t' =
      foldl PrimFloat.add (acc_total_vat t) (line_vat_of ∘ snd <$> custom_rows fields).
Proof.
  unfold custom_rows. generalize [1; 2; 3]. intros l.
  revert t. induction l as [|i l IH]; intros t; simpl.
  - intros [= <-]. exists []. rewrite app_nil_r.
    split_and!; auto using same_outside_items_refl.
  - intros (t1 & Hstep & Hrest)%bind_Ok.
    apply custom_item_Ok in Hstep.
    destruct (IH _ Hrest) as (miscs & Hmi & Hbi & Hsame & Hall & Hrows & Hex & Hvat).
    destruct (custom_row fields i) as [[name ln]|].
    + destruct Hstep as (mi & Hmi1 & Hbi1 & Hsame1 & Hbid & Hrow & Hex1 & Hvat1).
      exists (mi :: miscs). rewrite fmap_cons. simpl.
      rewrite Hbi, Hbi1, Hmi, Hmi1, <- app_assoc, Hrow, Hrows, Hex, Hvat, Hex1, Hvat1.
      split_and!; eauto using same_outside_items_trans.
    + subst t1. exists miscs. split_and!; auto.
Qed.



(** ** [process_new_booking], step by step *)

Lemma lstrip_nonspace (s : string) :
  Str.forallb (fun c => negb (Str.is_space c)) s = true -> Str.lstrip s = s.
Proof. destruct s as [|c s]; simpl; [done |]. by destruct (Str.is_space c). Qed.

Lemma rstrip_nonspace (s : string) :
  Str.forallb (fun c => negb (Str.is_space c)) s = true -> Str.rstrip s = s.
Proof.
  induction s as [|c s IH]; simpl; [done |].
  intros [Hc Hs]%andb_true_iff. rewrite (IH Hs).
  destruct s; [|done]. by destruct (Str.is_space c).
Qed.

Lemma strip_nonspace (s : string) :
  Str.forallb (fun c => negb (Str.is_space c)) s = true -> Str.strip s = s.
Proof.
  intros H. unfold Str.strip. rewrite lstrip_nonspace by done.
  by apply rstrip_nonspace.
Qed.

Lemma int_strip_nonspace (s : string) :
  Str.forallb (fun c => negb (Num.is_space c)) s = true -> Num.strip s = s.
Proof.
  intros H. unfold Num.strip.
  assert (Num.lstrip s = s) as ->.
  { destruct s as [|c s]; simpl in *; [done |]. by destruct (Num.is_space c). }
  induction s as [|c s IH]; simpl; [done |].
  simpl in H. apply andb_true_iff in H as [Hc Hs]. rewrite (IH Hs).
  destruct s; [|done]. by destruct (Num.is_space c).
Qed.

Lemma forallb_impl (p q : ascii -> bool) (s : string) :
  (forall c, p c = true -> q c = true) ->
  Str.forallb p s = true -> Str.forallb q s = true.
Proof.
  intros Hpq. induction s as [|c s IH]; simpl; [done |].
  intros [Hc Hs]%andb_true_iff. by rewrite (Hpq c Hc), IH.
Qed.

Lemma digit_not_space (c : ascii) :
  Str.is_digit c = true -> negb (Str.is_space c) = true.
Proof.
  unfold Str.is_digit, Str.is_space. generalize (N_of_ascii c). intros n.
  rewrite andb_true_iff, negb_true_iff, !orb_false_iff, !andb_false_iff,
    !N.leb_le, !N.leb_gt, N.eqb_neq. lia.
Qed.

Lemma digit_not_int_space (c : ascii) :
  Str.is_digit c = true -> negb (Num.is_space c) = true.
Proof.
  unfold Str.is_digit, Num.is_space. generalize (N_of_ascii c). intros n.
  rewrite andb_true_iff, negb_true_iff, !orb_false_iff, !andb_false_iff,
    !N.leb_le, !N.leb_gt, N.eqb_neq. lia.
Qed.

Lemma digit_not_sign (c : ascii) (s : string) :
  Str.is_digit c = true -> Num.sign (String c s) = (false, String c s).
Proof.
  intros Hc. unfold Num.sign.
  destruct c as [[] [] [] [] [] [] [] []]; try done.
Qed.

Lemma digits_go_all (acc : N) (cnt : nat) (s : string) :
  Str.forallb Str.is_digit s = true ->
  exists n k, Num.digits_go acc cnt s = (n, k, "").
Proof.
  revert acc cnt. induction s as [|c s IH]; intros acc cnt; simpl; [eauto |].
  intros [Hc Hs]%andb_true_iff. rewrite Hc. by apply IH.
Qed.

(** [int(s)] succeeds on a string that [isdigit()] accepts. *)
Lemma isdigit_py_int (s : string) :
  Str.isdigit s = true -> exists n, Num.py_int s = Ok n.
Proof.
  destruct s as [|c s]; [done |]. unfold Str.isdigit. intros Hall.
  unfold Num.py_int.
  rewrite int_strip_nonspace by (eapply forallb_impl; [apply digit_not_int_space | done]).
  simpl in Hall. apply andb_true_iff in Hall as [Hc Hs].
  rewrite digit_not_sign by done. unfold Num.digitpart. rewrite Hc.
  destruct (digits_go_all 0 0 (String c s)) as (n & k & ->); [|eauto].
  simpl. by rewrite Hc, Hs.
Qed.

Lemma result_bind_Ok {A B : Type} (a : A) (k : A -> result B) :
  Ok a ≫= k = k a.
Proof. reflexivity. Qed.

Lemma fsum_app (l1 l2 : list float) :
  fsum (l1 ++ l2) = foldl PrimFloat.add (fsum l1) l2.
Proof. apply foldl_app. Qed.

Lemma process_new_booking_Ok (clk : Clock) (fields : Fields) (st st' : Store)
    (resp : Response) :
  process_new_booking clk fields st = Ok (st', resp) ->
  let bid := next_rowid (b_id <$> bookings st) in
  let rows := (snd <$> catalog_rows fields (services st)) ++ (snd <$> custom_rows fields) in
  let total_ex := fsum (line_ex <$> rows) in
  let total_vat := fsum (line_vat_of <$> rows) in
  exists c v b items miscs,
    customers st' = customers st ++ [c] /\
    vehicles st' = vehicles st ++ [v] /\
    services st' = services st /\
    settings st' = settings st /\
    bookings st' = bookings st ++ [b] /\
    b_id b = bid /\
    booking_date_of clk fields = Ok (booking_date b) /\
    b_status b = "booked" /\
    booking_items st' = booking_items st ++ items /\
    Forall (fun bi => bi_booking_id bi = bid) items /\
    booking_item_row <$> items = catalog_rows fields (services st) /\
    misc_items st' = misc_items st ++ miscs /\
    Forall (fun mi => mi_booking_id mi = bid) miscs /\
    misc_item_row <$> miscs = custom_rows fields /\
    if Num.float_gt_0 total_ex then
      invoices st' = invoices st ++
        [ {| i_id := next_rowid (i_id <$> invoices st);
             i_booking_id := bid;
             invoice_number := next_invoice_number (today_invoice_number clk) st;
             issue_date := Date.isoformat (today_issue_date clk);
             total_ex_vat := total_ex; total_vat := total_vat;
             total_inc := (total_ex + total_vat)%float;
             i_status := "unpaid" |} ] /\
      resp = See_Other ("/invoice/" +:+ Str.of_Z (next_rowid (i_id <$> invoices st)))
    else invoices st' = invoices st /\ resp = See_Other "/".
Proof.
  unfold process_new_booking. cbv zeta.
  rewrite booking_date_of_total.
  intros (bd & [= <-] & H)%bind_Ok.
  unfold insert_customer, insert_booking in H. cbv zeta in H.
  apply bind_Ok in H as (mv & _ & H).
  apply bind_Ok in H as ([tx2 vid] & Hveh & H).
  apply insert_vehicle_Ok in Hveh as (-> & -> & _).
  apply bind_Ok in H as (t1 & Hloop1 & H).
  apply bind_Ok in H as (t2 & Hloop2 & H).
  apply service_loop in Hloop1
    as (items & Hbi1 & Hmi1 & Hsame1 & Hall1 & Hrows1 & Hex1 & Hvat1).
  apply custom_loop in Hloop2
    as (miscs & Hmi2 & Hbi2 & Hsame2 & Hall2 & Hrows2 & Hex2 & Hvat2).
  destruct Hsame1 as (Hc1 & Hv1 & Hs1 & Hb1 & Hi1 & Hset1).
  destruct Hsame2 as (Hc2 & Hv2 & Hs2 & Hb2 & Hi2 & Hset2).
  simpl in *.
  assert (acc_total_ex_vat t2 =
            fsum (line_ex <$> (snd <$> catalog_rows fields (services st)) ++
                              (snd <$> custom_rows fields))) as Hex.
  { rewrite fmap_app, fsum_app, <- !list_fmap_compose. by rewrite Hex2, Hex1. }
  assert (acc_total_vat t2 =
            fsum (line_vat_of <$> (snd <$> catalog_rows fields (services st)) ++
                                  (snd <$> custom_rows fields))) as Hvat.
  { rewrite fmap_app, fsum_app, <- !list_fmap_compose. by rewrite Hvat2, Hvat1. }
  rewrite <- Hex, <- Hvat.
  do 3 eexists. exists items, miscs.
  apply bind_Ok in H as ([tx4 invoice_id] & Hinv & H).
  destruct (Num.float_gt_0 (acc_total_ex_vat t2)) eqn:Hgt.
  - apply bind_Ok in Hinv as ([tx4' id] & Hins & [= <- <-]).
    apply insert_invoice_Ok in Hins as (-> & -> & _).
    assert (id_truthy (Some (next_rowid (i_id <$> invoices (tx t2)))) = true) as Hid.
    { simpl. destruct (next_rowid_fresh (i_id <$> invoices (tx t2))) as [Hpos _].
      destruct (Z.eqb_spec (next_rowid (i_id <$> invoices (tx t2))) 0); [lia | done]. }
    rewrite Hid in H. injection H as <- <-. simpl.
    rewrite Hi2, Hi1, Hc2, Hc1, Hv2, Hv1, Hs2, Hs1, Hset2, Hset1, Hb2, Hb1,
      Hbi2, Hbi1, Hmi2, Hmi1.
    split_and!; try done.
  - injection Hinv as <- <-. simpl in H. injection H as <- <-.
    rewrite Hi2, Hi1, Hc2, Hc1, Hv2, Hv1, Hs2, Hs1, Hset2, Hset1, Hb2, Hb1,
      Hbi2, Hbi1, Hmi2, Hmi1.
    split_and!; try done.
Qed.



(* ===================================================================== *)
(** * Lemmas: cancellation and the invariants of the store *)
(* ===================================================================== *)

Lemma process_cancel_booking_Ok (fields : Fields) (st st' : Store) (resp : Response) :
  process_cancel_booking fields st = Ok (st', resp) ->
  (Num.py_int (field fields "booking_id" "") = Raised ValueError /\
   st' = st /\ resp = Send_Error 400 "Invalid booking ID") \/
  (exists booking_id,
      Num.py_int (field fields "booking_id" "") = Ok booking_id /\
      st' = update_invoice_status "canceled" booking_id
              (update_booking_status "canceled" booking_id st) /\
      resp = See_Other "/bookings").
Proof.
  unfold process_cancel_booking. cbv zeta.
  destruct (Num.py_int _) as [bid | e] eqn:E.
  - intros (? & _ & [= <- <-])%bind_Ok. right. eauto.
  - rewrite (py_int_raises _ _ E). intros [= <- <-]. left.
    by rewrite <- (py_int_raises _ _ E).
Qed.

(** A cancellation is carried out for an id within the range of an SQLite
    integer, and for the id of a booking. *)
Lemma process_cancel_booking_run (fields : Fields) (st : Store) (booking_id : Z) :
  Num.py_int (field fields "booking_id" "") = Ok booking_id ->
  - 2 ^ 63 <= booking_id < 2 ^ 63 \/ booking_id ∈ (b_id <$> bookings st) ->
  process_cancel_booking fields st
  = Ok (update_invoice_status "canceled" booking_id
          (update_booking_status "canceled" booking_id st), See_Other "/bookings").
Proof.
  intros Hparse Hid. unfold process_cancel_booking. rewrite Hparse. cbv zeta.
  destruct Hid as [Hr | Hin]; [rewrite row_id_in_range | rewrite row_id_held]; done.
Qed.

Lemma update_status_booking_ids (s : string) (bid : Z) (st : Store) :
  b_id <$> bookings (update_invoice_status s bid (update_booking_status s bid st))
  = b_id <$> bookings st.
Proof.
  simpl. rewrite <- list_fmap_compose. apply list_fmap_ext.
  intros i b _. simpl. by case_decide.
Qed.

Lemma update_status_invoice_elem (s : string) (bid : Z) (st : Store) (i' : Invoice) :
  i' ∈ invoices (update_invoice_status s bid (update_booking_status s bid st)) ->
  exists i, i ∈ invoices st /\ i_id i' = i_id i /\
            i_booking_id i' = i_booking_id i /\
            invoice_number i' = invoice_number i.
Proof.
  simpl. intros (i & -> & Hi)%list_elem_of_fmap. exists i.
  by case_decide.
Qed.

Lemma update_status_invoice_ids (s : string) (bid : Z) (st : Store) :
  i_id <$> invoices (update_invoice_status s bid (update_booking_status s bid st))
  = i_id <$> invoices st.
Proof.
  simpl. rewrite <- list_fmap_compose. apply list_fmap_ext.
  intros k i _. simpl. by case_decide.
Qed.

Lemma cancel_preserves_references (bid : Z) (st : Store) :
  references_bookings st ->
  references_bookings
    (update_invoice_status "canceled" bid (update_booking_status "canceled" bid st)).
Proof.
  intros (Hbi & Hmi & Hi). unfold references_bookings.
  rewrite update_status_booking_ids. split_and!; [exact Hbi | exact Hmi |].
  intros i' (i & Hin & _ & -> & _)%update_status_invoice_elem. by apply Hi.
Qed.

Lemma cancel_preserves_numbered (bid : Z) (st : Store) :
  numbered st ->
  numbered
    (update_invoice_status "canceled" bid (update_booking_status "canceled" bid st)).
Proof.
  intros [Hnd Hnum]. unfold numbered.
  rewrite update_status_invoice_ids. split; [done |].
  intros i' (i & Hin & -> & _ & ->)%update_status_invoice_elem. by apply Hnum.
Qed.

Lemma next_invoice_number_rowid (today : Date.date) (st : Store) :
  (forall i, i ∈ invoices st -> 1 <= i_id i) ->
  next_invoice_number today st =
  "INV" +:+ Date.strftime_Ymd today +:+ "-" +:+
    Str.fmt_0d 3 (next_rowid (i_id <$> invoices st)).
Proof.
  intros Hpos. unfold next_invoice_number, next_rowid.
  destruct (invoices st) as [|i l]; [done |]. rewrite fmap_cons.
  rewrite foldr_max_base by (specialize (Hpos i ltac:(left)); lia).
  simpl. do 4 f_equal. lia.
Qed.

Lemma submit_preserves_references (clk : Clock) (fields : Fields) (st st' : Store)
    (resp : Response) :
  process_new_booking clk fields st = Ok (st', resp) ->
  references_bookings st -> references_bookings st'.
Proof.
  intros H (Hbi & Hmi & Hi). apply process_new_booking_Ok in H. cbv zeta in H.
  destruct H as (c & v & b & items & miscs & _ & _ & _ & _ & Hb & Hbid & _ & _
                 & Hitems & Hall1 & _ & Hmiscs & Hall2 & _ & Hinv).
  unfold references_bookings. rewrite Hb, Hitems, Hmiscs, fmap_app. simpl.
  split_and!.
  - intros bi [Hold | Hnew]%elem_of_app; apply elem_of_app.
    + left. by apply Hbi.
    + right. rewrite Forall_forall in Hall1. rewrite (Hall1 _ Hnew), Hbid. by left.
  - intros mi [Hold | Hnew]%elem_of_app; apply elem_of_app.
    + left. by apply Hmi.
    + right. rewrite Forall_forall in Hall2. rewrite (Hall2 _ Hnew), Hbid. by left.
  - destruct (Num.float_gt_0 _); destruct Hinv as [-> _].
    + intros i [Hold | ->%list_elem_of_singleton]%elem_of_app; apply elem_of_app.
      * left. by apply Hi.
      * right. simpl. rewrite Hbid. by left.
    + intros i Hold. apply elem_of_app. left. by apply Hi.
Qed.

Lemma submit_preserves_numbered (clk : Clock) (fields : Fields) (st st' : Store)
    (resp : Response) :
  valid_clock clk ->
  process_new_booking clk fields st = Ok (st', resp) ->
  numbered st -> numbered st'.
Proof.
  intros (_ & Hvalid & _) H [Hnd Hnum]. apply process_new_booking_Ok in H.
  cbv zeta in H.
  destruct H as (c & v & b & items & miscs & _ & _ & _ & _ & _ & _ & _ & _
                 & _ & _ & _ & _ & _ & _ & Hinv).
  destruct (Num.float_gt_0 _); destruct Hinv as [Hinv _]; unfold numbered;
    rewrite Hinv; [|done].
  destruct (next_rowid_fresh (i_id <$> invoices st)) as [Hpos Hfresh].
  split.
  - rewrite fmap_app. simpl. apply NoDup_app. split_and!; [done | | apply NoDup_singleton].
    intros x Hx ->%list_elem_of_singleton. specialize (Hfresh _ Hx). lia.
  - intros i [Hold | ->%list_elem_of_singleton]%elem_of_app; [by apply Hnum |].
    simpl. split; [done |]. exists (today_invoice_number clk). split; [done |].
    apply next_invoice_number_rowid. intros i Hi. by apply Hnum.
Qed.

(** Every store the server reaches satisfies both invariants. *)
Lemma reachable_invariants (st : Store) :
  reachable st -> references_bookings st /\ numbered st.
Proof.
  induction 1 as [|clk path fields st st' resp _ [IHr IHn] Hclk Hpost].
  - split.
    + split_and!; intros x Hx; by apply elem_of_nil in Hx.
    + split; [constructor |]. intros x Hx. by apply elem_of_nil in Hx.
  - unfold do_POST in Hpost. repeat case_decide.
    + eauto using submit_preserves_references, submit_preserves_numbered.
    + apply process_cancel_booking_Ok in Hpost
        as [(_ & -> & _) | (bid & _ & -> & _)]; [done |].
      auto using cancel_preserves_references, cancel_preserves_numbered.
    + by injection Hpost as <- _.
Qed.

(* ===================================================================== *)
(** * The booking submission: totals, invoice creation, custom items *)
(* ===================================================================== *)

Lemma filter_all {A : Type} (P : A -> Prop) `{forall x, Decision (P x)} (l : list A) :
  Forall P l -> filter P l = l.
Proof.
  induction 1 as [|x l Hx _ IH]; [done |].
  by rewrite filter_cons, decide_True, IH.
Qed.

Lemma filter_none {A : Type} (P : A -> Prop) `{forall x, Decision (P x)} (l : list A) :
  Forall (fun x => ~ P x) l -> filter P l = [].
Proof.
  induction 1 as [|x l Hx _ IH]; [done |].
  by rewrite filter_cons, decide_False, IH.
Qed.

(** The rows of earlier bookings do not carry the id of a new booking. *)
Lemma fresh_booking_id (st : Store) :
  references_bookings st ->
  let bid := next_rowid (b_id <$> bookings st) in
  Forall (fun bi => bi_booking_id bi <> bid) (booking_items st) /\
  Forall (fun mi => mi_booking_id mi <> bid) (misc_items st) /\
  Forall (fun i => i_booking_id i <> bid) (invoices st).
Proof.
  intros (Hbi & Hmi & Hi) bid.
  destruct (next_rowid_fresh (b_id <$> bookings st)) as [_ Hfresh].
  split_and!; apply Forall_forall; intros x Hx Heq.
  - specialize (Hfresh _ (Hbi x Hx)). subst bid. lia.
  - specialize (Hfresh _ (Hmi x Hx)). subst bid. lia.
  - specialize (Hfresh _ (Hi x Hx)). subst bid. lia.
Qed.

(** The lines persisted for a new booking are the lines the submission
    asks for. *)
Lemma process_new_booking_lines (clk : Clock) (fields : Fields) (st st' : Store)
    (resp : Response) :
  references_bookings st ->
  process_new_booking clk fields st = Ok (st', resp) ->
  booking_lines (next_rowid (b_id <$> bookings st)) st' =
  (snd <$> catalog_rows fields (services st)) ++ (snd <$> custom_rows fields).
Proof.
  intros Href H. apply process_new_booking_Ok in H. cbv zeta in H.
  destruct H as (c & v & b & items & miscs & _ & _ & _ & _ & _ & _ & _ & _
                 & Hitems & Hall1 & Hrows1 & Hmiscs & Hall2 & Hrows2 & _).
  destruct (fresh_booking_id st Href) as (Hbi & Hmi & _).
  unfold booking_lines. rewrite Hitems, Hmiscs, !filter_app.
  rewrite (filter_none _ (booking_items st)), (filter_none _ (misc_items st)) by done.
  rewrite !filter_all by done. simpl.
  by rewrite <- Hrows1, <- Hrows2, <- !list_fmap_compose.
Qed.

Lemma scenario_catalog (clk : Clock) :
  match process_new_booking clk (fields_of_pairs [("qty_1", "2")]) init_store with
  | Ok (st', resp) =>
      resp = See_Other "/invoice/1" /\
      exists inv,
        invoices st' = [inv] /\
        booking_lines (i_booking_id inv) st' = [(2, 200%float, 0.20%float)] /\
        total_ex_vat inv = 400%float /\
        total_vat inv = 80%float /\
        total_inc inv = 480%float
  | Raised _ => False
  end.
Proof.
  vm_compute. split; [reflexivity |]. eexists. split_and!; reflexivity.
Qed.

(** C1. For every submitted booking the stored invoice totals are the sums
    of its persisted line items, with line_ex = quantity * unit_price and
    line_vat = line_ex * vat_rate for each persisted catalog or misc item:
    total_ex_vat is the sum of line_ex, total_vat the sum of line_vat and
    total_inc is total_ex_vat + total_vat, nothing being rounded per line.
    In particular quantity 2 of the service priced 200.0 at VAT rate 0.20
    gives 400.00, 80.00 and 480.00. *)
Theorem C1_invoice_totals :
  (forall clk fields st st' resp inv,
      references_bookings st ->
      process_new_booking clk fields st = Ok (st', resp) ->
      inv ∈ invoices st' -> inv ∉ invoices st ->
      let lines := booking_lines (i_booking_id inv) st' in
      total_ex_vat inv = fsum (line_ex <$> lines) /\
      total_vat inv = fsum (line_vat_of <$> lines) /\
      total_inc inv = (total_ex_vat inv + total_vat inv)%float)
  /\
  (forall clk, exists st' inv,
      process_new_booking clk (fields_of_pairs [("qty_1", "2")]) init_store
        = Ok (st', See_Other "/invoice/1") /\
      invoices st' = [inv] /\
      booking_lines (i_booking_id inv) st' = [(2, 200%float, 0.20%float)] /\
      total_ex_vat inv = 400%float /\
      total_vat inv = 80%float /\
      total_inc inv = 480%float).
Proof.
  split.
  - intros clk fields st st' resp inv Href H Hin Hnew.
    pose proof (process_new_booking_lines _ _ _ _ _ Href H) as Hlines.
    apply process_new_booking_Ok in H. cbv zeta in H.
    destruct H as (c & v & b & items & miscs & _ & _ & _ & _ & _ & _ & _ & _
                   & _ & _ & _ & _ & _ & _ & Hinv).
    destruct (Num.float_gt_0 _); destruct Hinv as [Hinv _]; rewrite Hinv in Hin;
      [|done].
    apply elem_of_app in Hin as [Hold | ->%list_elem_of_singleton]; [done |].
    simpl. by rewrite Hlines.
  - intros clk. pose proof (scenario_catalog clk) as H.
    destruct (process_new_booking _ _ _) as [[st' resp]|]; [|done].
    destruct H as (-> & inv & H). eauto.
Qed.

(* ===================================================================== *)
(** * Invoice numbers *)
(* ===================================================================== *)

Lemma days_in_month_le_31 (y m : Z) : Date._days_in_month y m <= 31.
Proof.
  unfold Date._days_in_month, Date._DAYS_IN_MONTH.
  destruct (_ && _); [lia |]. repeat case_match; lia.
Qed.

Lemma strftime_Ymd_shape (d : Date.date) :
  Date.valid d = true ->
  String.length (Date.strftime_Ymd d) = 8%nat /\
  all_digits (Date.strftime_Ymd d) = true.
Proof.
  intros (Hy & Hm & Hd)%valid_bounds.
  pose proof (days_in_month_le_31 (Date.year d) (Date.month d)).
  unfold Date.strftime_Ymd. split.
  - rewrite !string_app_length.
    rewrite (fmt_0d_length 3), !(fmt_0d_length 1); simpl; lia.
  - rewrite !all_digits_app, !fmt_0d_digits by lia. done.
Qed.

Lemma NoDup_fmap_from {A B C : Type} (f : A -> B) (g : A -> C) (l : list A) :
  (forall x y, x ∈ l -> y ∈ l -> f x = f y -> g x = g y) ->
  NoDup (g <$> l) -> NoDup (f <$> l).
Proof.
  induction l as [|a l IH]; intros Hfg Hnd; [constructor |].
  rewrite fmap_cons in *. apply NoDup_cons in Hnd as [Hnotin Hnd].
  apply NoDup_cons. split.
  - intros (y & Heq & Hy)%list_elem_of_fmap. apply Hnotin.
    apply list_elem_of_fmap. exists y. split; [|done].
    apply Hfg; [left | by right | done].
  - apply IH; [|done]. intros x y Hx Hy. apply Hfg; by right.
Qed.

(** In a numbered store the invoice number determines the invoice id. *)
Lemma numbered_number_inj (st : Store) (i j : Invoice) :
  numbered st -> i ∈ invoices st -> j ∈ invoices st ->
  invoice_number i = invoice_number j -> i_id i = i_id j.
Proof.
  intros [_ Hnum] Hi Hj.
  destruct (Hnum i Hi) as (Hposi & di & Hdi & ->).
  destruct (Hnum j Hj) as (Hposj & dj & Hdj & ->).
  intros Heq. apply (inj (String.app "INV")) in Heq.
  destruct (strftime_Ymd_shape di Hdi) as [Hli _].
  destruct (strftime_Ymd_shape dj Hdj) as [Hlj _].
  apply string_app_inj_length in Heq as [_ Heq]; [|congruence].
  apply (inj (String.app "-")) in Heq.
  apply fmt_0d_inj in Heq; [done | lia | lia].
Qed.

Lemma submissions_reachable (clk : Clock) (fields : Fields) (n : nat) (st st' : Store) :
  valid_clock clk -> reachable st ->
  submissions clk fields n st = Ok st' -> reachable st'.
Proof.
  intros Hclk Hst. revert st'. induction n as [|n IH]; intros st'; simpl.
  - by intros [= <-].
  - intros (st1 & H1 & (r & Hr & [= <-])%bind_Ok)%bind_Ok.
    destruct r as [st2 resp].
    apply (reach_post clk "/booking/new" fields st1 st2 resp);
      [by apply IH | done | exact Hr].
Qed.

Lemma thousand_submissions :
  match submissions clock_2025_01_15 (fields_of_pairs [("qty_1", "1")]) 1000 init_store with
  | Ok st =>
      match last (invoices st) with
      | Some i =>
          (i_id i =? 1000) &&
          String.eqb (invoice_number i) "INV20250115-1000" &&
          negb (inv_pattern_3 (invoice_number i))
      | None => false
      end
  | Raised _ => false
  end = true.
Proof. by vm_compute. Qed.

(** C3, as stated, fails at the thousandth invoice: after 1000 submissions
    of a fresh installation on 15 January 2025 the last invoice is
    numbered INV20250115-1000, whose sequence has four digits. *)
Lemma C3_counterexample :
  exists st i,
    reachable st /\
    i ∈ invoices st /\
    i_id i = 1000 /\
    invoice_number i = "INV20250115-1000" /\
    inv_pattern_3 (invoice_number i) = false.
Proof.
  pose proof thousand_submissions as Hrun.
  pose proof (submissions_reachable clock_2025_01_15
                (fields_of_pairs [("qty_1", "1")]) 1000 init_store) as Hreach.
  destruct (submissions _ _ _ _) as [st|]; [|done].
  destruct (last (invoices st)) as [i|] eqn:Hlast; [|done].
  apply andb_true_iff in Hrun as [Hrun Hpat%negb_true_iff].
  apply andb_true_iff in Hrun as [Hid%Z.eqb_eq Hno%String.eqb_eq].
  exists st, i. split; [|split; [|by split_and!]].
  - apply Hreach; [by repeat split | constructor | reflexivity].
  - apply last_Some in Hlast as [l ->]. apply elem_of_app. right. by left.
Qed.

(** C3, amended.  Invoice numbers are unique across the invoices created
    by booking submissions handled one after the other, and every invoice
    number is INV, the 8 digits of a date, a hyphen and the invoice id
    zero-padded to at least 3 digits: exactly 3 digits, as in the pattern
    INV{8-digit date}-{3-digit sequence}, up to invoice id 999. *)
Theorem C3_invoice_numbers_unique (st : Store) :
  reachable st ->
  NoDup (invoice_number <$> invoices st) /\
  forall i, i ∈ invoices st ->
    exists date seq,
      invoice_number i = "INV" +:+ date +:+ "-" +:+ seq /\
      String.length date = 8%nat /\ all_digits date = true /\
      all_digits seq = true /\ Z.of_N (dec_value seq) = i_id i /\
      (3 <= String.length seq)%nat /\
      (i_id i <= 999 -> inv_pattern_3 (invoice_number i) = true).
Proof.
  intros [_ Hnumbered]%reachable_invariants. split.
  - apply (NoDup_fmap_from _ i_id); [|apply Hnumbered].
    intros i j. by apply numbered_number_inj.
  - intros i Hi. destruct Hnumbered as [_ Hnum].
    destruct (Hnum i Hi) as (Hpos & d & Hd & Hno).
    destruct (strftime_Ymd_shape d Hd) as [Hlen Hdig].
    exists (Date.strftime_Ymd d), (Str.fmt_0d 3 (i_id i)).
    split_and!; try done.
    + apply fmt_0d_digits. lia.
    + apply fmt_0d_value. lia.
    + apply fmt_0d_length_ge. lia.
    + intros Hsmall. rewrite Hno.
      pose proof (fmt_0d_digits 3 (i_id i) ltac:(lia)) as Hsd.
      pose proof (fmt_0d_length 2 (i_id i) ltac:(simpl; lia)) as Hsl.
      revert Hlen Hdig Hsl Hsd.
      generalize (Date.strftime_Ymd d) (Str.fmt_0d 3 (i_id i)).
      intros date seq Hlen Hdig Hsl Hsd.
      do 9 (destruct date as [|? date]; try discriminate).
      do 4 (destruct seq as [|? seq]; try discriminate).
      unfold all_digits in *. simpl in Hdig, Hsd.
      unfold inv_pattern_3, all_digits. simpl.
      repeat match goal with
        | H : _ && _ = true |- _ => apply andb_true_iff in H as [? H]
        end.
      by repeat match goal with
        | H : Str.is_digit _ = true |- _ => rewrite H; clear H
        end.
Qed.

(** C4, as stated, fails: the generated number has a hyphen between the
    date and the sequence.  On a fresh installation, which has no invoice,
    so that next_id is 1, the number generated on 15 January 2025 is
    INV20250115-001 and not INV20250115001. *)
Lemma C4_counterexample :
  invoices init_store = [] /\
  next_invoice_number (Date.mk 2025 1 15) init_store = "INV20250115-001" /\
  "INV" +:+ Date.strftime_Ymd (Date.mk 2025 1 15) +:+ Str.fmt_0d 3 1 = "INV20250115001" /\
  next_invoice_number (Date.mk 2025 1 15) init_store <>
    "INV" +:+ Date.strftime_Ymd (Date.mk 2025 1 15) +:+ Str.fmt_0d 3 1.
Proof. split_and!; by vm_compute. Qed.

(** C4, amended.  Every generated invoice number is the string
    INV{YYYYMMDD}-{next_id zero-padded to 3 digits}, with a hyphen before
    the sequence, where YYYYMMDD is the current calendar date and next_id
    is the maximum existing invoice id plus 1, or 1 if no invoice
    exists. *)
Theorem C4_invoice_number_format (today : Date.date) (st : Store) :
  exists next_id,
    next_invoice_number today st =
      "INV" +:+ Date.strftime_Ymd today +:+ "-" +:+ Str.fmt_0d 3 next_id /\
    (invoices st = [] -> next_id = 1) /\
    (forall i, i ∈ invoices st -> i_id i + 1 <= next_id) /\
    (invoices st <> [] -> exists i, i ∈ invoices st /\ next_id = i_id i + 1) /\
    (Date.valid today = true ->
     String.length (Date.strftime_Ymd today) = 8%nat /\
     all_digits (Date.strftime_Ymd today) = true /\
     Date.strftime_Ymd today =
       Str.fmt_0d 4 (Date.year today) +:+ Str.fmt_0d 2 (Date.month today)
       +:+ Str.fmt_0d 2 (Date.day today)) /\
    (0 <= next_id ->
     all_digits (Str.fmt_0d 3 next_id) = true /\
     Z.of_N (dec_value (Str.fmt_0d 3 next_id)) = next_id /\
     (3 <= String.length (Str.fmt_0d 3 next_id))%nat /\
     (next_id <= 999 -> String.length (Str.fmt_0d 3 next_id) = 3%nat)).
Proof.
  unfold next_invoice_number.
  eexists. split; [reflexivity |]. split_and!.
  - by intros ->.
  - intros i Hi. apply (list_elem_of_fmap_2 i_id) in Hi.
    destruct (i_id <$> invoices st) as [|id ids]; [by apply elem_of_nil in Hi |].
    destruct (foldr_max_ge id ids) as [Hb Hall].
    apply elem_of_cons in Hi as [-> | Hi]; [lia |]. specialize (Hall _ Hi). lia.
  - intros Hne. destruct (invoices st) as [|i l] eqn:E; [done |].
    rewrite fmap_cons. clear Hne E.
    assert (exists j, j ∈ i :: l /\ foldr Z.max (i_id i) (i_id <$> l) = i_id j)
      as (j & Hj & ->); [|eauto].
    induction l as [|k l (j & Hj & IH)].
    + exists i. split; [left | done].
    + rewrite fmap_cons. cbn [foldr].
      destruct (Z.max_spec (i_id k) (foldr Z.max (i_id i) (i_id <$> l)))
        as [[_ ->] | [_ ->]].
      * exists j. split; [|done].
        apply elem_of_cons in Hj as [-> | Hj]; [left | right; by right].
      * exists k. split; [right; left | done].
  - intros Hv. destruct (strftime_Ymd_shape today Hv). done.
  - intros Hpos. split_and!.
    + by apply fmt_0d_digits.
    + by apply fmt_0d_value.
    + by apply fmt_0d_length_ge.
    + intros Hsmall. apply (fmt_0d_length 2). simpl. lia.
Qed.

(* ===================================================================== *)
(** * The invoice page: due date and next service date *)
(* ===================================================================== *)

Lemma prefix_app (a b : string) :
  String.prefix a b = true <-> exists c, b = a +:+ c.
Proof.
  revert b. induction a as [|x a IH]; intros [|y b]; simpl.
  - split; [by exists "" | done].
  - split; [by exists (String y b) | done].
  - split; [done | by intros [c ?]].
  - destruct (ascii_dec x y) as [-> | Hne].
    + rewrite IH. split; intros [c Hc]; exists c.
      * by rewrite string_app_cons, Hc.
      * rewrite string_app_cons in Hc. by injection Hc.
    + split; [done |]. intros [c Hc]. rewrite string_app_cons in Hc.
      injection Hc as ? _. congruence.
Qed.

Lemma contains_nil (needle : string) :
  Str.contains needle "" = String.prefix needle "".
Proof. by destruct needle. Qed.

Lemma contains_cons (needle : string) (y : ascii) (hay : string) :
  Str.contains needle (String y hay) =
  String.prefix needle (String y hay) || Str.contains needle hay.
Proof. reflexivity. Qed.

Lemma contains_app (needle hay : string) :
  Str.contains needle hay = true <->
  exists pre post, hay = pre +:+ needle +:+ post.
Proof.
  induction hay as [|y hay IH].
  - rewrite contains_nil, prefix_app. split.
    + intros [c Hc]. by exists "", c.
    + intros (pre & post & H).
      destruct pre; [by exists post | by rewrite string_app_cons in H].
  - rewrite contains_cons, orb_true_iff, prefix_app, IH. split.
    + intros [[c Hc] | (pre & post & ->)].
      * by exists "", c.
      * exists (String y pre), post. by rewrite string_app_cons.
    + intros ([|x pre] & post & H).
      * left. by exists post.
      * right. rewrite string_app_cons in H. injection H as -> ->. eauto.
Qed.

Lemma lower_app (a b : string) :
  Str.lower (a +:+ b) = Str.lower a +:+ Str.lower b.
Proof.
  unfold Str.lower. induction a as [|x a IH]; [done |].
  rewrite string_app_cons. simpl. by rewrite IH, string_app_cons.
Qed.

Lemma lower_split (s x y : string) :
  Str.lower s = x +:+ y ->
  exists a b, s = a +:+ b /\ Str.lower a = x /\ Str.lower b = y.
Proof.
  revert s. induction x as [|c x IH]; intros s H.
  - by exists "", s.
  - destruct s as [|d s]; [done |]. rewrite string_app_cons in H.
    injection H as Hc H. destruct (IH _ H) as (a & b & -> & <- & <-).
    exists (String d a), b. rewrite string_app_cons.
    split; [done |]. split; [|done]. unfold Str.lower. simpl. by rewrite Hc.
Qed.

(** The test [if 'interim' in name.lower()] decides the case-insensitive
    occurrence of "interim". *)
Lemma contains_interim (name : string) :
  Str.contains "interim" (Str.lower name) = true <-> ci_substring "interim" name.
Proof.
  rewrite contains_app. unfold ci_substring. split.
  - intros (pre & post & H).
    apply lower_split in H as (a & r & -> & _ & H).
    apply lower_split in H as (m & p & -> & Hm & _). by exists a, m, p.
  - intros (pre & mid & post & -> & Hmid).
    exists (Str.lower pre), (Str.lower post). by rewrite !lower_app, Hmid.
Qed.

Lemma service_interval_months_spec (names : list string) :
  ((exists name, name ∈ names /\ ci_substring "interim" name) /\
   service_interval_months 12 names = 6) \/
  (~ (exists name, name ∈ names /\ ci_substring "interim" name) /\
   service_interval_months 12 names = 12).
Proof.
  induction names as [|name names IH]; simpl.
  - right. split; [|done]. intros (? & H & _). by apply elem_of_nil in H.
  - destruct (Str.contains "interim" (Str.lower name)) eqn:Hc.
    + left. split; [|done]. exists name. split; [left |].
      by apply contains_interim.
    + destruct IH as [[(n & Hn & Hci) ->] | [Hno ->]].
      * left. split; [|done]. exists n. split; [by right | done].
      * right. split; [|done].
        intros (n & [-> | Hn]%elem_of_cons & Hci); [|eauto].
        apply contains_interim in Hci. congruence.
Qed.

Lemma item_row_names (items : list (string * string * Z * float * float))
    (rows rows' : list InvoiceLine) (names names' : list string) :
  for_each item_row items (rows, names) = Ok (rows', names') ->
  names' = names ++ ((fun item => item.1.1.1.1) <$> items).
Proof.
  revert rows names. induction items as [|item items IH]; intros rows names; simpl.
  - intros [= _ <-]. by rewrite app_nil_r.
  - destruct item as [[[[name desc] qty] price] vat]. simpl.
    intros ([rows1 names1] & (x & _ & [= <- <-])%bind_Ok & Hrest)%bind_Ok.
    rewrite (IH _ _ Hrest), <- app_assoc. done.
Qed.

Lemma fmap_list_bind {A B C : Type} (f : B -> C) (g : A -> list B) (l : list A) :
  f <$> (l ≫= g) = l ≫= (fun x => f <$> g x).
Proof.
  induction l as [|x l IH]; [done |].
  rewrite !bind_cons, fmap_app. by f_equal.
Qed.

Lemma invoice_items_names (booking_id : Z) (st : Store) :
  (fun item => item.1.1.1.1) <$> invoice_items booking_id st =
  line_item_names booking_id st.
Proof.
  unfold invoice_items, line_item_names. rewrite fmap_app. f_equal.
  - rewrite fmap_list_bind. apply list_bind_ext; [|done]. intros bi.
    rewrite fmap_list_bind. apply list_bind_ext; [|done]. by intros s.
  - by rewrite <- list_fmap_compose.
Qed.

Lemma invoice_join_Some (invoice_id : Z) (st : Store) (i : Invoice) (b : Booking)
    (c : Customer) (v : Vehicle) :
  invoice_join invoice_id st = Some (i, b, c, v) ->
  i ∈ invoices st /\ i_id i = invoice_id /\
  b ∈ bookings st /\ b_id b = i_booking_id i.
Proof.
  unfold invoice_join. intros H%head_Some_elem_of.
  apply list_elem_of_bind in H as (i' & H & [Hi Hin]%list_elem_of_filter).
  apply list_elem_of_bind in H as (b' & H & [Hb Hbn]%list_elem_of_filter).
  apply list_elem_of_bind in H as (c' & H & _).
  apply list_elem_of_bind in H as (v' & H & _).
  apply list_elem_of_singleton in H as [= -> -> -> ->]. done.
Qed.

Lemma payment_terms_days_Ok (st : Store) (days : Z) :
  except_ValueError
    (match default (Some "14") (get_settings st !! "payment_terms_days") with
     | Some s => Num.py_int s
     | None => Raised TypeError
     end) 14 = Ok days ->
  days = payment_terms_days st.
Proof.
  unfold payment_terms_days.
  destruct (get_settings st !! "payment_terms_days") as [[s|]|]; simpl.
  - destruct (Num.py_int s) as [n|e] eqn:E; simpl; [congruence |].
    rewrite (py_int_raises _ _ E). simpl. congruence.
  - done.
  - change (Num.py_int "14") with (@Ok Z 14). simpl. congruence.
Qed.

(** What a rendered invoice page was computed from. *)
Lemma handle_invoice_Ok (invoice_id : Z) (st : Store) (page : InvoicePage) :
  handle_invoice invoice_id st = Ok (Respond_Invoice page) ->
  exists inv issue_dt due_dt next_dt,
    inv ∈ invoices st /\ i_id inv = invoice_id /\
    p_invoice_number page = invoice_number inv /\
    p_issue_date page = issue_date inv /\
    Date.strptime_Ymd (issue_date inv) = Ok issue_dt /\
    Date.add_days issue_dt (payment_terms_days st) = Ok due_dt /\
    due_date page = Date.isoformat due_dt /\
    ((has_interim_item (i_booking_id inv) st /\
      Date.add_days issue_dt (30 * 6) = Ok next_dt) \/
     (~ has_interim_item (i_booking_id inv) st /\
      Date.add_days issue_dt (30 * 12) = Ok next_dt)) /\
    next_service_date page = Date.isoformat next_dt.
Proof.
  unfold handle_invoice. intros (? & _ & H)%bind_Ok. revert H.
  destruct (invoice_join invoice_id st) as [[[[i b] c] v]|] eqn:Hjoin; [|done].
  apply invoice_join_Some in Hjoin as (Hin & Hid & _ & Hb).
  intros ([rows names] & Hloop & H)%bind_Ok.
  apply bind_Ok in H as (days & Hdays & H).
  apply bind_Ok in H as (issue_dt & Hissue & H).
  apply bind_Ok in H as (due_dt & Hdue & H).
  apply bind_Ok in H as (next_dt & Hnext & H).
  injection H as <-. simpl.
  apply payment_terms_days_Ok in Hdays as ->.
  apply item_row_names in Hloop. simpl in Hloop. subst names.
  rewrite invoice_items_names, Hb in Hnext.
  exists i, issue_dt, due_dt, next_dt. split_and!; try done.
  unfold has_interim_item.
  destruct (service_interval_months_spec (line_item_names (i_booking_id i) st))
    as [[Hyes Hm] | [Hno Hm]]; rewrite Hm in Hnext; auto.
Qed.

Lemma foldl_insert_lookup (rows : list (string * option string)) (key : string) :
  foldl (fun d row => <[fst row := snd row]> d)
        (∅ : gmap string (option string)) rows !! key
  = snd <$> last (filter (fun row => fst row = key) rows).
Proof.
  induction rows as [|[k v] rows IH] using rev_ind; [done |].
  rewrite foldl_app, filter_app. simpl. rewrite filter_cons, filter_nil. simpl.
  destruct (decide (k = key)) as [-> | Hne].
  - rewrite lookup_insert_eq, last_snoc. done.
  - rewrite lookup_insert_ne, app_nil_r by done. exact IH.
Qed.

(** The dictionary of [get_settings] holds, for a key, the value of its
    row of the table. *)
Lemma get_settings_setting (st : Store) (key : string) :
  get_settings st !! key = setting key st.
Proof. apply foldl_insert_lookup. Qed.

(** A page is rendered only if the payment terms are not NULL: [int(None)]
    raises [TypeError]. *)
Lemma handle_invoice_terms (invoice_id : Z) (st : Store) (page : InvoicePage) :
  handle_invoice invoice_id st = Ok (Respond_Invoice page) ->
  setting "payment_terms_days" st <> Some None.
Proof.
  unfold handle_invoice. intros (? & _ & H)%bind_Ok. revert H.
  destruct (invoice_join invoice_id st) as [[[[i b] c] v]|]; [|done].
  intros ([rows names] & _ & H)%bind_Ok.
  apply bind_Ok in H as (days & Hdays & _).
  rewrite get_settings_setting in Hdays. intros Hnull. by rewrite Hnull in Hdays.
Qed.

(** C6. For every rendered invoice, due_date is issue_date plus
    payment_terms_days calendar days, where payment_terms_days is the
    value of the settings row payment_terms_days parsed as an integer,
    and 14 when the table has no such row or its value does not parse.
    The value, if any, is plain text (ASCII, at most 4300 characters);
    the due date is written as YYYY-MM-DD from the year 1000 on. *)
Theorem C6_due_date (invoice_id : Z) (st : Store) (page : InvoicePage) :
  handle_invoice invoice_id st = Ok (Respond_Invoice page) ->
  (forall value,
     setting "payment_terms_days" st = Some (Some value) -> plain value = true) ->
  exists inv issue_dt due_dt days,
    inv ∈ invoices st /\ i_id inv = invoice_id /\
    Date.strptime_Ymd (issue_date inv) = Ok issue_dt /\
    ((setting "payment_terms_days" st = None /\ days = 14) \/
     (exists value,
        setting "payment_terms_days" st = Some (Some value) /\
        days = match Num.py_int value with Ok d => d | Raised _ => 14 end)) /\
    Date.valid due_dt = true /\
    plus_days issue_dt days due_dt /\
    Date.toordinal due_dt = Date.toordinal issue_dt + days /\
    (1000 <= Date.year due_dt -> due_date page = Date.isoformat due_dt).
Proof.
  intros H _. pose proof (handle_invoice_terms _ _ _ H) as Hnull.
  apply handle_invoice_Ok in H
    as (inv & issue_dt & due_dt & next_dt & Hin & Hid & _ & _ & Hissue & Hdue
        & Hpage & _).
  pose proof (strptime_valid _ _ Hissue) as Hv.
  destruct (add_days_spec _ _ _ Hv Hdue) as (Hv' & Hord & Hplus).
  exists inv, issue_dt, due_dt, (payment_terms_days st).
  split_and!; try done.
  unfold payment_terms_days. rewrite get_settings_setting.
  destruct (setting "payment_terms_days" st) as [[value|]|]; [right | done | left]; eauto.
Qed.

(** C7. For every rendered invoice, next_service_date is issue_date plus
    30 * 6 = 180 calendar days if the name of some line item (catalog
    service or misc item) contains "interim" in any letter case, and
    issue_date plus 30 * 12 = 360 calendar days otherwise. *)
Theorem C7_next_service_date (invoice_id : Z) (st : Store) (page : InvoicePage) :
  handle_invoice invoice_id st = Ok (Respond_Invoice page) ->
  exists inv issue_dt next_dt,
    inv ∈ invoices st /\ i_id inv = invoice_id /\
    Date.strptime_Ymd (issue_date inv) = Ok issue_dt /\
    next_service_date page = Date.isoformat next_dt /\
    Date.valid next_dt = true /\
    ((has_interim_item (i_booking_id inv) st /\ plus_days issue_dt 180 next_dt) \/
     (~ has_interim_item (i_booking_id inv) st /\ plus_days issue_dt 360 next_dt)).
Proof.
  intros (inv & issue_dt & due_dt & next_dt & Hin & Hid & _ & _ & Hissue & _
          & _ & Hnext & Hpage)%handle_invoice_Ok.
  pose proof (strptime_valid _ _ Hissue) as Hv.
  exists inv, issue_dt, next_dt.
  destruct Hnext as [[Hyes Hnext] | [Hno Hnext]];
    destruct (add_days_spec _ _ _ Hv Hnext) as (Hv' & _ & Hplus);
    split_and!; auto.
Qed.

(* ===================================================================== *)
(** * Cancellation *)
(* ===================================================================== *)









(* ===================================================================== *)
(** * The booking date *)
(* ===================================================================== *)

Lemma isoformat_length (d : Date.date) :
  Date.valid d = true -> String.length (Date.isoformat d) = 10%nat.
Proof.
  intros (Hy & Hm & Hd)%valid_bounds.
  pose proof (days_in_month_le_31 (Date.year d) (Date.month d)).
  unfold Date.isoformat. rewrite !string_app_length.
  rewrite (fmt_0d_length 3), !(fmt_0d_length 1); simpl; lia.
Qed.

(** An absent or empty booking date, and one that [strptime] rejects, is
    replaced by today's date; no booking date makes the request fail. *)
Lemma booking_date_default (clk : Clock) (fields : Fields) :
  let date_str := Str.strip (field fields "booking_date" "") in
  (date_str = "" \/ Date.strptime_Ymd date_str = Raised ValueError) ->
  booking_date_of clk fields = Ok (Date.isoformat (today_booking_date clk)).
Proof.
  intros date_str H. rewrite booking_date_of_total. cbv zeta. fold date_str.
  destruct H as [-> | ->]; [done |]. by rewrite andb_false_r.
Qed.

Lemma is_digit_value (c : ascii) :
  Str.is_digit c = true -> 0 <= Z.of_N (Str.digit_val c) <= 9.
Proof.
  unfold Str.is_digit, Str.digit_val. generalize (N_of_ascii c). intros n.
  rewrite andb_true_iff, !N.leb_le. lia.
Qed.

Lemma digit_step (c : ascii) (s : string) :
  Str.is_digit c = true ->
  Date.digit (String c s) = Some (Z.of_N (Str.digit_val c), s).
Proof. intros H. unfold Date.digit. by rewrite H. Qed.

(** A number below 100 printed with [02d] is two digits. *)
Lemma fmt_02d_digits (n : Z) :
  0 <= n < 100 ->
  exists c1 c2,
    Str.fmt_0d 2 n = String c1 (String c2 "") /\
    Str.is_digit c1 = true /\ Str.is_digit c2 = true /\
    10 * Z.of_N (Str.digit_val c1) + Z.of_N (Str.digit_val c2) = n.
Proof.
  intros Hn.
  pose proof (fmt_0d_length 1 n ltac:(simpl; lia)) as Hlen.
  pose proof (fmt_0d_digits 2 n ltac:(lia)) as Hdig.
  pose proof (fmt_0d_value 2 n ltac:(lia)) as Hval.
  destruct (Str.fmt_0d 2 n) as [|c1 [|c2 [|]]]; try discriminate.
  unfold all_digits in Hdig. simpl in Hdig.
  apply andb_true_iff in Hdig as [H1 [H2 _]%andb_true_iff].
  exists c1, c2. split_and!; try done.
  unfold dec_value in Hval. simpl in Hval. lia.
Qed.

(** A number below 10000 printed with [04d] is four digits. *)
Lemma fmt_04d_digits (n : Z) :
  0 <= n < 10000 ->
  exists c1 c2 c3 c4,
    Str.fmt_0d 4 n = String c1 (String c2 (String c3 (String c4 ""))) /\
    Str.is_digit c1 = true /\ Str.is_digit c2 = true /\
    Str.is_digit c3 = true /\ Str.is_digit c4 = true /\
    1000 * Z.of_N (Str.digit_val c1) + 100 * Z.of_N (Str.digit_val c2) +
    10 * Z.of_N (Str.digit_val c3) + Z.of_N (Str.digit_val c4) = n.
Proof.
  intros Hn.
  pose proof (fmt_0d_length 3 n ltac:(simpl; lia)) as Hlen.
  pose proof (fmt_0d_digits 4 n ltac:(lia)) as Hdig.
  pose proof (fmt_0d_value 4 n ltac:(lia)) as Hval.
  destruct (Str.fmt_0d 4 n) as [|c1 [|c2 [|c3 [|c4 [|]]]]]; try discriminate.
  unfold all_digits in Hdig. simpl in Hdig.
  apply andb_true_iff in Hdig as [H1 Hdig].
  apply andb_true_iff in Hdig as [H2 Hdig].
  apply andb_true_iff in Hdig as [H3 [H4 _]%andb_true_iff].
  exists c1, c2, c3, c4. split_and!; try done.
  unfold dec_value in Hval. simpl in Hval. lia.
Qed.

Lemma two_digits (lo1 hi1 lo2 hi2 : Z) (c1 c2 : ascii) (s : string) :
  Str.is_digit c1 = true -> Str.is_digit c2 = true ->
  Date.two lo1 hi1 lo2 hi2 (String c1 (String c2 s)) =
  if (lo1 <=? Z.of_N (Str.digit_val c1)) && (Z.of_N (Str.digit_val c1) <=? hi1) &&
     ((lo2 <=? Z.of_N (Str.digit_val c2)) && (Z.of_N (Str.digit_val c2) <=? hi2))
  then [(10 * Z.of_N (Str.digit_val c1) + Z.of_N (Str.digit_val c2), s)]
  else [].
Proof.
  intros H1 H2. unfold Date.two, Date.digit_in, Date.digit. rewrite H1.
  destruct ((lo1 <=? _) && (_ <=? hi1)); [|done]. rewrite H2.
  by destruct ((lo2 <=? _) && (_ <=? hi2)).
Qed.

(** The month directive reads a two-digit month in full. *)
Lemma directive_m_two (c1 c2 : ascii) (s : string) :
  Str.is_digit c1 = true -> Str.is_digit c2 = true ->
  1 <= 10 * Z.of_N (Str.digit_val c1) + Z.of_N (Str.digit_val c2) <= 12 ->
  exists rest,
    Date.directive_m (String c1 (String c2 s)) =
    (10 * Z.of_N (Str.digit_val c1) + Z.of_N (Str.digit_val c2), s) :: rest.
Proof.
  intros H1 H2 Hm.
  pose proof (is_digit_value _ H1). pose proof (is_digit_value _ H2).
  unfold Date.directive_m. rewrite !two_digits by done.
  set (a := Z.of_N (Str.digit_val c1)) in *.
  set (b := Z.of_N (Str.digit_val c2)) in *.
  assert (a = 1 /\ b <= 2 \/ a = 0 /\ 1 <= b) as [[Ha Hb] | [Ha Hb]] by lia.
  - assert ((1 <=? a) && (a <=? 1) && ((0 <=? b) && (b <=? 2)) = true) as -> by lia.
    simpl. eauto.
  - assert ((1 <=? a) && (a <=? 1) && ((0 <=? b) && (b <=? 2)) = false) as -> by lia.
    assert ((0 <=? a) && (a <=? 0) && ((1 <=? b) && (b <=? 9)) = true) as -> by lia.
    simpl. eauto.
Qed.

(** The day directive reads a two-digit day in full. *)
Lemma directive_d_two (c1 c2 : ascii) (s : string) :
  Str.is_digit c1 = true -> Str.is_digit c2 = true ->
  1 <= 10 * Z.of_N (Str.digit_val c1) + Z.of_N (Str.digit_val c2) <= 31 ->
  exists rest,
    Date.directive_d (String c1 (String c2 s)) =
    (10 * Z.of_N (Str.digit_val c1) + Z.of_N (Str.digit_val c2), s) :: rest.
Proof.
  intros H1 H2 Hd.
  pose proof (is_digit_value _ H1). pose proof (is_digit_value _ H2).
  unfold Date.directive_d. rewrite !two_digits by done.
  set (a := Z.of_N (Str.digit_val c1)) in *.
  set (b := Z.of_N (Str.digit_val c2)) in *.
  assert (a = 3 /\ b <= 1 \/ (a = 1 \/ a = 2) \/ a = 0 /\ 1 <= b)
    as [[Ha Hb] | [Ha | [Ha Hb]]] by lia.
  - assert ((3 <=? a) && (a <=? 3) && ((0 <=? b) && (b <=? 1)) = true) as -> by lia.
    simpl. eauto.
  - assert ((3 <=? a) && (a <=? 3) && ((0 <=? b) && (b <=? 1)) = false) as -> by lia.
    assert ((1 <=? a) && (a <=? 2) && ((0 <=? b) && (b <=? 9)) = true) as -> by lia.
    simpl. eauto.
  - assert ((3 <=? a) && (a <=? 3) && ((0 <=? b) && (b <=? 1)) = false) as -> by lia.
    assert ((1 <=? a) && (a <=? 2) && ((0 <=? b) && (b <=? 9)) = false) as -> by lia.
    assert ((0 <=? a) && (a <=? 0) && ((1 <=? b) && (b <=? 9)) = true) as -> by lia.
    simpl. eauto.
Qed.

(** [strptime] reads back what [isoformat] writes. *)
Lemma strptime_isoformat (d : Date.date) :
  Date.valid d = true -> Date.strptime_Ymd (Date.isoformat d) = Ok d.
Proof.
  intros Hv. pose proof Hv as (Hy & Hm & Hd)%valid_bounds.
  pose proof (days_in_month_le_31 (Date.year d) (Date.month d)) as H31.
  destruct (fmt_04d_digits (Date.year d)) as (y1 & y2 & y3 & y4 & Ey & ? & ? & ? & ? & Vy);
    [lia |].
  destruct (fmt_02d_digits (Date.month d)) as (m1 & m2 & Em & ? & ? & Vm); [lia |].
  destruct (fmt_02d_digits (Date.day d)) as (d1 & d2 & Ed & ? & ? & Vd); [lia |].
  unfold Date.strptime_Ymd, Date.matches_Ymd, Date.isoformat.
  rewrite Ey, Em, Ed. rewrite !string_app_cons, !string_app_nil_l.
  unfold Date.directive_Y. rewrite !digit_step by done.
  rewrite bind_cons. cbn [Date.literal]. rewrite Ascii.eqb_refl.
  rewrite bind_cons.
  destruct (directive_m_two m1 m2 (String "-" (String d1 (String d2 ""))))
    as [rest1 ->]; [done | done | lia |].
  rewrite bind_cons. cbn [Date.literal]. rewrite Ascii.eqb_refl.
  rewrite bind_cons.
  destruct (directive_d_two d1 d2 "") as [rest2 ->]; [done | done | lia |].
  rewrite bind_cons. simpl.
  rewrite Vy, Vm, Vd. destruct d as [y m dd]. simpl. by rewrite Hv.
Qed.

(** A booking date of the form YYYY-MM-DD is stored as submitted. *)
Lemma booking_date_iso (clk : Clock) (fields : Fields) :
  let date_str := Str.strip (field fields "booking_date" "") in
  iso_date_string date_str ->
  booking_date_of clk fields = Ok date_str.
Proof.
  intros date_str (d & Hv & Hd). rewrite booking_date_of_total. cbv zeta.
  fold date_str. rewrite Hd, strptime_isoformat by done.
  assert (Str.truthy (Date.isoformat d) = true) as ->; [|done].
  apply truthy_nonempty. intros Hempty.
  pose proof (isoformat_length d Hv) as Hlen. by rewrite Hempty in Hlen.
Qed.

Lemma scenario_lenient_date (clk : Clock) :
  match process_new_booking clk (fields_of_pairs [("booking_date", "2025-1-5")])
          init_store with
  | Ok (st', resp) =>
      resp = See_Other "/" /\
      exists b, bookings st' = [b] /\ booking_date b = "2025-1-5"
  | Raised _ => False
  end.
Proof.
  vm_compute. split; [reflexivity |]. eexists. split; reflexivity.
Qed.

(** C9 at the input booking_date = 2025-1-5: the request is accepted and
    the booking is stored with the date string 2025-1-5, which is not of
    the form YYYY-MM-DD and is not today's date either. *)
Theorem C9_booking_date_not_iso (clk : Clock) :
  exists st' b,
    process_new_booking clk (fields_of_pairs [("booking_date", "2025-1-5")])
      init_store = Ok (st', See_Other "/") /\
    bookings st' = [b] /\
    booking_date b = "2025-1-5" /\
    ~ iso_date_string (booking_date b) /\
    (Date.valid (today_booking_date clk) = true ->
     booking_date b <> Date.isoformat (today_booking_date clk)).
Proof.
  pose proof (scenario_lenient_date clk) as H.
  destruct (process_new_booking _ _ _) as [[st' resp]|]; [|done].
  destruct H as (-> & b & Hb & Hdate).
  exists st', b. rewrite Hdate. split_and!; try done.
  - intros (d & Hd & Heq). apply isoformat_length in Hd.
    rewrite <- Heq in Hd. done.
  - intros Hd Heq. apply isoformat_length in Hd. rewrite <- Heq in Hd. done.
Qed.
(* ===================================================================== *)
(** * The booking submission, row by row *)
(* ===================================================================== *)

Lemma float_of_int_cases (n : Z) :
  Num.float_of_int n = Ok (Num.to_float n) \/
  Num.float_of_int n = Raised OverflowError.
Proof. unfold Num.float_of_int. destruct (binary_normalize _ _ _ _ _); auto. Qed.

Lemma int_mul_float_cases (q : Z) (p : float) :
  (is_ok (Num.float_of_int q) = true /\
   Num.int_mul_float q p = Ok (Num.to_float q * p)%float) \/
  (is_ok (Num.float_of_int q) = false /\
   Num.int_mul_float q p = Raised OverflowError).
Proof.
  unfold Num.int_mul_float.
  destruct (float_of_int_cases q) as [-> | ->]; simpl; auto.
Qed.

(** A line that is stored was accepted by the INSERT and its quantity
    converted to a [float]. *)
Lemma service_item_accepts (fields : Fields) (bid : Z) (t t' : Totals) (svc : Service) :
  service_item fields bid t svc = Ok t' ->
  let l : Line := (catalog_quantity fields svc, s_unit_price svc, s_vat_rate svc) in
  0 < catalog_quantity fields svc -> convertible l /\ storable l = true.
Proof.
  unfold service_item, catalog_quantity, convertible, storable. cbv zeta.
  rewrite py_int_default. simpl.
  set (q := match Num.py_int _ with Ok n => n | Raised _ => 0 end).
  intros H Hq. destruct (Z.ltb_spec 0 q) as [_ | ?]; [|lia].
  apply bind_Ok in H as ([tx' id] & Hins & (x & Hx & _)%bind_Ok).
  apply insert_booking_item_Ok in Hins as (_ & _ & _ & _ & Hr & Hp & Hv).
  simpl in Hr, Hp, Hv. rewrite Hr, Hp, Hv. split; [|done].
  destruct (int_mul_float_cases q (s_unit_price svc)) as [[Hc _] | [_ Hbad]];
    [done | congruence].
Qed.

Lemma service_item_raises (fields : Fields) (bid : Z) (t : Totals) (svc : Service)
    (e : exn) :
  service_item fields bid t svc = Raised e ->
  e = OverflowError \/ e = IntegrityError.
Proof.
  unfold service_item. cbv zeta. rewrite py_int_default. simpl.
  destruct (0 <? _); [|done].
  unfold insert_booking_item, Sql.integer, Sql.real_not_null. cbv zeta. simpl.
  destruct (Sql.in_range _); simpl; [|intros [= <-]; auto].
  destruct (PrimFloat.is_nan (s_unit_price svc)); simpl; [intros [= <-]; auto |].
  destruct (PrimFloat.is_nan (s_vat_rate svc)); simpl; [intros [= <-]; auto |].
  match goal with
  | |- context [Num.int_mul_float ?q ?p] =>
      destruct (int_mul_float_cases q p) as [[_ ->] | [_ ->]]
  end; simpl; [done | intros [= <-]; auto].
Qed.

Lemma service_loop_accepts (fields : Fields) (bid : Z) (svcs : list Service)
    (t t' : Totals) :
  for_each (service_item fields bid) svcs t = Ok t' ->
  Forall (fun l => convertible l /\ storable l = true) (snd <$> catalog_rows fields svcs).
Proof.
  revert t. induction svcs as [|svc svcs IH]; intros t; simpl; [constructor |].
  unfold catalog_rows. rewrite filter_cons.
  intros (t1 & Hstep & Hrest)%bind_Ok.
  destruct (decide (0 < catalog_quantity fields svc)) as [Hq | Hq].
  - rewrite !fmap_cons. constructor; [|by eapply IH].
    by apply (service_item_accepts _ _ _ _ _ Hstep).
  - by eapply IH.
Qed.

Lemma service_loop_convertible (fields : Fields) (bid : Z) (svcs : list Service)
    (t t' : Totals) :
  for_each (service_item fields bid) svcs t = Ok t' ->
  Forall convertible (snd <$> catalog_rows fields svcs).
Proof.
  intros H%service_loop_accepts. eapply Forall_impl; [exact H |]. by intros l [? _].
Qed.

Lemma service_loop_raises (fields : Fields) (bid : Z) (svcs : list Service)
    (t : Totals) (e : exn) :
  for_each (service_item fields bid) svcs t = Raised e ->
  e = OverflowError \/ e = IntegrityError.
Proof.
  revert t. induction svcs as [|svc svcs IH]; intros t; simpl; [done |].
  destruct (service_item fields bid t svc) as [t1|e1] eqn:Hstep; simpl.
  - apply IH.
  - intros [= <-]. by eapply service_item_raises.
Qed.

Lemma custom_item_accepts (fields : Fields) (bid : Z) (t t' : Totals) (i : Z) :
  custom_item fields bid t i = Ok t' ->
  match custom_row fields i with
  | Some (_, l) => convertible l /\ storable l = true
  | None => True
  end.
Proof.
  destruct (custom_row fields i) as [[name l]|] eqn:Hrow; [|done].
  revert Hrow. unfold custom_item, custom_row, convertible, storable. cbv zeta.
  set (nm := Str.strip _).
  rewrite py_int_default, !py_float_default. simpl.
  set (q := match Num.py_int _ with Ok n => n | Raised _ => 0 end).
  set (p := match Num.py_float (field fields ("custom_price_" +:+ _) _) with
            | Ok x => x | Raised _ => _ end).
  set (v := match Num.py_float (field fields ("custom_vat_" +:+ _) _) with
            | Ok x => x | Raised _ => _ end).
  case_decide as Hc; [|done]. intros [= <- <-]. simpl.
  destruct Hc as (Hne%truthy_nonempty & Hq & Hp). rewrite Hne, Hp. simpl.
  destruct (Z.ltb_spec 0 q) as [_ | ?]; [|lia]. simpl.
  intros ([tx' id] & Hins & (x & Hx & _)%bind_Ok)%bind_Ok.
  apply insert_misc_item_Ok in Hins as (_ & _ & _ & _ & Hr & Hpn & Hvn).
  simpl in Hr, Hpn, Hvn. rewrite Hr, Hpn, Hvn. split; [|done].
  destruct (int_mul_float_cases q p) as [[Hc _] | [_ Hbad]]; [done | congruence].
Qed.

Lemma custom_item_raises (fields : Fields) (bid : Z) (t : Totals) (i : Z) (e : exn) :
  custom_item fields bid t i = Raised e ->
  e = OverflowError \/ e = IntegrityError.
Proof.
  unfold custom_item. cbv zeta.
  rewrite py_int_default, !py_float_default. simpl.
  set (q := match Num.py_int _ with Ok n => n | Raised _ => 0 end).
  set (p := match Num.py_float (field fields ("custom_price_" +:+ _) _) with
            | Ok x => x | Raised _ => _ end).
  set (v := match Num.py_float (field fields ("custom_vat_" +:+ _) _) with
            | Ok x => x | Raised _ => _ end).
  destruct (negb _); [done |].
  destruct (_ && _); [|done].
  unfold insert_misc_item, Sql.integer, Sql.real_not_null. cbv zeta. simpl.
  destruct (Sql.in_range q); simpl; [|intros [= <-]; auto].
  destruct (PrimFloat.is_nan p); simpl; [intros [= <-]; auto |].
  destruct (PrimFloat.is_nan v); simpl; [intros [= <-]; auto |].
  match goal with
  | |- context [Num.int_mul_float ?q ?p] =>
      destruct (int_mul_float_cases q p) as [[_ ->] | [_ ->]]
  end; simpl; [done | intros [= <-]; auto].
Qed.

Lemma custom_loop_accepts (fields : Fields) (bid : Z) (t t' : Totals) :
  for_each (custom_item fields bid) [1; 2; 3] t = Ok t' ->
  Forall (fun l => convertible l /\ storable l = true) (snd <$> custom_rows fields).
Proof.
  unfold custom_rows. generalize [1; 2; 3]. intros l.
  revert t. induction l as [|i l IH]; intros t; simpl; [constructor |].
  intros (t1 & Hstep & Hrest)%bind_Ok.
  apply custom_item_accepts in Hstep.
  destruct (custom_row fields i) as [[name ln]|]; simpl.
  - constructor; [done | by eapply IH].
  - by eapply IH.
Qed.

Lemma custom_loop_convertible (fields : Fields) (bid : Z) (t t' : Totals) :
  for_each (custom_item fields bid) [1; 2; 3] t = Ok t' ->
  Forall convertible (snd <$> custom_rows fields).
Proof.
  intros H%custom_loop_accepts. eapply Forall_impl; [exact H |]. by intros l [? _].
Qed.

Lemma custom_loop_raises (fields : Fields) (bid : Z) (l : list Z) (t : Totals)
    (e : exn) :
  for_each (custom_item fields bid) l t = Raised e ->
  e = OverflowError \/ e = IntegrityError.
Proof.
  revert t. induction l as [|i l IH]; intros t; simpl; [done |].
  destruct (custom_item fields bid t i) as [t1|e1] eqn:Hstep; simpl.
  - apply IH.
  - intros [= <-]. by eapply custom_item_raises.
Qed.

(** The mileage stored with the vehicle: the number a string of digits
    reads as, otherwise NULL. *)
Lemma mileage_value (mileage : string) :
  exists mileage_val,
    (if Str.isdigit mileage then n ← Num.py_int mileage; Ok (Some n)
     else Ok None) = Ok mileage_val /\
    (Str.isdigit mileage = true -> exists n, mileage_val = Some n /\
                                            Num.py_int mileage = Ok n) /\
    (Str.isdigit mileage = false -> mileage_val = None).
Proof.
  destruct (Str.isdigit mileage) eqn:Hd.
  - destruct (isdigit_py_int _ Hd) as [n Hn]. rewrite Hn. simpl.
    exists (Some n). split_and!; [done | eauto | done].
  - exists None. split_and!; done.
Qed.

(** The customer, the vehicle and the booking a completed submission
    stores. *)
Lemma process_new_booking_rows (clk : Clock) (fields : Fields) (st st' : Store)
    (resp : Response) :
  process_new_booking clk fields st = Ok (st', resp) ->
  exists mileage_val booking_date,
    customers st' = customers st ++
      [ {| c_id := next_rowid (c_id <$> customers st);
           first_name := Str.strip (field fields "first_name" "");
           last_name := Str.strip (field fields "last_name" "");
           phone := Str.strip (field fields "phone" "");
           email := Str.strip (field fields "email" "");
           address := Str.strip (field fields "address" "") |} ] /\
    vehicles st' = vehicles st ++
      [ {| v_id := next_rowid (v_id <$> vehicles st);
           v_customer_id := next_rowid (c_id <$> customers st);
           vrm := Str.upper (Str.strip (field fields "vrm" ""));
           make := Str.strip (field fields "make" "");
           model := Str.strip (field fields "model" "");
           mileage := mileage_val |} ] /\
    bookings st' = bookings st ++
      [ {| b_id := next_rowid (b_id <$> bookings st);
           b_customer_id := next_rowid (c_id <$> customers st);
           b_vehicle_id := next_rowid (v_id <$> vehicles st);
           booking_date := booking_date;
           notes := Str.strip (field fields "notes" "");
           b_status := "booked" |} ] /\
    booking_date_of clk fields = Ok booking_date /\
    (Str.isdigit (Str.strip (field fields "mileage" "0")) = true ->
     exists n, mileage_val = Some n /\
               Num.py_int (Str.strip (field fields "mileage" "0")) = Ok n) /\
    (Str.isdigit (Str.strip (field fields "mileage" "0")) = false ->
     mileage_val = None) /\
    Forall convertible (requested_lines fields st).
Proof.
  unfold process_new_booking. cbv zeta.
  intros (bd & Hbd & H)%bind_Ok.
  unfold insert_customer, insert_booking in H. cbv zeta in H.
  destruct (mileage_value (Str.strip (field fields "mileage" "0")))
    as (mv & Hmv & Hdig & Hnodig).
  rewrite Hmv in H. rewrite result_bind_Ok in H. cbv beta iota zeta in H.
  apply bind_Ok in H as ([tx2 vid] & Hveh & H).
  apply insert_vehicle_Ok in Hveh as (-> & -> & _).
  apply bind_Ok in H as (t1 & Hloop1 & H).
  apply bind_Ok in H as (t2 & Hloop2 & H).
  pose proof (service_loop_convertible _ _ _ _ _ Hloop1) as Hconv1.
  pose proof (custom_loop_convertible _ _ _ _ Hloop2) as Hconv2.
  apply service_loop in Hloop1 as (items & _ & _ & Hsame1 & _).
  apply custom_loop in Hloop2 as (miscs & _ & _ & Hsame2 & _).
  destruct Hsame1 as (Hc1 & Hv1 & Hs1 & Hb1 & Hi1 & Hset1).
  destruct Hsame2 as (Hc2 & Hv2 & Hs2 & Hb2 & Hi2 & Hset2).
  simpl in *.
  assert (customers st' = customers (tx t2) /\ vehicles st' = vehicles (tx t2) /\
          bookings st' = bookings (tx t2)) as (-> & -> & ->).
  { apply bind_Ok in H as ([tx4 invoice_id] & Hinv & H).
    assert (tx4 = st') as -> by (destruct (id_truthy _); by injection H).
    destruct (Num.float_gt_0 _).
    - apply bind_Ok in Hinv as ([tx4' id] & Hins & [= <- _]).
      by apply insert_invoice_Ok in Hins as (_ & -> & _).
    - by injection Hinv as <- _. }
  exists mv, bd. rewrite Hc2, Hc1, Hv2, Hv1, Hb2, Hb1.
  split_and!; try done.
  unfold requested_lines. apply Forall_app. split; done.
Qed.

(** Every line a completed submission asks for was accepted by its
    INSERT. *)
Lemma process_new_booking_storable (clk : Clock) (fields : Fields) (st st' : Store)
    (resp : Response) :
  process_new_booking clk fields st = Ok (st', resp) ->
  Forall (fun l => storable l = true) (requested_lines fields st).
Proof.
  unfold process_new_booking. cbv zeta.
  intros (bd & Hbd & H)%bind_Ok.
  unfold insert_customer, insert_booking in H. cbv zeta in H.
  apply bind_Ok in H as (mv & _ & H).
  apply bind_Ok in H as ([tx2 vid] & Hveh & H).
  apply insert_vehicle_Ok in Hveh as (-> & -> & _).
  apply bind_Ok in H as (t1 & Hloop1 & H).
  apply bind_Ok in H as (t2 & Hloop2 & _).
  apply service_loop_accepts in Hloop1. apply custom_loop_accepts in Hloop2.
  unfold requested_lines. apply Forall_app. simpl in *.
  split; (eapply Forall_impl; [eassumption |]); by intros l [_ ?].
Qed.

(** The stored mileage is within the range of an SQLite integer. *)
Lemma process_new_booking_mileage (clk : Clock) (fields : Fields) (st st' : Store)
    (resp : Response) :
  process_new_booking clk fields st = Ok (st', resp) ->
  forall n, Num.py_int (Str.strip (field fields "mileage" "0")) = Ok n ->
    Str.isdigit (Str.strip (field fields "mileage" "0")) = true ->
    Sql.in_range n = true.
Proof.
  unfold process_new_booking. cbv zeta.
  intros (bd & Hbd & H)%bind_Ok n Hn Hd.
  unfold insert_customer, insert_booking in H. cbv zeta in H.
  rewrite Hd, Hn in H. simpl in H.
  apply bind_Ok in H as ([tx2 vid] & Hveh & H).
  apply insert_vehicle_Ok in Hveh as (_ & _ & Hm). by apply Hm.
Qed.

(** An exception of a booking submission comes from an INSERT. *)
Lemma process_new_booking_raises (clk : Clock) (fields : Fields) (st : Store)
    (e : exn) :
  process_new_booking clk fields st = Raised e ->
  e = OverflowError \/ e = IntegrityError.
Proof.
  unfold process_new_booking. cbv zeta.
  rewrite booking_date_of_total.
  destruct (mileage_value (Str.strip (field fields "mileage" "0")))
    as (mv & -> & _).
  unfold insert_customer, insert_booking.
  repeat (rewrite result_bind_Ok; cbv beta iota zeta).
  unfold insert_vehicle. cbv zeta. simpl mileage.
  destruct (Sql.integer_or_null mv) as [mv'|e1] eqn:Hmv.
  2:{ simpl. intros [= <-]. destruct mv as [n|]; [|done]. simpl in Hmv.
      unfold Sql.integer in Hmv. destruct (Sql.in_range n); [done |].
      injection Hmv as <-. auto. }
  repeat (rewrite result_bind_Ok; cbv beta iota zeta).
  match goal with
  | |- context [for_each (service_item ?f ?b) ?l ?t] =>
      destruct (for_each (service_item f b) l t) as [t1|e1] eqn:Hloop1
  end.
  2:{ simpl. intros [= <-]. by eapply service_loop_raises. }
  rewrite result_bind_Ok.
  match goal with
  | |- context [for_each (custom_item ?f ?b) ?l ?t] =>
      destruct (for_each (custom_item f b) l t) as [t2|e2] eqn:Hloop2
  end.
  2:{ simpl. intros [= <-]. by eapply custom_loop_raises. }
  rewrite result_bind_Ok.
  destruct (Num.float_gt_0 _); simpl.
  - unfold insert_invoice, Sql.real_not_null. cbv zeta. simpl.
    destruct (PrimFloat.is_nan (acc_total_ex_vat t2)); simpl; [intros [= <-]; auto |].
    destruct (PrimFloat.is_nan (acc_total_vat t2)); simpl; [intros [= <-]; auto |].
    destruct (PrimFloat.is_nan (_ + _)); simpl; [intros [= <-]; auto |].
    destruct (negb _); done.
  - done.
Qed.

(* ===================================================================== *)
(** * The booking submission: invoice creation and custom items *)
(* ===================================================================== *)




Lemma scenario_custom (clk : Clock) :
  match process_new_booking clk
          (fields_of_pairs [("custom_name_1", "Tow fee"); ("custom_qty_1", "1");
                            ("custom_price_1", "50"); ("custom_vat_1", "")])
          init_store with
  | Ok (st', resp) =>
      resp = See_Other "/invoice/1" /\
      exists mi inv,
        misc_items st' = [mi] /\
        misc_item_row mi = ("Tow fee", (1, 50%float, 0.20%float)) /\
        invoices st' = [inv] /\
        total_ex_vat inv = 50%float /\
        total_vat inv = 10%float /\
        total_inc inv = 60%float
  | Raised _ => False
  end.
Proof.
  vm_compute. split; [reflexivity |]. eexists _, _. split_and!; reflexivity.
Qed.

Lemma scenario_unparsable (clk : Clock) :
  match process_new_booking clk unparsable_fields init_store with
  | Ok (st', resp) =>
      resp = See_Other "/invoice/1" /\
      exists mi inv,
        misc_items st' = [mi] /\
        misc_item_row mi = ("Tow fee", (1, 50%float, 0.20%float)) /\
        invoices st' = [inv] /\
        total_ex_vat inv = 50%float /\
        total_vat inv = 10%float /\
        total_inc inv = 60%float
  | Raised _ => False
  end.
Proof.
  vm_compute. split; [reflexivity |]. eexists _, _. split_and!; reflexivity.
Qed.

(** A number is equal to itself. *)
Lemma float_eqb_refl (x : float) :
  PrimFloat.is_nan x = false -> (x =? x)%float = true.
Proof. unfold PrimFloat.is_nan. by destruct (x =? x)%float. Qed.

(** The misc rows of a completed submission hold its custom lines. *)
Lemma process_new_booking_custom (clk : Clock) (fields : Fields) (st st' : Store)
    (resp : Response) (miscs : list MiscItem) :
  process_new_booking clk fields st = Ok (st', resp) ->
  misc_item_row <$> miscs = custom_rows fields ->
  Forall2 holds_custom_line miscs (custom_rows fields).
Proof.
  intros H%process_new_booking_storable Hrows.
  unfold requested_lines in H. apply Forall_app in H as [_ H].
  rewrite <- Hrows in H |- *.
  apply Forall2_fmap_r, Forall_Forall2_diag, Forall_forall. intros mi Hmi.
  rewrite Forall_forall in H.
  specialize (H (misc_item_row mi).2).
  unfold holds_custom_line, misc_item_row in *. simpl in *. split_and!; try done.
  apply float_eqb_refl.
  assert (storable (mi_quantity mi, mi_unit_price mi, mi_vat_rate mi) = true) as Hs.
  { apply H. rewrite <- list_fmap_compose. apply list_elem_of_fmap. by exists mi. }
  unfold storable in Hs. simpl in Hs.
  apply andb_true_iff in Hs as [_ Hs]. by apply negb_true_iff in Hs.
Qed.

(** C5. For every custom line item of a submission of a plain form (ASCII
    values of at most 4300 characters): a quantity that does not parse
    counts as 0, a price that does not parse as 0.0, an absent or
    unparsable VAT rate as the default 0.20 ([custom_row]).  When the
    submission is carried out, the misc rows it stores are, in order,
    the custom lines with a non-empty name, a quantity > 0 and a price
    > 0; these lines, after the catalog lines, and no other custom line
    make up the totals of the invoice; the other custom lines are
    skipped without an error.  In particular one custom item with
    quantity 1, price 50 and an empty VAT field gives 50.00, 10.00 and
    60.00, and so does the same item beside one whose quantity and one
    whose price do not parse. *)
Theorem C5_custom_items :
  (forall clk fields st st' resp,
      plain_form fields ->
      process_new_booking clk fields st = Ok (st', resp) ->
      let lines := (snd <$> catalog_rows fields (services st)) ++
                   (snd <$> custom_rows fields) in
      exists miscs,
        misc_items st' = misc_items st ++ miscs /\
        Forall2 holds_custom_line miscs (custom_rows fields) /\
        Forall (fun mi => mi_booking_id mi = next_rowid (b_id <$> bookings st) /\
                          mi_name mi <> "" /\ 0 < mi_quantity mi /\
                          Num.float_gt_0 (mi_unit_price mi) = true) miscs /\
        if Num.float_gt_0 (fsum (line_ex <$> lines)) then
          exists inv,
            invoices st' = invoices st ++ [inv] /\
            total_ex_vat inv = fsum (line_ex <$> lines) /\
            total_vat inv = fsum (line_vat_of <$> lines) /\
            total_inc inv = (total_ex_vat inv + total_vat inv)%float
        else invoices st' = invoices st)
  /\
  (forall clk, exists st' mi inv,
      process_new_booking clk
        (fields_of_pairs [("custom_name_1", "Tow fee"); ("custom_qty_1", "1");
                          ("custom_price_1", "50"); ("custom_vat_1", "")])
        init_store = Ok (st', See_Other "/invoice/1") /\
      misc_items st' = [mi] /\
      misc_item_row mi = ("Tow fee", (1, 50%float, 0.20%float)) /\
      invoices st' = [inv] /\
      total_ex_vat inv = 50%float /\
      total_vat inv = 10%float /\
      total_inc inv = 60%float)
  /\
  (forall clk, exists st' mi inv,
      process_new_booking clk unparsable_fields init_store
        = Ok (st', See_Other "/invoice/1") /\
      custom_row unparsable_fields 1 = Some ("Tow fee", (1, 50%float, 0.20%float)) /\
      custom_row unparsable_fields 2 = None /\
      custom_row unparsable_fields 3 = None /\
      misc_items st' = [mi] /\
      misc_item_row mi = ("Tow fee", (1, 50%float, 0.20%float)) /\
      invoices st' = [inv] /\
      total_ex_vat inv = 50%float /\
      total_vat inv = 10%float /\
      total_inc inv = 60%float).
Proof.
  split_and!.
  - intros clk fields st st' resp _ H lines.
    pose proof (fun miscs => process_new_booking_custom _ _ _ _ _ miscs H) as Hholds.
    apply process_new_booking_Ok in H. cbv zeta in H.
    destruct H as (c & v & b & items & miscs & _ & _ & _ & _ & _ & _ & _ & _
                   & _ & _ & _ & Hmiscs & Hbid & Hrows & Hinv).
    exists miscs. split; [done |]. split; [by apply Hholds |]. split.
    + apply Forall_forall. intros mi Hmi. split.
      { rewrite Forall_forall in Hbid. by apply Hbid. }
      assert (misc_item_row mi ∈ custom_rows fields) as Hrow.
      { rewrite <- Hrows. by apply list_elem_of_fmap_2. }
      unfold custom_rows in Hrow. apply list_elem_of_omap in Hrow as (i & _ & Hi).
      unfold custom_row in Hi. cbv zeta in Hi.
      case_decide as Hc; [|done]. injection Hi as Hn Hq Hp _.
      destruct Hc as (Hc1 & Hc2 & Hc3). by rewrite <- Hn, <- Hq, <- Hp in *.
    + subst lines. destruct (Num.float_gt_0 _); destruct Hinv as [-> _]; [|done].
      eexists. split; [reflexivity |]. done.
  - intros clk. pose proof (scenario_custom clk) as H.
    destruct (process_new_booking _ _ _) as [[st' resp]|]; [|done].
    destruct H as (-> & mi & inv & H). eauto.
  - intros clk. pose proof (scenario_unparsable clk) as H.
    destruct (process_new_booking _ _ _) as [[st' resp]|]; [|done].
    destruct H as (-> & mi & inv & H). exists st', mi, inv.
    split; [done |]. split; [by vm_compute |]. split; [by vm_compute |].
    split; [by vm_compute |]. exact H.
Qed.
(* ===================================================================== *)
(** * The invariants of the store are kept by every request *)
(* ===================================================================== *)

Lemma NoDup_snoc_fresh (ids : list Z) :
  NoDup ids -> NoDup (ids ++ [next_rowid ids]).
Proof.
  intros Hnd. destruct (next_rowid_fresh ids) as [_ Hfresh].
  apply NoDup_app. split_and!; [done | | apply NoDup_singleton].
  intros x Hx ->%list_elem_of_singleton. specialize (Hfresh _ Hx). lia.
Qed.

Lemma service_loop_ids (fields : Fields) (bid : Z) (svcs : list Service)
    (t t' : Totals) :
  for_each (service_item fields bid) svcs t = Ok t' ->
  NoDup (bi_id <$> booking_items (tx t)) ->
  NoDup (bi_id <$> booking_items (tx t')).
Proof.
  revert t. induction svcs as [|svc svcs IH]; intros t; simpl.
  - by intros [= <-].
  - intros (t1 & Hstep & Hrest)%bind_Ok Hnd. apply (IH _ Hrest).
    revert Hstep. unfold service_item. cbv zeta. rewrite py_int_default. simpl.
    destruct (0 <? _); [|by intros [= <-]].
    intros ([tx' id] & Hins & (x & _ & [= <-])%bind_Ok)%bind_Ok.
    apply insert_booking_item_Ok in Hins as (-> & Hnew & _).
    simpl. rewrite Hnew, fmap_app. by apply NoDup_snoc_fresh.
Qed.

Lemma custom_loop_ids (fields : Fields) (bid : Z) (l : list Z) (t t' : Totals) :
  for_each (custom_item fields bid) l t = Ok t' ->
  NoDup (mi_id <$> misc_items (tx t)) ->
  NoDup (mi_id <$> misc_items (tx t')).
Proof.
  revert t. induction l as [|i l IH]; intros t; simpl.
  - by intros [= <-].
  - intros (t1 & Hstep & Hrest)%bind_Ok Hnd. apply (IH _ Hrest).
    revert Hstep. unfold custom_item. cbv zeta.
    rewrite py_int_default, !py_float_default. simpl.
    destruct (negb _); [by intros [= <-] |].
    destruct (_ && _); [|by intros [= <-]].
    intros ([tx' id] & Hins & (x & _ & [= <-])%bind_Ok)%bind_Ok.
    apply insert_misc_item_Ok in Hins as (-> & Hnew & _).
    simpl. rewrite Hnew, fmap_app. by apply NoDup_snoc_fresh.
Qed.

Lemma process_new_booking_item_ids (clk : Clock) (fields : Fields) (st st' : Store)
    (resp : Response) :
  process_new_booking clk fields st = Ok (st', resp) ->
  NoDup (bi_id <$> booking_items st) ->
  NoDup (mi_id <$> misc_items st) ->
  NoDup (bi_id <$> booking_items st') /\ NoDup (mi_id <$> misc_items st').
Proof.
  unfold process_new_booking. cbv zeta.
  intros (bd & Hbd & H)%bind_Ok Hbi Hmi.
  unfold insert_customer, insert_booking in H. cbv zeta in H.
  destruct (mileage_value (Str.strip (field fields "mileage" "0")))
    as (mv & Hmv & _).
  rewrite Hmv in H. rewrite result_bind_Ok in H. cbv beta iota zeta in H.
  apply bind_Ok in H as ([tx2 vid] & Hveh & H).
  apply insert_vehicle_Ok in Hveh as (-> & -> & _).
  apply bind_Ok in H as (t1 & Hloop1 & H).
  apply bind_Ok in H as (t2 & Hloop2 & H).
  pose proof (service_loop_ids _ _ _ _ _ Hloop1 Hbi) as Hbi1.
  apply service_loop in Hloop1 as (items & _ & Hmi1 & _).
  simpl in Hmi1. rewrite <- Hmi1 in Hmi.
  pose proof (custom_loop_ids _ _ _ _ _ Hloop2 Hmi) as Hmi2.
  apply custom_loop in Hloop2 as (miscs & _ & Hbi2 & _).
  rewrite <- Hbi2 in Hbi1.
  assert (booking_items st' = booking_items (tx t2) /\
          misc_items st' = misc_items (tx t2)) as (-> & ->); [|done].
  apply bind_Ok in H as ([tx4 invoice_id] & Hinv & H).
  assert (tx4 = st') as -> by (destruct (id_truthy _); by injection H).
  destruct (Num.float_gt_0 _).
  - apply bind_Ok in Hinv as ([tx4' id] & Hins & [= <- _]).
    by apply insert_invoice_Ok in Hins as (_ & -> & _).
  - by injection Hinv as <- _.
Qed.

(** ** Submissions *)

Lemma submit_preserves_ids (clk : Clock) (fields : Fields) (st st' : Store)
    (resp : Response) :
  process_new_booking clk fields st = Ok (st', resp) ->
  unique_ids st -> unique_ids st'.
Proof.
  intros H (Hc & Hv & Hs & Hb & Hbi & Hmi & Hi).
  destruct (process_new_booking_item_ids _ _ _ _ _ H Hbi Hmi) as [Hbi' Hmi'].
  pose proof H as (mv & bd & Hc' & Hv' & Hb' & _)%process_new_booking_rows.
  apply process_new_booking_Ok in H. cbv zeta in H.
  destruct H as (c & v & b & items & miscs & _ & _ & Hs' & _ & _ & _ & _ & _
                 & _ & _ & _ & _ & _ & _ & Hinv).
  unfold unique_ids. rewrite Hc', Hv', Hb', Hs', !fmap_app. simpl.
  split_and!; try done; try by apply NoDup_snoc_fresh.
  destruct (Num.float_gt_0 _); destruct Hinv as [-> _]; [|done].
  rewrite fmap_app. simpl. by apply NoDup_snoc_fresh.
Qed.

Lemma submit_preserves_refs (clk : Clock) (fields : Fields) (st st' : Store)
    (resp : Response) :
  process_new_booking clk fields st = Ok (st', resp) ->
  referential_integrity st -> referential_integrity st'.
Proof.
  intros H (Hv & Hb & Hbi & Href).
  pose proof (submit_preserves_references _ _ _ _ _ H Href) as Href'.
  pose proof H as (mv & bd & Hc' & Hv' & Hb' & _)%process_new_booking_rows.
  apply process_new_booking_Ok in H. cbv zeta in H.
  destruct H as (c & v & b & items & miscs & _ & _ & Hs' & _ & _ & _ & _ & _
                 & Hitems & _ & Hrows & _).
  unfold referential_integrity. rewrite Hc', Hv', Hb', Hs', Hitems, !fmap_app.
  simpl. split_and!; [| | |done].
  - intros x [Hold | ->%list_elem_of_singleton]%elem_of_app; apply elem_of_app.
    + left. by apply Hv.
    + right. simpl. by left.
  - intros x [Hold | ->%list_elem_of_singleton]%elem_of_app.
    + destruct (Hb _ Hold) as (Hcust & veh & Hin & Hid & Hcid). split.
      * apply elem_of_app. by left.
      * exists veh. split_and!; [|done|done]. apply elem_of_app. by left.
    + simpl. split.
      * apply elem_of_app. right. by left.
      * eexists. split_and!; [apply elem_of_app; right; by left | done | done].
  - intros bi [Hold | Hnew]%elem_of_app; [by apply Hbi |].
    assert (booking_item_row bi ∈ catalog_rows fields (services st)) as Hrow.
    { rewrite <- Hrows. by apply list_elem_of_fmap_2. }
    unfold catalog_rows in Hrow.
    apply list_elem_of_fmap in Hrow as (svc & Heq & [_ Hsvc]%list_elem_of_filter).
    injection Heq as -> _. by apply list_elem_of_fmap_2.
Qed.

Lemma submit_preserves_items (clk : Clock) (fields : Fields) (st st' : Store)
    (resp : Response) :
  process_new_booking clk fields st = Ok (st', resp) ->
  items_sound st -> items_sound st'.
Proof.
  intros H (Hbi & Hmi).
  pose proof H as (mv & bd & _ & _ & _ & _ & _ & _ & Hconv)%process_new_booking_rows.
  unfold requested_lines in Hconv. apply Forall_app in Hconv as [Hconv1 Hconv2].
  rewrite Forall_forall in Hconv1, Hconv2.
  apply process_new_booking_Ok in H. cbv zeta in H.
  destruct H as (c & v & b & items & miscs & _ & _ & Hs' & _ & _ & _ & _ & _
                 & Hitems & _ & Hrows1 & Hmiscs & _ & Hrows2 & _).
  unfold items_sound. rewrite Hs', Hitems, Hmiscs. split.
  - intros bi [Hold | Hnew]%elem_of_app; [by apply Hbi |].
    assert (booking_item_row bi ∈ catalog_rows fields (services st)) as Hrow.
    { rewrite <- Hrows1. by apply list_elem_of_fmap_2. }
    assert (convertible (booking_item_row bi).2) as Hc.
    { apply Hconv1. by apply list_elem_of_fmap_2. }
    unfold catalog_rows in Hrow.
    apply list_elem_of_fmap in Hrow as (svc & Heq & [Hq Hsvc]%list_elem_of_filter).
    unfold booking_item_row in Heq, Hc. unfold convertible in Hc. simpl in Hc.
    injection Heq as Hid Hqty Hprice Hvat.
    split_and!; [by rewrite Hqty | done |]. exists svc. by rewrite Hid.
  - intros mi [Hold | Hnew]%elem_of_app; [by apply Hmi |].
    assert (misc_item_row mi ∈ custom_rows fields) as Hrow.
    { rewrite <- Hrows2. by apply list_elem_of_fmap_2. }
    assert (convertible (misc_item_row mi).2) as Hc.
    { apply Hconv2. by apply list_elem_of_fmap_2. }
    unfold convertible, misc_item_row in Hc. simpl in Hc.
    unfold custom_rows in Hrow. apply list_elem_of_omap in Hrow as (i & _ & Hi).
    unfold custom_row in Hi. cbv zeta in Hi.
    case_decide as Hcond; [|done]. injection Hi as Hn Hq Hp _.
    destruct Hcond as (Hc1 & Hc2 & Hc3). by rewrite <- Hn, <- Hq, <- Hp in *.
Qed.

(** The lines of earlier bookings are not touched by a submission. *)
Lemma submit_keeps_lines (clk : Clock) (fields : Fields) (st st' : Store)
    (resp : Response) (bid : Z) :
  process_new_booking clk fields st = Ok (st', resp) ->
  bid ∈ (b_id <$> bookings st) ->
  booking_lines bid st' = booking_lines bid st.
Proof.
  intros H Hbid. apply process_new_booking_Ok in H. cbv zeta in H.
  destruct H as (c & v & b & items & miscs & _ & _ & _ & _ & _ & _ & _ & _
                 & Hitems & Hall1 & _ & Hmiscs & Hall2 & _).
  destruct (next_rowid_fresh (b_id <$> bookings st)) as [_ Hfresh].
  specialize (Hfresh _ Hbid).
  unfold booking_lines. rewrite Hitems, Hmiscs, !filter_app.
  rewrite (filter_none _ items), (filter_none _ miscs), !app_nil_r; [done | |].
  - eapply Forall_impl; [exact Hall2 |]. simpl. intros mi ->. lia.
  - eapply Forall_impl; [exact Hall1 |]. simpl. intros bi ->. lia.
Qed.

Lemma submit_preserves_invoices (clk : Clock) (fields : Fields) (st st' : Store)
    (resp : Response) :
  valid_clock clk ->
  process_new_booking clk fields st = Ok (st', resp) ->
  references_bookings st ->
  invoices_sound st -> invoices_sound st'.
Proof.
  intros (_ & _ & Hclk) H Href (Hnd & Hinv).
  pose proof (process_new_booking_lines _ _ _ _ _ Href H) as Hlines.
  pose proof (fun bid => submit_keeps_lines _ _ _ _ _ bid H) as Hkeep.
  destruct (fresh_booking_id st Href) as (_ & _ & Hfresh).
  destruct Href as (_ & _ & Hrefi).
  apply process_new_booking_Ok in H. cbv zeta in H.
  destruct H as (c & v & b & items & miscs & _ & _ & _ & _ & _ & _ & _ & _
                 & _ & _ & _ & _ & _ & _ & H).
  unfold invoices_sound.
  destruct (Num.float_gt_0 _) eqn:Hgt; destruct H as [-> _].
  - split.
    + rewrite fmap_app. simpl. apply NoDup_app. split_and!;
        [done | | apply NoDup_singleton].
      intros x (i & -> & Hi)%list_elem_of_fmap Heq%list_elem_of_singleton.
      rewrite Forall_forall in Hfresh. by apply (Hfresh i Hi).
    + intros i [Hold | ->%list_elem_of_singleton]%elem_of_app.
      * rewrite Hkeep by (by apply Hrefi). by apply Hinv.
      * simpl. rewrite Hlines. split_and!; try done.
        exists (today_issue_date clk). done.
  - split; [done |]. intros i Hold.
    rewrite Hkeep by (by apply Hrefi). by apply Hinv.
Qed.

Lemma submit_preserves_statuses (clk : Clock) (fields : Fields) (st st' : Store)
    (resp : Response) :
  process_new_booking clk fields st = Ok (st', resp) ->
  references_bookings st ->
  statuses_sound st -> statuses_sound st'.
Proof.
  intros H Href (Hb & Hi & Hboth).
  destruct (fresh_booking_id st Href) as (_ & _ & Hfresh).
  rewrite Forall_forall in Hfresh.
  destruct Href as (_ & _ & Hrefi).
  destruct (next_rowid_fresh (b_id <$> bookings st)) as [_ Hlt].
  apply process_new_booking_Ok in H. cbv zeta in H.
  destruct H as (c & v & b & items & miscs & _ & _ & _ & _ & Hb' & Hbid & _ & Hst
                 & _ & _ & _ & _ & _ & _ & H).
  assert (forall i, i ∈ invoices st' ->
            i ∈ invoices st \/
            (i_booking_id i = b_id b /\ i_status i = "unpaid")) as Hcases.
  { destruct (Num.float_gt_0 _); destruct H as [-> _]; [|auto].
    intros i [Hold | ->%list_elem_of_singleton]%elem_of_app; [auto |].
    right. simpl. by rewrite Hbid. }
  unfold statuses_sound. rewrite Hb'. split_and!.
  - intros x [Hold | ->%list_elem_of_singleton]%elem_of_app; [by apply Hb | auto].
  - intros i [Hold | [_ ->]]%Hcases; [by apply Hi | auto].
  - intros i x [Hold | [Hibid Hunpaid]]%Hcases
      [Hbold | ->%list_elem_of_singleton]%elem_of_app Heq.
    + by apply Hboth.
    + exfalso. apply (Hfresh i Hold). by rewrite Heq, Hbid.
    + exfalso. assert (b_id x < b_id b); [|lia].
      rewrite Hbid. apply Hlt. by apply list_elem_of_fmap_2.
    + rewrite Hunpaid, Hst. split; discriminate.
Qed.

(** ** Cancellations *)

Lemma canceled_bookings_elem (bid : Z) (st : Store) (b' : Booking) :
  b' ∈ bookings (canceled bid st) ->
  exists b, b ∈ bookings st /\ booking_core b' = booking_core b /\
    ((b_id b = bid /\ b_status b' = "canceled") \/ (b_id b <> bid /\ b' = b)).
Proof.
  simpl. intros (b & -> & Hb)%list_elem_of_fmap. exists b.
  case_decide; auto.
Qed.

Lemma canceled_invoices_elem (bid : Z) (st : Store) (i' : Invoice) :
  i' ∈ invoices (canceled bid st) ->
  exists i, i ∈ invoices st /\ invoice_core i' = invoice_core i /\
    ((i_booking_id i = bid /\ i_status i' = "canceled") \/
     (i_booking_id i <> bid /\ i' = i)).
Proof.
  simpl. intros (i & -> & Hi)%list_elem_of_fmap. exists i.
  case_decide; auto.
Qed.

Lemma canceled_booking_lines (bid bid' : Z) (st : Store) :
  booking_lines bid' (canceled bid st) = booking_lines bid' st.
Proof. reflexivity. Qed.

Lemma canceled_invoice_booking_ids (bid : Z) (st : Store) :
  i_booking_id <$> invoices (canceled bid st) = i_booking_id <$> invoices st.
Proof.
  simpl. rewrite <- list_fmap_compose. apply list_fmap_ext.
  intros k i _. simpl. by case_decide.
Qed.

Lemma cancel_preserves_ids (bid : Z) (st : Store) :
  unique_ids st -> unique_ids (canceled bid st).
Proof.
  intros (Hc & Hv & Hs & Hb & Hbi & Hmi & Hi). unfold unique_ids, canceled.
  rewrite update_status_booking_ids, update_status_invoice_ids.
  split_and!; done.
Qed.

Lemma cancel_preserves_refs (bid : Z) (st : Store) :
  referential_integrity st -> referential_integrity (canceled bid st).
Proof.
  intros (Hv & Hb & Hbi & Href). unfold referential_integrity.
  split_and!; [exact Hv | | exact Hbi | by apply cancel_preserves_references].
  intros b' (b & Hin & Hcore & _)%canceled_bookings_elem.
  injection Hcore as _ -> -> _ _. by apply Hb.
Qed.

Lemma cancel_preserves_invoices (bid : Z) (st : Store) :
  invoices_sound st -> invoices_sound (canceled bid st).
Proof.
  intros (Hnd & Hinv). unfold invoices_sound.
  rewrite canceled_invoice_booking_ids. split; [done |].
  intros i' (i & Hin & Hcore & _)%canceled_invoices_elem.
  injection Hcore as _ -> _ -> -> -> ->. rewrite canceled_booking_lines.
  by apply Hinv.
Qed.

Lemma cancel_preserves_statuses (bid : Z) (st : Store) :
  statuses_sound st -> statuses_sound (canceled bid st).
Proof.
  intros (Hb & Hi & Hboth). unfold statuses_sound. split_and!.
  - intros b' (b & Hin & _ & [[_ ->] | [_ ->]])%canceled_bookings_elem; auto.
  - intros i' (i & Hin & _ & [[_ ->] | [_ ->]])%canceled_invoices_elem; auto.
  - intros i' b' (i & Hini & Hci & Hi')%canceled_invoices_elem
      (b & Hinb & Hcb & Hb')%canceled_bookings_elem Heq.
    injection Hci as _ Hibid _ _ _ _ _. injection Hcb as Hbid _ _ _ _.
    rewrite Hibid, Hbid in Heq.
    destruct Hi' as [[Hi1 Hi2] | [Hi1 ->]], Hb' as [[Hb1 Hb2] | [Hb1 ->]];
      try congruence.
    + by rewrite Hi2, Hb2.
    + by apply Hboth.
Qed.

(** ** Every store the server reaches is consistent *)

Lemma consistent_init : consistent init_store.
Proof.
  split.
  - unfold unique_ids. simpl. split_and!; try apply NoDup_nil_2.
    apply (bool_decide_unpack _). by vm_compute.
  - split_and!; try (intros x Hx; by apply elem_of_nil in Hx).
    split_and!; intros x Hx; by apply elem_of_nil in Hx.
  - split; intros x Hx; by apply elem_of_nil in Hx.
  - split; [apply NoDup_nil_2 |]. intros x Hx. by apply elem_of_nil in Hx.
  - split; [apply NoDup_nil_2 |]. intros x Hx. by apply elem_of_nil in Hx.
  - split_and!; try (intros x Hx; by apply elem_of_nil in Hx).
    intros i b Hi. by apply elem_of_nil in Hi.
  - by split.
Qed.

Lemma submit_preserves_consistent (clk : Clock) (fields : Fields) (st st' : Store)
    (resp : Response) :
  valid_clock clk ->
  process_new_booking clk fields st = Ok (st', resp) ->
  consistent st -> consistent st'.
Proof.
  intros Hclk H [Hids Hrefs Hitems Hinv Hnum Hst [Hsvc Hset]].
  pose proof Hrefs as (_ & _ & _ & Href).
  split.
  - eauto using submit_preserves_ids.
  - eauto using submit_preserves_refs.
  - eauto using submit_preserves_items.
  - eauto using submit_preserves_invoices.
  - eauto using submit_preserves_numbered.
  - eauto using submit_preserves_statuses.
  - apply process_new_booking_Ok in H. cbv zeta in H.
    destruct H as (c & v & b & items & miscs & _ & _ & Hs' & Hset' & _).
    split; congruence.
Qed.

Lemma cancel_preserves_consistent (bid : Z) (st : Store) :
  consistent st -> consistent (canceled bid st).
Proof.
  intros [Hids Hrefs Hitems Hinv Hnum Hst Hseed].
  split.
  - by apply cancel_preserves_ids.
  - by apply cancel_preserves_refs.
  - exact Hitems.
  - by apply cancel_preserves_invoices.
  - by apply cancel_preserves_numbered.
  - by apply cancel_preserves_statuses.
  - exact Hseed.
Qed.

Lemma do_POST_Ok (clk : Clock) (path : string) (fields : Fields) (st st' : Store)
    (resp : Response) :
  do_POST clk path fields st = Ok (st', resp) ->
  (path = "/booking/new" /\ process_new_booking clk fields st = Ok (st', resp)) \/
  (path = "/booking/cancel" /\
   exists booking_id,
     Num.py_int (field fields "booking_id" "") = Ok booking_id /\
     st' = canceled booking_id st /\ resp = See_Other "/bookings") \/
  (st' = st /\ exists code message, resp = Send_Error code message).
Proof.
  unfold do_POST. repeat case_decide.
  - auto.
  - intros [(_ & -> & ->) | (bid & Hbid & -> & ->)]%process_cancel_booking_Ok.
    + right. right. eauto.
    + right. left. eauto.
  - intros [= <- <-]. right. right. eauto.
Qed.

Lemma reachable_consistent (st : Store) : reachable st -> consistent st.
Proof.
  induction 1 as [|clk path fields st st' resp _ IH Hclk Hpost].
  - apply consistent_init.
  - apply do_POST_Ok in Hpost
      as [[_ H] | [(_ & bid & _ & -> & _) | [-> _]]].
    + eauto using submit_preserves_consistent.
    + by apply cancel_preserves_consistent.
    + done.
Qed.
(* ===================================================================== *)
(** * What holds in every store the server reaches *)
(* ===================================================================== *)

(** X1. In every store the server reaches the ids of each table are
    distinct and every foreign key names an existing row: a vehicle its
    customer, a booking its customer and a vehicle of that customer, a
    booking item its booking and its service, a misc item and an invoice
    their booking. *)
Theorem reachable_ids_and_references (st : Store) :
  reachable st -> unique_ids st /\ referential_integrity st.
Proof. intros [Hids Hrefs _ _ _ _ _]%reachable_consistent. done. Qed.

(** X2. In every store the server reaches a booking has at most one
    invoice, and the totals of every invoice, old or new, canceled or
    not, are the sums over the lines stored for its booking: the total
    before VAT is positive and the total including VAT is the sum of the
    other two. *)
Theorem reachable_invoice_totals (st : Store) :
  reachable st ->
  (forall i j, i ∈ invoices st -> j ∈ invoices st ->
     i_booking_id i = i_booking_id j -> i = j) /\
  (forall i, i ∈ invoices st ->
     total_ex_vat i = fsum (line_ex <$> booking_lines (i_booking_id i) st) /\
     total_vat i = fsum (line_vat_of <$> booking_lines (i_booking_id i) st) /\
     total_inc i = (total_ex_vat i + total_vat i)%float /\
     Num.float_gt_0 (total_ex_vat i) = true).
Proof.
  intros [_ _ _ [Hnd Hinv] _ _ _]%reachable_consistent. split.
  - intros i j Hi Hj Heq.
    apply list_elem_of_lookup in Hi as [ki Hi], Hj as [kj Hj].
    assert (ki = kj) as ->; [|congruence].
    eapply NoDup_lookup; [exact Hnd | |]; rewrite list_lookup_fmap.
    + by rewrite Hi.
    + rewrite Hj. simpl. by rewrite Heq.
  - intros i Hi. destruct (Hinv i Hi) as (? & ? & ? & ? & _). done.
Qed.

(** X3. In every store the server reaches a booking is booked or canceled,
    an invoice is unpaid or canceled, and an invoice is canceled exactly
    when its booking is. *)
Theorem reachable_statuses (st : Store) :
  reachable st ->
  (forall b, b ∈ bookings st -> b_status b = "booked" \/ b_status b = "canceled") /\
  (forall i, i ∈ invoices st -> i_status i = "unpaid" \/ i_status i = "canceled") /\
  (forall i b, i ∈ invoices st -> b ∈ bookings st -> i_booking_id i = b_id b ->
     (i_status i = "canceled" <-> b_status b = "canceled")).
Proof. intros [_ _ _ _ _ Hst _]%reachable_consistent. exact Hst. Qed.

(** X4. No request changes the catalog or the settings: in every store the
    server reaches they are the rows [init_db] seeded, so the payment
    terms are 14 days. *)
Theorem reachable_catalog_and_settings (st : Store) :
  reachable st ->
  services st = services init_store /\
  settings st = settings init_store /\
  get_settings st = get_settings init_store /\
  payment_terms_days st = 14.
Proof.
  intros [_ _ _ _ _ _ [Hsvc Hset]]%reachable_consistent.
  assert (get_settings st = get_settings init_store) as Hget.
  { unfold get_settings. by rewrite Hset. }
  split_and!; try done.
  unfold payment_terms_days. rewrite Hget. by vm_compute.
Qed.

(** X5. In every store the server reaches a booking item has a positive
    quantity and the unit price and VAT rate of the catalog service it
    names, whatever the form sent; a misc item has a name, a positive
    quantity and a positive price. *)
Theorem reachable_items_priced_from_catalog (st : Store) :
  reachable st ->
  (forall bi, bi ∈ booking_items st ->
     0 < bi_quantity bi /\
     exists s, s ∈ services init_store /\ s_id s = bi_service_id bi /\
               bi_unit_price bi = s_unit_price s /\
               bi_vat_rate bi = s_vat_rate s) /\
  (forall mi, mi ∈ misc_items st ->
     mi_name mi <> "" /\ 0 < mi_quantity mi /\
     Num.float_gt_0 (mi_unit_price mi) = true).
Proof.
  intros [_ _ [Hbi Hmi] _ _ _ [Hsvc _]]%reachable_consistent. split.
  - intros bi Hin. destruct (Hbi bi Hin) as (Hq & _ & s & Hs & H).
    rewrite Hsvc in Hs. eauto.
  - intros mi Hin. destruct (Hmi mi Hin) as (? & ? & _ & ?). done.
Qed.

(** ** What no request undoes *)

Lemma keeps_refl (st : Store) : keeps st st.
Proof. unfold keeps. split_and!; try done; eauto. Qed.

Lemma keeps_trans (st1 st2 st3 : Store) :
  keeps st1 st2 -> keeps st2 st3 -> keeps st1 st3.
Proof.
  intros (Hc1 & Hv1 & Hs1 & Hset1 & Hbi1 & Hmi1 & Hb1 & Hi1)
         (Hc2 & Hv2 & Hs2 & Hset2 & Hbi2 & Hmi2 & Hb2 & Hi2).
  unfold keeps. split_and!; try (by etrans); try congruence.
  - intros k b Hk. destruct (Hb1 k b Hk) as (b' & Hk' & Hcore' & Hst').
    destruct (Hb2 k b' Hk') as (b'' & Hk'' & Hcore'' & Hst'').
    exists b''. split_and!; [done | congruence |].
    destruct Hst'' as [-> | ->]; auto.
  - intros k i Hk. destruct (Hi1 k i Hk) as (i' & Hk' & Hcore' & Hst').
    destruct (Hi2 k i' Hk') as (i'' & Hk'' & Hcore'' & Hst'').
    exists i''. split_and!; [done | congruence |].
    destruct Hst'' as [-> | ->]; auto.
Qed.

Lemma submit_keeps (clk : Clock) (fields : Fields) (st st' : Store)
    (resp : Response) :
  process_new_booking clk fields st = Ok (st', resp) -> keeps st st'.
Proof.
  intros H. apply process_new_booking_Ok in H. cbv zeta in H.
  destruct H as (c & v & b & items & miscs & Hc & Hv & Hs & Hset & Hb & _ & _ & _
                 & Hitems & _ & _ & Hmiscs & _ & _ & Hinv).
  unfold keeps. rewrite Hc, Hv, Hs, Hset, Hb, Hitems, Hmiscs.
  split_and!; try done; try (by apply prefix_app_r).
  - intros k x Hk. exists x. split_and!; [|done|auto].
    by apply lookup_app_l_Some.
  - intros k x Hk. exists x. split_and!; [|done|auto].
    destruct (Num.float_gt_0 _); destruct Hinv as [-> _]; [|done].
    by apply lookup_app_l_Some.
Qed.

Lemma cancel_keeps (bid : Z) (st : Store) : keeps st (canceled bid st).
Proof.
  unfold keeps. simpl. split_and!; try done.
  - intros k b Hk. rewrite list_lookup_fmap, Hk. simpl.
    eexists. split; [done |]. case_decide; simpl; auto.
  - intros k i Hk. rewrite list_lookup_fmap, Hk. simpl.
    eexists. split; [done |]. case_decide; simpl; auto.
Qed.

(** X6. Whatever POST requests the server completes, from any store: no row
    is deleted or moved, no customer, vehicle, catalog, settings or line
    item row is changed, and a booking or an invoice changes in its
    status only, which stays as it was or becomes canceled; so a
    canceled booking or invoice stays canceled and no amount, date or
    invoice number is ever rewritten. *)
Theorem requests_keep_rows (st st' : Store) :
  rtc post_step st st' -> keeps st st'.
Proof.
  induction 1 as [st | st1 st2 st3 (clk & path & fields & resp & Hpost) _ IH].
  - apply keeps_refl.
  - apply keeps_trans with st2; [|done].
    apply do_POST_Ok in Hpost
      as [[_ H] | [(_ & bid & _ & -> & _) | [-> _]]].
    + eauto using submit_keeps.
    + apply cancel_keeps.
    + apply keeps_refl.
Qed.
(* ===================================================================== *)
(** * The invoice page *)
(* ===================================================================== *)

Lemma filter_unique {A : Type} (f : A -> Z) (l : list A) (x : A) :
  NoDup (f <$> l) -> x ∈ l -> filter (fun y => f y = f x) l = [x].
Proof.
  induction l as [|a l IH]; intros Hnd Hx; [by apply elem_of_nil in Hx |].
  rewrite fmap_cons in Hnd. apply NoDup_cons in Hnd as [Hnotin Hnd].
  rewrite filter_cons. apply elem_of_cons in Hx as [<- | Hx].
  - rewrite decide_True by done. f_equal. apply filter_none, Forall_forall.
    intros y Hy Heq. apply Hnotin. rewrite <- Heq. by apply list_elem_of_fmap_2.
  - rewrite decide_False; [by apply IH |].
    intros Heq. apply Hnotin. rewrite Heq. by apply list_elem_of_fmap_2.
Qed.

Lemma filter_key {A : Type} (f : A -> Z) (l : list A) (x : A) (k : Z) :
  NoDup (f <$> l) -> x ∈ l -> f x = k -> filter (fun y => f y = k) l = [x].
Proof. intros Hnd Hx <-. by apply filter_unique. Qed.

Lemma filter_no_key {A : Type} (f : A -> Z) (l : list A) (k : Z) :
  k ∉ (f <$> l) -> filter (fun y => f y = k) l = [].
Proof.
  intros Hk. apply filter_none, Forall_forall. intros y Hy Heq. apply Hk.
  rewrite <- Heq. by apply list_elem_of_fmap_2.
Qed.

Lemma bind_one {A B : Type} (x : A) (f : A -> list B) : [x] ≫= f = f x.
Proof. rewrite bind_cons. apply app_nil_r. Qed.

(** The join of [handle_invoice] finds the invoice, its booking, and
    the customer and the vehicle of the booking. *)
Lemma invoice_join_consistent (st : Store) (i : Invoice) :
  consistent st -> i ∈ invoices st ->
  exists b c v,
    invoice_join (i_id i) st = Some (i, b, c, v) /\
    b ∈ bookings st /\ b_id b = i_booking_id i /\
    c ∈ customers st /\ c_id c = b_customer_id b /\
    v ∈ vehicles st /\ v_id v = b_vehicle_id b.
Proof.
  intros [Hids Hrefs _ _ _ _ _] Hin.
  destruct Hids as (Hc & Hv & _ & Hb & _ & _ & Hi).
  destruct Hrefs as (_ & Hrb & _ & _ & _ & Hri).
  pose proof (Hri i Hin) as (b & Hbid & Hbin)%list_elem_of_fmap.
  pose proof (Hrb b Hbin) as [(c & Hcid & Hcin)%list_elem_of_fmap
                                (v & Hvin & Hvid & _)].
  exists b, c, v. split_and!; try done.
  unfold invoice_join.
  rewrite (filter_unique i_id _ i Hi Hin), bind_one.
  rewrite (filter_key b_id _ b _ Hb Hbin) by done.
  rewrite bind_one.
  rewrite (filter_key c_id _ c _ Hc Hcin) by done.
  rewrite bind_one.
  rewrite (filter_key v_id _ v _ Hv Hvin) by done.
  done.
Qed.

Lemma invoice_join_None (invoice_id : Z) (st : Store) :
  invoice_id ∉ (i_id <$> invoices st) -> invoice_join invoice_id st = None.
Proof. intros H. unfold invoice_join. by rewrite filter_no_key. Qed.

(** The line items of the page are the lines stored for the booking. *)
Lemma invoice_items_lines (booking_id : Z) (st : Store) :
  consistent st ->
  (fun item => (item.1.1.2, item.1.2, item.2)) <$> invoice_items booking_id st
  = booking_lines booking_id st.
Proof.
  intros [Hids _ [Hbi _] _ _ _ _]. destruct Hids as (_ & _ & Hs & _).
  unfold invoice_items, booking_lines. rewrite fmap_app. f_equal.
  - assert (forall bi, bi ∈ filter (fun bi => bi_booking_id bi = booking_id)
                              (booking_items st) -> bi ∈ booking_items st) as Hsub.
    { intros bi [_ ?]%list_elem_of_filter. done. }
    induction (filter _ (booking_items st)) as [|bi l IH]; [done |].
    rewrite bind_cons, fmap_app, fmap_cons, IH by (intros; apply Hsub; by right).
    destruct (Hbi bi (Hsub bi ltac:(left))) as (_ & _ & s & Hsin & Hsid & _).
    rewrite (filter_key s_id _ s _ Hs Hsin), bind_one by done. done.
  - rewrite <- list_fmap_compose. done.
Qed.

Lemma invoice_items_convertible (booking_id : Z) (st : Store) :
  consistent st ->
  Forall (fun item => is_ok (Num.float_of_int item.1.1.2) = true)
         (invoice_items booking_id st).
Proof.
  intros Hcons. pose proof (invoice_items_lines booking_id st Hcons) as Hlines.
  destruct Hcons as [_ _ [Hbi Hmi] _ _ _ _].
  apply Forall_forall. intros item Hitem.
  assert ((item.1.1.2, item.1.2, item.2) ∈ booking_lines booking_id st) as Hl.
  { rewrite <- Hlines.
    apply (list_elem_of_fmap_2 (fun item => (item.1.1.2, item.1.2, item.2))), Hitem. }
  unfold booking_lines in Hl. apply elem_of_app in Hl as [Hl | Hl].
  - apply list_elem_of_fmap in Hl as (bi & Heq & [_ Hin]%list_elem_of_filter).
    injection Heq as -> _ _. by apply Hbi.
  - apply list_elem_of_fmap in Hl as (mi & Heq & [_ Hin]%list_elem_of_filter).
    injection Heq as -> _ _. by apply Hmi.
Qed.

Lemma item_row_loop (items : list (string * string * Z * float * float))
    (rows : list InvoiceLine) (names : list string) :
  Forall (fun item => is_ok (Num.float_of_int item.1.1.2) = true) items ->
  for_each item_row items (rows, names) =
  Ok (rows ++ (invoice_line <$> items),
      names ++ ((fun item => item.1.1.1.1) <$> items)).
Proof.
  revert rows names. induction items as [|item items IH]; intros rows names Hall.
  - simpl. by rewrite !app_nil_r.
  - apply Forall_cons in Hall as [Hc Hall].
    destruct item as [[[[name desc] qty] price] vat]. simpl in Hc |- *.
    destruct (int_mul_float_cases qty price) as [[_ ->] | [Hbad _]]; [|congruence].
    simpl. rewrite IH by done. by rewrite <- !app_assoc.
Qed.

Lemma add_days_in_range (d : Date.date) (n : Z) :
  Date.valid d = true -> 0 <= n <= 360 ->
  Date.toordinal d + 360 <= Date._MAXORDINAL ->
  Date.add_days d n = Ok (Date._ord2ymd (Date.toordinal d + n)).
Proof.
  intros Hv Hn Hmax. pose proof (toordinal_bounds d Hv) as Hb.
  unfold Date.add_days.
  destruct (Z.ltb_spec 999999999 (Z.abs n)) as [?|_]; [lia |].
  destruct (Z.ltb_spec 0 (Date.toordinal d + n)) as [_|?]; [|lia].
  destruct (Z.leb_spec (Date.toordinal d + n) Date._MAXORDINAL) as [_|?]; [|lia].
  done.
Qed.

Lemma service_interval_months_range (names : list string) :
  service_interval_months 12 names = 6 \/ service_interval_months 12 names = 12.
Proof.
  induction names as [|name names IH]; simpl; [auto |].
  destruct (Str.contains _ _); auto.
Qed.

(** The page [handle_invoice] renders for an invoice of a consistent
    store, field by field. *)
Lemma handle_invoice_consistent (st : Store) (i : Invoice) (d : Date.date) :
  consistent st -> i ∈ invoices st ->
  Date.valid d = true -> issue_date i = Date.isoformat d ->
  Date.toordinal d + 360 <= Date._MAXORDINAL ->
  handle_invoice (i_id i) st =
  Ok (Respond_Invoice
        {| p_invoice_number := invoice_number i;
           p_issue_date := issue_date i;
           due_date := Date.isoformat (Date._ord2ymd (Date.toordinal d + 14));
           next_service_date :=
             Date.isoformat
               (Date._ord2ymd
                  (Date.toordinal d +
                   30 * service_interval_months 12
                          ((fun item => item.1.1.1.1)
                             <$> invoice_items (i_booking_id i) st)));
           items_rows := invoice_line <$> invoice_items (i_booking_id i) st;
           p_total_ex := total_ex_vat i;
           p_total_vat := total_vat i;
           p_total_inc := total_inc i |}).
Proof.
  intros Hcons Hin Hv Hiso Hmax.
  destruct (invoice_join_consistent st i Hcons Hin)
    as (b & c & v & Hjoin & _ & Hbid & _).
  unfold handle_invoice. rewrite row_id_held by (by apply list_elem_of_fmap_2).
  rewrite result_bind_Ok. cbv beta. rewrite Hjoin, Hbid.
  rewrite item_row_loop by (by apply invoice_items_convertible).
  rewrite result_bind_Ok. cbv beta iota zeta. simpl app.
  assert (get_settings st = get_settings init_store) as Hget.
  { unfold get_settings. destruct Hcons as [_ _ _ _ _ _ [_ ->]]. done. }
  rewrite Hget.
  assert (except_ValueError
            (match default (Some "14")
                     (get_settings init_store !! "payment_terms_days") with
             | Some s => Num.py_int s
             | None => Raised TypeError
             end) 14 = Ok 14) as -> by (by vm_compute).
  rewrite result_bind_Ok.
  rewrite Hiso, strptime_isoformat by done. rewrite result_bind_Ok.
  rewrite (add_days_in_range d 14) by (done || lia). rewrite result_bind_Ok.
  rewrite add_days_in_range; [done | done | | done].
  destruct (service_interval_months_range
              ((fun item => item.1.1.1.1) <$> invoice_items (i_booking_id i) st))
    as [-> | ->]; lia.
Qed.

(** X7. In every store the server reaches, the page of an invoice issued at
    least 360 days before the end of the year 9999 is rendered: it shows
    the number, the issue date and the totals of the invoice, a due date
    14 days after the issue date, and line items whose totals before VAT
    and whose VAT add up, in order from 0.0, to the totals shown. *)
Theorem reachable_invoice_page (st : Store) (i : Invoice) :
  reachable st -> i ∈ invoices st ->
  Date.toordinal (date_of_iso (issue_date i)) + 360 <= Date._MAXORDINAL ->
  exists page due_dt,
    handle_invoice (i_id i) st = Ok (Respond_Invoice page) /\
    p_invoice_number page = invoice_number i /\
    p_issue_date page = issue_date i /\
    p_total_ex page = total_ex_vat i /\
    p_total_vat page = total_vat i /\
    p_total_inc page = total_inc i /\
    Date.add_days (date_of_iso (issue_date i)) 14 = Ok due_dt /\
    due_date page = Date.isoformat due_dt /\
    fsum (line_total_ex <$> items_rows page) = p_total_ex page /\
    fsum (line_vat <$> items_rows page) = p_total_vat page /\
    Forall (fun l => line_total_inc l = (line_total_ex l + line_vat l)%float)
           (items_rows page).
Proof.
  intros Hcons%reachable_consistent Hin Hmax.
  pose proof Hcons as [_ _ _ [_ Hinv] _ _ _].
  destruct (Hinv i Hin) as (Hex & Hvat & _ & _ & d & Hv & Hiso).
  assert (date_of_iso (issue_date i) = d) as Hd.
  { unfold date_of_iso. by rewrite Hiso, strptime_isoformat. }
  rewrite Hd in *.
  eexists _, _. split; [by apply (handle_invoice_consistent st i d) |].
  simpl. split_and!; try done.
  - by apply add_days_in_range.
  - rewrite Hex, <- (invoice_items_lines _ _ Hcons), <- !list_fmap_compose.
    f_equal. apply list_fmap_ext. by intros k [[[[??]?]?]?] _.
  - rewrite Hvat, <- (invoice_items_lines _ _ Hcons), <- !list_fmap_compose.
    f_equal. apply list_fmap_ext. by intros k [[[[??]?]?]?] _.
  - apply Forall_fmap, Forall_forall. by intros [[[[??]?]?]?] _.
Qed.

(** X8. In every store the server reaches, the answer to a request for the
    invoice page of an id in the range of an SQLite integer is 404
    Invoice not found exactly when no invoice has the id. *)
Theorem reachable_invoice_not_found (st : Store) (invoice_id : Z) :
  reachable st ->
  - 2 ^ 63 <= invoice_id < 2 ^ 63 ->
  (handle_invoice invoice_id st = Ok (Send_Error 404 "Invoice not found") <->
   invoice_id ∉ (i_id <$> invoices st)).
Proof.
  intros Hcons%reachable_consistent Hrange. split.
  - intros H (i & -> & Hin)%list_elem_of_fmap.
    destruct (invoice_join_consistent st i Hcons Hin) as (b & c & v & Hjoin & _).
    unfold handle_invoice in H. rewrite row_id_in_range in H by done.
    rewrite result_bind_Ok in H. cbv beta in H. rewrite Hjoin in H.
    repeat (apply bind_Ok in H as (? & _ & H); try destruct x as [? ?]).
    done.
  - intros H. unfold handle_invoice. rewrite row_id_in_range by done.
    rewrite result_bind_Ok. cbv beta. by rewrite invoice_join_None.
Qed.
(* ===================================================================== *)
(** * [do_GET]: the route to an invoice *)
(* ===================================================================== *)

Lemma digits_go_value (acc : N) (cnt : nat) (s : string) :
  Str.forallb Str.is_digit s = true ->
  Num.digits_go acc cnt s = (dec_value_go acc s, (cnt + String.length s)%nat, "").
Proof.
  revert acc cnt. induction s as [|c s IH]; intros acc cnt; simpl.
  - intros _. by rewrite Nat.add_0_r.
  - intros [Hc Hs]%andb_true_iff. rewrite Hc, IH by done. by rewrite Nat.add_succ_r.
Qed.

(** [int(s)] on a string of digits is the number they write. *)
Lemma py_int_digits (s : string) :
  Str.isdigit s = true -> Num.py_int s = Ok (Z.of_N (dec_value s)).
Proof.
  destruct s as [|c s]; [done |]. unfold Str.isdigit. intros Hall.
  unfold Num.py_int.
  rewrite int_strip_nonspace by (eapply forallb_impl; [apply digit_not_int_space | done]).
  pose proof Hall as [Hc Hs]%andb_true_iff.
  rewrite digit_not_sign by done. unfold Num.digitpart. rewrite Hc.
  by rewrite digits_go_value.
Qed.

Lemma py_int_minus_digits (s : string) :
  Str.isdigit s = true -> Num.py_int ("-" +:+ s) = Ok (- Z.of_N (dec_value s)).
Proof.
  destruct s as [|c s]; [done |]. unfold Str.isdigit. intros Hall.
  unfold Num.py_int. rewrite string_app_cons, string_app_nil_l.
  rewrite int_strip_nonspace.
  - simpl Num.sign. pose proof Hall as [Hc Hs]%andb_true_iff.
    unfold Num.digitpart. rewrite Hc. by rewrite digits_go_value.
  - change (Str.forallb (fun c => negb (Num.is_space c)) (String c s) = true).
    eapply forallb_impl; [apply digit_not_int_space | done].
Qed.

Lemma pretty_N_isdigit (n : N) : Str.isdigit (pretty n) = true.
Proof.
  pose proof (pretty_N_nonempty n) as Hlen. pose proof (pretty_N_digits n) as Hd.
  destruct (pretty n) as [|c s]; [simpl in Hlen; lia | exact Hd].
Qed.

(** [int(str(n))] is [n]. *)
Lemma py_int_of_Z (n : Z) : Num.py_int (Str.of_Z n) = Ok n.
Proof.
  destruct n as [|p|p].
  - reflexivity.
  - change (Str.of_Z (Z.pos p)) with (pretty (N.pos p)).
    by rewrite py_int_digits, pretty_N_value by apply pretty_N_isdigit.
  - change (Str.of_Z (Z.neg p)) with ("-" +:+ pretty (N.pos p)).
    by rewrite py_int_minus_digits, pretty_N_value by apply pretty_N_isdigit.
Qed.






(* ===================================================================== *)
(** * The invoice list and the booking list *)
(* ===================================================================== *)

Lemma string_compare_refl (s : string) : String.compare s s = Eq.
Proof.
  induction s as [|c s IH]; simpl; [done |].
  unfold Ascii.compare. by rewrite N.compare_refl.
Qed.

Lemma string_compare_Lt_trans (s1 s2 s3 : string) :
  String.compare s1 s2 = Lt -> String.compare s2 s3 = Lt ->
  String.compare s1 s3 = Lt.
Proof.
  revert s2 s3. induction s1 as [|c1 s1 IH]; intros [|c2 s2] [|c3 s3]; simpl;
    try done.
  unfold Ascii.compare.
  destruct (N.compare_spec (N_of_ascii c1) (N_of_ascii c2)) as [H12|H12|H12];
    destruct (N.compare_spec (N_of_ascii c2) (N_of_ascii c3)) as [H23|H23|H23];
    try done; intros Ha Hb.
  - rewrite H12, H23, N.compare_refl. by apply (IH s2).
  - rewrite H12. by apply N.compare_lt_iff in H23 as ->.
  - rewrite <- H23. by apply N.compare_lt_iff in H12 as ->.
  - assert (N_of_ascii c1 < N_of_ascii c3)%N as H13 by lia.
    by apply N.compare_lt_iff in H13 as ->.
Qed.

Lemma string_compare_Gt_Lt (s1 s2 : string) :
  String.compare s1 s2 = Gt <-> String.compare s2 s1 = Lt.
Proof.
  rewrite (String.compare_antisym s2 s1).
  destruct (String.compare s1 s2); simpl; split; congruence.
Qed.

Lemma string_compare_Eq (s1 s2 : string) :
  String.compare s1 s2 = Eq <-> s1 = s2.
Proof.
  split; [apply String.compare_eq_iff | intros ->; apply string_compare_refl].
Qed.

Lemma desc_key_id_total (k1 : string) (i1 : Z) (k2 : string) (i2 : Z) :
  desc_key_id k1 i1 k2 i2 = true \/ desc_key_id k2 i2 k1 i1 = true.
Proof.
  unfold desc_key_id. rewrite (String.compare_antisym k2 k1).
  destruct (String.compare k1 k2); simpl; auto.
  destruct (Z.leb_spec i2 i1), (Z.leb_spec i1 i2); auto. lia.
Qed.

Lemma desc_key_id_trans (k1 : string) (i1 : Z) (k2 : string) (i2 : Z)
    (k3 : string) (i3 : Z) :
  desc_key_id k1 i1 k2 i2 = true -> desc_key_id k2 i2 k3 i3 = true ->
  desc_key_id k1 i1 k3 i3 = true.
Proof.
  unfold desc_key_id.
  destruct (String.compare k1 k2) eqn:H12; [| done |];
    destruct (String.compare k2 k3) eqn:H23; try done.
  - apply string_compare_Eq in H12 as ->. rewrite H23.
    intros ?%Z.leb_le ?%Z.leb_le. apply Z.leb_le. lia.
  - apply string_compare_Eq in H12 as ->. by rewrite H23.
  - apply string_compare_Eq in H23 as <-. by rewrite H12.
  - apply string_compare_Gt_Lt in H12, H23.
    pose proof (string_compare_Lt_trans _ _ _ H23 H12) as H13.
    apply string_compare_Gt_Lt in H13. by rewrite H13.
Qed.

(** [order_by_desc] returns the same rows, in the order asked for. *)
Lemma order_by_desc_Permutation {A : Type} (key : A -> string) (id : A -> Z)
    (rows : list A) :
  order_by_desc key id rows ≡ₚ rows.
Proof. apply merge_sort_Permutation. Qed.

Lemma order_by_desc_sorted {A : Type} (key : A -> string) (id : A -> Z)
    (rows : list A) :
  StronglySorted (fun x y => Is_true (desc_key_id (key x) (id x) (key y) (id y)))
                 (order_by_desc key id rows).
Proof.
  apply StronglySorted_merge_sort.
  - intros x y z Hxy Hyz. apply Is_true_true.
    apply Is_true_true in Hxy, Hyz. eauto using desc_key_id_trans.
  - intros x y. destruct (desc_key_id_total (key x) (id x) (key y) (id y)) as [H|H];
      [left | right]; by apply Is_true_true.
Qed.

Lemma bind_fmap_one {A B : Type} (F : A -> list B) (g : B -> A) (l : list A) :
  (forall x, x ∈ l -> exists y, F x = [y] /\ g y = x) ->
  g <$> (l ≫= F) = l.
Proof.
  induction l as [|x l IH]; intros H; [done |].
  rewrite bind_cons, fmap_app, IH by (intros; apply H; by right).
  destruct (H x ltac:(left)) as (y & -> & <-). done.
Qed.

Lemma filter_at_most_one {A : Type} (f : A -> Z) (l : list A) (k : Z) :
  NoDup (f <$> l) ->
  filter (fun y => f y = k) l = [] \/
  exists x, x ∈ l /\ f x = k /\ filter (fun y => f y = k) l = [x].
Proof.
  intros Hnd. destruct (decide (k ∈ f <$> l)) as [Hin | Hnotin].
  - right. apply list_elem_of_fmap in Hin as (x & -> & Hx).
    exists x. split_and!; [done | done | by apply filter_unique].
  - left. by apply filter_no_key.
Qed.

(** ** The invoice list *)

Lemma invoice_list_row_of (st : Store) (row : InvoiceListRow) :
  row ∈ handle_invoice_list st ->
  exists i b c,
    i ∈ invoices st /\ b ∈ bookings st /\ c ∈ customers st /\
    b_id b = i_booking_id i /\ c_id c = b_customer_id b /\
    row = {| il_inv_id := i_id i; il_inv_num := invoice_number i;
             il_issue_date := issue_date i; il_total_inc := total_inc i;
             il_status := i_status i;
             il_customer_name := display_name (first_name c) (last_name c) |}.
Proof.
  unfold handle_invoice_list, invoice_list_query.
  intros ([i c] & -> & Hin)%list_elem_of_fmap.
  rewrite order_by_desc_Permutation in Hin.
  apply list_elem_of_bind in Hin as (i' & Hin & Hi).
  apply list_elem_of_bind in Hin as (b & Hin & [Hb Hbin]%list_elem_of_filter).
  apply list_elem_of_bind in Hin as (c' & Hin & [Hc Hcin]%list_elem_of_filter).
  apply list_elem_of_singleton in Hin as [= -> ->].
  exists i', b, c'. split_and!; done.
Qed.

Lemma invoice_list_join_fst (st : Store) :
  consistent st ->
  fst <$> (i ← invoices st;
           b ← filter (fun b => b_id b = i_booking_id i) (bookings st);
           c ← filter (fun c => c_id c = b_customer_id b) (customers st);
           [(i, c)]) = invoices st.
Proof.
  intros [Hids Hrefs _ _ _ _ _].
  destruct Hids as (Hc & _ & _ & Hb & _).
  destruct Hrefs as (_ & Hrb & _ & _ & _ & Hri).
  apply bind_fmap_one. intros i Hin.
  pose proof (Hri i Hin) as (b & Hbid & Hbin)%list_elem_of_fmap.
  pose proof (Hrb b Hbin) as [(c & Hcid & Hcin)%list_elem_of_fmap _].
  exists (i, c). split; [|done].
  rewrite (filter_key b_id _ b _ Hb Hbin), bind_one by done.
  by rewrite (filter_key c_id _ c _ Hc Hcin), bind_one by done.
Qed.

(** X11. In every store the server reaches, the invoice list shows every
    invoice exactly once, each with its own number, issue date, total,
    status and the name of the customer of its booking, the later issue
    date first and the larger id first within one date. *)
Theorem reachable_invoice_list (st : Store) :
  reachable st ->
  il_inv_id <$> handle_invoice_list st ≡ₚ i_id <$> invoices st /\
  StronglySorted invoice_row_before (handle_invoice_list st) /\
  forall row, row ∈ handle_invoice_list st ->
    exists i b c,
      i ∈ invoices st /\ b ∈ bookings st /\ c ∈ customers st /\
      b_id b = i_booking_id i /\ c_id c = b_customer_id b /\
      il_inv_id row = i_id i /\ il_inv_num row = invoice_number i /\
      il_issue_date row = issue_date i /\ il_total_inc row = total_inc i /\
      il_status row = i_status i /\
      il_customer_name row = display_name (first_name c) (last_name c).
Proof.
  intros Hcons%reachable_consistent. split_and!.
  - unfold handle_invoice_list, invoice_list_query.
    rewrite <- list_fmap_compose.
    rewrite order_by_desc_Permutation.
    rewrite <- (invoice_list_join_fst st Hcons) at 2.
    rewrite <- list_fmap_compose.
    apply reflexive_eq, list_fmap_ext. by intros k [i c] _.
  - unfold handle_invoice_list, invoice_list_query.
    eapply StronglySorted_fmap; [|apply order_by_desc_sorted].
    by intros [i1 c1] [i2 c2] H.
  - intros row (i & b & c & ? & ? & ? & ? & ? & ->)%invoice_list_row_of.
    exists i, b, c. split_and!; done.
Qed.

(** ** The booking list *)

Lemma booking_list_row_of (st : Store) (row : BookingListRow) :
  row ∈ handle_booking_list st ->
  exists b c v oi,
    b ∈ bookings st /\ c ∈ customers st /\ v ∈ vehicles st /\
    c_id c = b_customer_id b /\ v_id v = b_vehicle_id b /\
    match oi with
    | Some i => i ∈ invoices st /\ i_booking_id i = b_id b
    | None => forall i, i ∈ invoices st -> i_booking_id i <> b_id b
    end /\
    row = booking_list_row (b, c, v, oi).
Proof.
  unfold handle_booking_list, booking_list_query.
  intros (r & -> & Hin)%list_elem_of_fmap.
  rewrite order_by_desc_Permutation in Hin.
  apply list_elem_of_bind in Hin as (b & Hin & Hb).
  apply list_elem_of_bind in Hin as (c & Hin & [Hc Hcin]%list_elem_of_filter).
  apply list_elem_of_bind in Hin as (v & Hin & [Hv Hvin]%list_elem_of_filter).
  destruct (filter _ (invoices st)) as [|i0 l] eqn:Hf.
  - apply list_elem_of_singleton in Hin as ->.
    exists b, c, v, None. split_and!; try done.
    intros i Hi Heq.
    assert (i ∈ filter (fun i => i_booking_id i = b_id b) (invoices st)) as Hbad.
    { by apply list_elem_of_filter. }
    rewrite Hf in Hbad. by apply elem_of_nil in Hbad.
  - apply list_elem_of_fmap in Hin as (i & -> & Hi).
    rewrite <- Hf in Hi. apply list_elem_of_filter in Hi as [Hi Hin].
    exists b, c, v, (Some i). split_and!; done.
Qed.

Lemma booking_list_join_fst (st : Store) :
  consistent st ->
  (fun r => r.1.1.1) <$>
    (b ← bookings st;
     c ← filter (fun c => c_id c = b_customer_id b) (customers st);
     v ← filter (fun v => v_id v = b_vehicle_id b) (vehicles st);
     match filter (fun i => i_booking_id i = b_id b) (invoices st) with
     | [] => [(b, c, v, None)]
     | matching => (fun i => (b, c, v, Some i)) <$> matching
     end) = bookings st.
Proof.
  intros [Hids Hrefs _ [Hone _] _ _ _].
  destruct Hids as (Hc & Hv & _ & Hb & _).
  destruct Hrefs as (_ & Hrb & _).
  apply bind_fmap_one. intros b Hbin.
  pose proof (Hrb b Hbin) as [(c & Hcid & Hcin)%list_elem_of_fmap
                                (v & Hvin & Hvid & _)].
  rewrite (filter_key c_id _ c _ Hc Hcin), bind_one by done.
  rewrite (filter_key v_id _ v _ Hv Hvin), bind_one by done.
  destruct (filter_at_most_one i_booking_id (invoices st) (b_id b) Hone)
    as [-> | (i & _ & _ & ->)]; eauto.
Qed.

(** X12. In every store the server reaches, the booking list shows every
    booking exactly once, the later booking date first and the larger
    id first within one date.  A row offers the cancel form exactly when
    its booking is not canceled, and links to the invoice of its booking
    exactly when there is one. *)
Theorem reachable_booking_list (st : Store) :
  reachable st ->
  bl_id <$> handle_booking_list st ≡ₚ b_id <$> bookings st /\
  StronglySorted booking_row_before (handle_booking_list st) /\
  forall row, row ∈ handle_booking_list st ->
    exists b,
      b ∈ bookings st /\ bl_id row = b_id b /\ bl_date row = booking_date b /\
      bl_status row = b_status b /\
      (bl_cancel_form row = None <-> b_status b = "canceled") /\
      match bl_inv_link row with
      | Some (href, text) =>
          exists i, i ∈ invoices st /\ i_booking_id i = b_id b /\
                    href = "/invoice/" +:+ Str.of_Z (i_id i) /\
                    text = invoice_number i
      | None => forall i, i ∈ invoices st -> i_booking_id i <> b_id b
      end.
Proof.
  intros Hcons%reachable_consistent. split_and!.
  - unfold handle_booking_list, booking_list_query.
    rewrite <- list_fmap_compose.
    rewrite order_by_desc_Permutation.
    rewrite <- (booking_list_join_fst st Hcons) at 2.
    rewrite <- list_fmap_compose.
    apply reflexive_eq, list_fmap_ext. by intros k [[[b c] v] oi] _.
  - unfold handle_booking_list, booking_list_query.
    eapply StronglySorted_fmap; [|apply order_by_desc_sorted].
    by intros [[[b1 c1] v1] o1] [[[b2 c2] v2] o2] H.
  - intros row (b & c & v & oi & Hb & _ & _ & _ & _ & Hoi & ->)%booking_list_row_of.
    exists b. simpl. split_and!; try done.
    + case_decide as Hst; split; done.
    + destruct oi as [i|]; simpl; [|done].
      destruct Hoi as [Hin Hbid].
      destruct Hcons as [_ _ _ _ [_ Hnum] _ _].
      destruct (Hnum i Hin) as [Hpos _].
      destruct (Z.eqb_spec (i_id i) 0) as [?|_]; [lia |]. simpl. eauto.
Qed.

Lemma of_Z_nonempty (n : Z) : String.eqb (Str.of_Z n) "" = false.
Proof.
  destruct n as [|p|p]; [done | |].
  - change (Str.of_Z (Z.pos p)) with (pretty (N.pos p)).
    pose proof (pretty_N_nonempty (N.pos p)) as Hlen.
    destruct (pretty (N.pos p)); [simpl in Hlen; lia | done].
  - change (Str.of_Z (Z.neg p)) with ("-" +:+ pretty (N.pos p)). done.
Qed.

(** X13. The cancel form of a row of the booking list, when posted, cancels
    the booking of that row: the request is answered with a redirect to
    /bookings, the store is the one after the cancellation of that
    booking, and the list then shows the booking as canceled, without a
    cancel form. *)
Theorem cancel_form_cancels (clk : Clock) (st : Store) (row : BookingListRow)
    (action : string) (pairs : list (string * string)) :
  row ∈ handle_booking_list st ->
  bl_cancel_form row = Some (action, pairs) ->
  do_POST clk action (fields_of_pairs pairs) st
    = Ok (canceled (bl_id row) st, See_Other "/bookings") /\
  forall row', row' ∈ handle_booking_list (canceled (bl_id row) st) ->
    bl_id row' = bl_id row ->
    bl_status row' = "canceled" /\ bl_cancel_form row' = None.
Proof.
  intros (b & c & v & oi & Hb & _ & _ & _ & _ & _ & ->)%booking_list_row_of.
  simpl. case_decide as Hst; [|done]. intros [= <- <-]. split.
  - unfold do_POST. rewrite decide_False by done. rewrite decide_True by done.
    apply process_cancel_booking_run; [|right; by apply list_elem_of_fmap_2].
    assert (field (fields_of_pairs [("booking_id", Str.of_Z (b_id b))])
                  "booking_id" "" = Str.of_Z (b_id b)) as ->.
    { unfold field, fields_of_pairs. simpl. rewrite of_Z_nonempty.
      rewrite lookup_empty. by rewrite lookup_insert_eq. }
    apply py_int_of_Z.
  - intros row' (b' & c' & v' & oi' & Hb' & _ & _ & _ & _ & _ & ->)%booking_list_row_of.
    simpl. intros Hid.
    apply canceled_bookings_elem in Hb' as (b0 & _ & Hcore & [[_ Hc] | [Hne ->]]).
    + split; [done |]. by rewrite decide_False by (intros H; by apply H).
    + congruence.
Qed.
(* ===================================================================== *)
(** * When a request completes *)
(* ===================================================================== *)

Lemma overflow_scenario (clk : Clock) :
  process_new_booking clk (fields_of_pairs [("qty_1", "9223372036854775808")])
    init_store = Raised OverflowError.
Proof. by vm_compute. Qed.

(** X14. A booking submission that asks for a line with a quantity of 2^63
    or more is not carried out: an INSERT raises [OverflowError] (or an
    earlier one [IntegrityError]) and nothing is committed.  The form is
    plain: ASCII values of at most 4300 characters.  A quantity of 2^63
    of the first service on a fresh installation raises
    [OverflowError]. *)
Theorem submission_overflow (clk : Clock) (fields : Fields) (st : Store) :
  (plain_form fields ->
   ~ Forall (fun l : Line => l.1.1 < 2 ^ 63) (requested_lines fields st) ->
   exists e, process_new_booking clk fields st = Raised e /\
             (e = OverflowError \/ e = IntegrityError)) /\
  process_new_booking clk (fields_of_pairs [("qty_1", "9223372036854775808")])
    init_store = Raised OverflowError.
Proof.
  split; [|apply overflow_scenario].
  intros _ Hbad.
  destruct (process_new_booking clk fields st) as [[st' resp]|e] eqn:H.
  - destruct Hbad. apply process_new_booking_storable in H.
    eapply Forall_impl; [exact H |]. intros l. unfold storable.
    rewrite !andb_true_iff. intros [[Hr%in_range_spec _] _]. lia.
  - exists e. split; [done |]. by eapply process_new_booking_raises.
Qed.

(** X16. Cancellations commute: canceling two bookings gives the same store
    in either order. *)
Theorem cancellations_commute (id1 id2 : Z) (st : Store) :
  canceled id1 (canceled id2 st) = canceled id2 (canceled id1 st).
Proof.
  unfold canceled, update_invoice_status, update_booking_status. simpl. f_equal.
  - rewrite <- !list_fmap_compose. apply list_fmap_ext. intros k b _. simpl.
    repeat case_decide; done.
  - rewrite <- !list_fmap_compose. apply list_fmap_ext. intros k i _. simpl.
    repeat case_decide; done.
Qed.

(* ===================================================================== *)
(** * [init_db] and [get_settings] *)
(* ===================================================================== *)

(** X17. [init_db] seeds a table only when it is empty: it leaves a
    non-empty settings table and a non-empty catalog as they are, never
    touches the other tables, leaves neither table empty, and running it
    again changes nothing. *)
Theorem init_db_seeds_once (st : Store) :
  init_db (init_db st) = init_db st /\
  (settings st <> [] -> settings (init_db st) = settings st) /\
  (services st <> [] -> services (init_db st) = services st) /\
  (settings st = [] -> settings (init_db st) = default_settings) /\
  (services st = [] ->
   (fun s => (s_id s, s_name s, s_unit_price s, s_vat_rate s))
     <$> services (init_db st) =
   [ (1, "Full Service", 200.0%float, 0.20%float);
     (2, "Interim Service", 120.0%float, 0.20%float);
     (3, "MOT Test", 54.85%float, 0.00%float);
     (4, "Brake Pads Replacement", 150.0%float, 0.20%float);
     (5, "Diagnostics", 60.0%float, 0.20%float) ]) /\
  customers (init_db st) = customers st /\
  vehicles (init_db st) = vehicles st /\
  bookings (init_db st) = bookings st /\
  booking_items (init_db st) = booking_items st /\
  misc_items (init_db st) = misc_items st /\
  invoices (init_db st) = invoices st.
Proof.
  destruct st as [cs vs ss bs bis mis invs sets].
  destruct sets as [|x sets], ss as [|s ss]; simpl; split_and!;
    first [done | reflexivity | by vm_compute ].
Qed.

Lemma get_settings_snoc (st : Store) (rows : list (string * option string))
    (key : string) (value : option string) :
  settings st = rows ++ [(key, value)] ->
  get_settings st =
  <[key := value]> (foldl (fun d row => <[fst row := snd row]> d) ∅ rows).
Proof. intros H. unfold get_settings. rewrite H, foldl_app. done. Qed.

(** X18. [get_settings] maps a key to the value of the last settings row with
    that key, and holds no key without a row; when no key is repeated,
    the dictionary holds exactly the rows of the table. *)
Theorem get_settings_lookup (st : Store) :
  (forall key,
     get_settings st !! key
     = snd <$> last (filter (fun row => fst row = key) (settings st))) /\
  (NoDup (fst <$> settings st) ->
   forall key value,
     get_settings st !! key = Some value <-> (key, value) ∈ settings st).
Proof.
  split; [intros key; apply foldl_insert_lookup |].
  intros Hnd key value. unfold get_settings. rewrite foldl_insert_lookup.
  split.
  - intros Hl. destruct (last _) as [[k v]|] eqn:Hlast; [|done].
    injection Hl as ->. apply last_Some_elem_of in Hlast.
    apply list_elem_of_filter in Hlast as [Hk ?]. simpl in Hk. by subst.
  - intros Hin.
    assert (filter (fun row : string * option string => row.1 = key) (settings st)
            = [(key, value)]) as ->; [|done].
    induction (settings st) as [|[k v] rows IH]; [by apply elem_of_nil in Hin |].
    rewrite fmap_cons in Hnd. apply NoDup_cons in Hnd as [Hnotin Hnd].
    rewrite filter_cons. simpl in *.
    apply elem_of_cons in Hin as [[= <- <-] | Hin].
    + rewrite decide_True by done. f_equal.
      apply filter_none, Forall_forall. intros [k' v'] Hr Heq. simpl in Heq.
      subst k'. apply Hnotin. by apply (list_elem_of_fmap_2 fst) in Hr.
    + rewrite decide_False; [by apply IH |].
      intros ->. apply Hnotin. by apply (list_elem_of_fmap_2 fst) in Hin.
Qed.

(* ===================================================================== *)
(** * The dashboard and the booking form *)
(* ===================================================================== *)

(** X19. In every store the server reaches, the dashboard shows the seeded
    company name, and no more invoices than bookings. *)
Theorem reachable_dashboard (st : Store) :
  reachable st ->
  dp_company_name (handle_dashboard st) = "Motorhouse Beds Ltd" /\
  0 <= dp_invoice_count (handle_dashboard st) <= dp_booking_count (handle_dashboard st).
Proof.
  intros [_ Hrefs _ [Hone _] _ _ [_ Hset]]%reachable_consistent.
  destruct Hrefs as (_ & _ & _ & _ & _ & Hri).
  split.
  - unfold handle_dashboard, get_settings. simpl. rewrite Hset. by vm_compute.
  - simpl. split; [lia |]. apply inj_le.
    rewrite <- (length_fmap i_booking_id), <- (length_fmap b_id (bookings st)).
    apply submseteq_length, NoDup_submseteq; [done |].
    intros x (i & -> & Hi)%list_elem_of_fmap. by apply Hri.
Qed.

(** X20. In every store the server reaches, the booking form is rendered and
    offers the five seeded services, each with the price and the VAT
    percentage of the catalog and a quantity input named after its id,
    which is the field the booking submission reads for that service. *)
Theorem reachable_booking_form (st : Store) :
  reachable st ->
  exists rows,
    handle_new_booking_form st = Ok rows /\
    (fun r => (sr_name r, sr_price r, sr_vat_percent r, sr_input_name r)) <$> rows =
    [ ("Full Service", "200.00", 20, "qty_1");
      ("Interim Service", "120.00", 20, "qty_2");
      ("MOT Test", "54.85", 0, "qty_3");
      ("Brake Pads Replacement", "150.00", 20, "qty_4");
      ("Diagnostics", "60.00", 20, "qty_5") ] /\
    sr_input_name <$> rows = (fun s => "qty_" +:+ Str.of_Z (s_id s)) <$> services st.
Proof.
  intros [_ _ _ _ _ _ [Hsvc _]]%reachable_consistent.
  unfold handle_new_booking_form. rewrite Hsvc.
  eexists. split; [by vm_compute |]. split; by vm_compute.
Qed.
(* ===================================================================== *)
(** * ISO dates sort as dates *)
(* ===================================================================== *)

Lemma string_compare_app (a1 a2 b1 b2 : string) :
  String.length a1 = String.length a2 ->
  String.compare (a1 +:+ b1) (a2 +:+ b2) =
  match String.compare a1 a2 with
  | Eq => String.compare b1 b2
  | c => c
  end.
Proof.
  revert a2. induction a1 as [|x a1 IH]; intros [|y a2] Hlen; try done.
  rewrite !string_app_cons. simpl.
  destruct (Ascii.compare x y); [|done|done].
  apply IH. simpl in Hlen. lia.
Qed.

Lemma dec_value_go_split (acc : N) (s : string) :
  all_digits s = true ->
  dec_value_go acc s = (acc * 10 ^ N.of_nat (String.length s) + dec_value s)%N /\
  (dec_value s < 10 ^ N.of_nat (String.length s))%N.
Proof.
  unfold all_digits, dec_value. revert acc.
  induction s as [|c s IH]; intros acc.
  - intros _. simpl. lia.
  - simpl Str.forallb. intros [Hc Hs]%andb_true_iff.
    simpl dec_value_go. simpl String.length.
    rewrite Nat2N.inj_succ, N.pow_succ_r'.
    destruct (IH (10 * acc + Str.digit_val c)%N Hs) as [-> Hlt].
    destruct (IH (10 * 0 + Str.digit_val c)%N Hs) as [-> _].
    assert (Str.digit_val c <= 9)%N as Hd.
    { revert Hc. unfold Str.is_digit, Str.digit_val.
      rewrite andb_true_iff, !N.leb_le. lia. }
    split; nia.
Qed.

(** Strings of digits of one length compare as the numbers they write. *)
Lemma compare_digits (a b : string) :
  all_digits a = true -> all_digits b = true ->
  String.length a = String.length b ->
  String.compare a b = (dec_value a ?= dec_value b)%N.
Proof.
  revert b. induction a as [|x a IH]; intros [|y b] Ha Hb Hlen; try done.
  pose proof (dec_value_go_split 0 _ Ha) as [_ Hxa].
  pose proof (dec_value_go_split 0 _ Hb) as [_ Hyb].
  unfold all_digits in Ha, Hb. simpl in Ha, Hb, Hlen.
  apply andb_true_iff in Ha as [Hx Ha], Hb as [Hy Hb].
  injection Hlen as Hlen.
  unfold dec_value in *. simpl dec_value_go in *.
  destruct (dec_value_go_split (10 * 0 + Str.digit_val x)%N a Ha) as [-> Hta].
  destruct (dec_value_go_split (10 * 0 + Str.digit_val y)%N b Hb) as [-> Htb].
  rewrite <- Hlen in *. simpl String.compare. unfold Ascii.compare.
  specialize (IH b Ha Hb Hlen). unfold dec_value in *.
  assert (48 <= N_of_ascii x /\ 48 <= N_of_ascii y)%N as [Hx48 Hy48].
  { revert Hx Hy. unfold Str.is_digit. rewrite !andb_true_iff, !N.leb_le. lia. }
  unfold Str.digit_val in *.
  set (p := (10 ^ N.of_nat (String.length a))%N) in *.
  destruct (N.compare_spec (N_of_ascii x) (N_of_ascii y)) as [Heq | Hlt | Hgt].
  - rewrite IH, Heq.
    destruct (N.compare_spec (dec_value_go 0 a) (dec_value_go 0 b));
      symmetry; [apply N.compare_eq_iff | apply N.compare_lt_iff
                | apply N.compare_gt_iff]; nia.
  - symmetry. apply N.compare_lt_iff. nia.
  - symmetry. apply N.compare_gt_iff. nia.
Qed.

Lemma compare_fmt_0d (w : nat) (n m : Z) :
  0 <= n < 10 ^ Z.of_nat (S w) -> 0 <= m < 10 ^ Z.of_nat (S w) ->
  String.compare (Str.fmt_0d (S w) n) (Str.fmt_0d (S w) m) = (n ?= m).
Proof.
  intros Hn Hm.
  rewrite compare_digits;
    [| apply fmt_0d_digits; lia | apply fmt_0d_digits; lia
     | by rewrite !fmt_0d_length ].
  rewrite <- (fmt_0d_value (S w) n) at 2 by lia.
  rewrite <- (fmt_0d_value (S w) m) at 2 by lia.
  by rewrite N2Z.inj_compare.
Qed.

Lemma compare_isoformat (d1 d2 : Date.date) :
  Date.valid d1 = true -> Date.valid d2 = true ->
  String.compare (Date.isoformat d1) (Date.isoformat d2) =
  match Date.year d1 ?= Date.year d2 with
  | Eq => match Date.month d1 ?= Date.month d2 with
          | Eq => Date.day d1 ?= Date.day d2
          | c => c
          end
  | c => c
  end.
Proof.
  intros (Hy1 & Hm1 & Hd1)%valid_bounds (Hy2 & Hm2 & Hd2)%valid_bounds.
  pose proof (days_in_month_le_31 (Date.year d1) (Date.month d1)).
  pose proof (days_in_month_le_31 (Date.year d2) (Date.month d2)).
  unfold Date.isoformat.
  rewrite string_compare_app by (rewrite !(fmt_0d_length 3); simpl; lia).
  rewrite (compare_fmt_0d 3) by (simpl; lia).
  destruct (Date.year d1 ?= Date.year d2); [|done|done].
  rewrite (string_compare_app "-" "-") by done. simpl String.compare at 1.
  change (Ascii.compare "-" "-") with Eq. cbv iota.
  rewrite string_compare_app by (rewrite !(fmt_0d_length 1); simpl; lia).
  rewrite (compare_fmt_0d 1) by (simpl; lia).
  destruct (Date.month d1 ?= Date.month d2); [|done|done].
  rewrite (string_compare_app "-" "-") by done. simpl String.compare at 1.
  change (Ascii.compare "-" "-") with Eq. cbv iota.
  rewrite (compare_fmt_0d 1) by (simpl; lia). done.
Qed.

Lemma days_before_month_mono (y m1 m2 : Z) :
  1 <= m1 -> m1 < m2 -> m2 <= 12 ->
  Date._days_before_month y m1 + Date._days_in_month y m1
  <= Date._days_before_month y m2.
Proof.
  intros H1 H12 H2. unfold Date._days_before_month, Date._days_in_month.
  assert (1 <= m1 <= 12) as Hm1 by lia. assert (1 <= m2 <= 12) as Hm2 by lia.
  destruct (Date._is_leap y); split_month Hm1; subst m1; split_month Hm2; subst m2;
    simpl in *; lia.
Qed.

(** The ISO forms of two dates compare, byte by byte, as the dates. *)
Lemma compare_isoformat_toordinal (d1 d2 : Date.date) :
  Date.valid d1 = true -> Date.valid d2 = true ->
  String.compare (Date.isoformat d1) (Date.isoformat d2) =
  (Date.toordinal d1 ?= Date.toordinal d2).
Proof.
  intros Hv1 Hv2. rewrite compare_isoformat by done.
  pose proof Hv1 as (Hy1 & Hm1 & Hd1)%valid_bounds.
  pose proof Hv2 as (Hy2 & Hm2 & Hd2)%valid_bounds.
  assert (forall a b : Date.date,
            Date.valid a = true -> Date.valid b = true ->
            Date.year a < Date.year b \/
            (Date.year a = Date.year b /\
             (Date.month a < Date.month b \/
              (Date.month a = Date.month b /\ Date.day a < Date.day b))) ->
            Date.toordinal a < Date.toordinal b) as Hlt.
  { intros a b (Hya & Hma & Hda)%valid_bounds (Hyb & Hmb & Hdb)%valid_bounds.
    unfold Date.toordinal, Date._ymd2ord.
    pose proof (day_of_year_bounds _ _ _ Hma Hda) as Ba.
    pose proof (day_of_year_bounds _ _ _ Hmb Hdb) as Bb.
    intros [Hy | [Hy [Hm | [Hm Hd]]]].
    - pose proof (days_before_year_succ (Date.year a)) as Hs.
      pose proof (days_before_year_mono (Date.year a + 1) (Date.year b) ltac:(lia)).
      destruct (Date._is_leap (Date.year a)); lia.
    - rewrite Hy in *.
      pose proof (days_before_month_mono (Date.year b) (Date.month a) (Date.month b)
                    ltac:(lia) Hm ltac:(lia)). lia.
    - rewrite Hy, Hm. lia. }
  destruct (Z.compare_spec (Date.year d1) (Date.year d2)) as [Hy | Hy | Hy].
  - destruct (Z.compare_spec (Date.month d1) (Date.month d2)) as [Hm | Hm | Hm].
    + destruct (Z.compare_spec (Date.day d1) (Date.day d2)) as [Hd | Hd | Hd];
        symmetry.
      * apply Z.compare_eq_iff. destruct d1, d2. simpl in *. by subst.
      * apply Z.compare_lt_iff, Hlt; auto.
      * apply Z.compare_gt_iff, Hlt; auto 10.
    + symmetry. apply Z.compare_lt_iff, Hlt; auto.
    + symmetry. apply Z.compare_gt_iff, Hlt; auto 10.
  - symmetry. apply Z.compare_lt_iff, Hlt; auto.
  - symmetry. apply Z.compare_gt_iff, Hlt; auto.
Qed.

Lemma StronglySorted_weaken {A : Type} (R R' : relation A) (l : list A) :
  (forall x y, x ∈ l -> y ∈ l -> R x y -> R' x y) ->
  StronglySorted R l -> StronglySorted R' l.
Proof.
  intros Himp Hs. induction Hs as [|x l Hs IH Hall]; constructor.
  - apply IH. intros a b Ha Hb. apply Himp; by right.
  - rewrite Forall_forall in *. intros y Hy. apply Himp; [left | by right | auto].
Qed.

(** X21. In every store the server reaches, the invoice list is in reverse
    chronological order: no row is issued on a later calendar day than a
    row listed before it. *)
Theorem reachable_invoice_list_chronological (st : Store) :
  reachable st ->
  StronglySorted
    (fun r1 r2 => Date.toordinal (date_of_iso (il_issue_date r2))
                  <= Date.toordinal (date_of_iso (il_issue_date r1)))
    (handle_invoice_list st).
Proof.
  intros Hcons%reachable_consistent.
  assert (forall r, r ∈ handle_invoice_list st ->
            exists d, Date.valid d = true /\ il_issue_date r = Date.isoformat d /\
                      date_of_iso (il_issue_date r) = d) as Hiso.
  { intros r (i & b & c & Hi & _ & _ & _ & _ & ->)%invoice_list_row_of. simpl.
    destruct Hcons as [_ _ _ [_ Hinv] _ _ _].
    destruct (Hinv i Hi) as (_ & _ & _ & _ & d & Hv & Hd).
    exists d. split_and!; [done | done |].
    unfold date_of_iso. by rewrite Hd, strptime_isoformat. }
  apply (StronglySorted_weaken invoice_row_before).
  - intros r1 r2 (d1 & Hv1 & He1 & ->)%Hiso (d2 & Hv2 & He2 & ->)%Hiso.
    unfold invoice_row_before, desc_key_id. rewrite He1, He2.
    rewrite compare_isoformat_toordinal by done.
    destruct (Z.compare_spec (Date.toordinal d1) (Date.toordinal d2)); [lia | done | lia].
  - unfold handle_invoice_list, invoice_list_query.
    eapply StronglySorted_fmap; [|apply order_by_desc_sorted].
    by intros [i1 c1] [i2 c2] H.
Qed.
(* ===================================================================== *)
(** * Row ids count the rows *)
(* ===================================================================== *)

Lemma numbered_next_rowid {A : Type} (id : A -> Z) (rows : list A) :
  numbered_from_1 id rows ->
  next_rowid (id <$> rows) = Z.of_nat (length rows) + 1.
Proof.
  unfold next_rowid. induction rows as [|x rows IH] using rev_ind; intros H.
  - done.
  - rewrite fmap_app, foldr_app, length_app. simpl.
    rewrite foldr_max_base by lia.
    assert (id x = Z.of_nat (length rows) + 1) as ->.
    { apply H. by rewrite lookup_app_r, Nat.sub_diag by lia. }
    assert (1 + foldr Z.max 0 (id <$> rows) = Z.of_nat (length rows) + 1) as Hrec.
    { apply IH. intros k y Hk. apply H. by apply lookup_app_l_Some. }
    lia.
Qed.

Lemma numbered_snoc {A : Type} (id : A -> Z) (rows : list A) (x : A) :
  numbered_from_1 id rows -> id x = next_rowid (id <$> rows) ->
  numbered_from_1 id (rows ++ [x]).
Proof.
  intros H Hx k y Hk. rewrite numbered_next_rowid in Hx by done.
  apply lookup_app_Some in Hk as [Hk | [Hge Hk]]; [by apply H |].
  apply list_lookup_singleton_Some in Hk as [Hk ->]. lia.
Qed.

Lemma numbered_fmap_id {A : Type} (id : A -> Z) (f : A -> A) (rows : list A) :
  (forall x, id (f x) = id x) ->
  numbered_from_1 id rows -> numbered_from_1 id (f <$> rows).
Proof.
  intros Hf H k y Hk. rewrite list_lookup_fmap in Hk.
  destruct (rows !! k) as [x|] eqn:Hx; [|done]. injection Hk as <-.
  rewrite Hf. by apply H.
Qed.

Lemma service_loop_numbered (fields : Fields) (bid : Z) (svcs : list Service)
    (t t' : Totals) :
  for_each (service_item fields bid) svcs t = Ok t' ->
  numbered_from_1 bi_id (booking_items (tx t)) ->
  numbered_from_1 bi_id (booking_items (tx t')).
Proof.
  revert t. induction svcs as [|svc svcs IH]; intros t; simpl.
  - by intros [= <-].
  - intros (t1 & Hstep & Hrest)%bind_Ok Hnd. apply (IH _ Hrest).
    revert Hstep. unfold service_item. cbv zeta. rewrite py_int_default. simpl.
    destruct (0 <? _); [|by intros [= <-]].
    intros ([tx' id] & Hins & (x & _ & [= <-])%bind_Ok)%bind_Ok.
    apply insert_booking_item_Ok in Hins as (-> & Hnew & _).
    simpl. rewrite Hnew. by apply numbered_snoc.
Qed.

Lemma custom_loop_numbered (fields : Fields) (bid : Z) (l : list Z) (t t' : Totals) :
  for_each (custom_item fields bid) l t = Ok t' ->
  numbered_from_1 mi_id (misc_items (tx t)) ->
  numbered_from_1 mi_id (misc_items (tx t')).
Proof.
  revert t. induction l as [|i l IH]; intros t; simpl.
  - by intros [= <-].
  - intros (t1 & Hstep & Hrest)%bind_Ok Hnd. apply (IH _ Hrest).
    revert Hstep. unfold custom_item. cbv zeta.
    rewrite py_int_default, !py_float_default. simpl.
    destruct (negb _); [by intros [= <-] |].
    destruct (_ && _); [|by intros [= <-]].
    intros ([tx' id] & Hins & (x & _ & [= <-])%bind_Ok)%bind_Ok.
    apply insert_misc_item_Ok in Hins as (-> & Hnew & _).
    simpl. rewrite Hnew. by apply numbered_snoc.
Qed.

Lemma process_new_booking_items_numbered (clk : Clock) (fields : Fields)
    (st st' : Store) (resp : Response) :
  process_new_booking clk fields st = Ok (st', resp) ->
  numbered_from_1 bi_id (booking_items st) ->
  numbered_from_1 mi_id (misc_items st) ->
  numbered_from_1 bi_id (booking_items st') /\
  numbered_from_1 mi_id (misc_items st').
Proof.
  unfold process_new_booking. cbv zeta.
  intros (bd & Hbd & H)%bind_Ok Hbi Hmi.
  unfold insert_customer, insert_booking in H. cbv zeta in H.
  destruct (mileage_value (Str.strip (field fields "mileage" "0")))
    as (mv & Hmv & _).
  rewrite Hmv in H. rewrite result_bind_Ok in H. cbv beta iota zeta in H.
  apply bind_Ok in H as ([tx2 vid] & Hveh & H).
  apply insert_vehicle_Ok in Hveh as (-> & -> & _).
  apply bind_Ok in H as (t1 & Hloop1 & H).
  apply bind_Ok in H as (t2 & Hloop2 & H).
  pose proof (service_loop_numbered _ _ _ _ _ Hloop1 Hbi) as Hbi1.
  apply service_loop in Hloop1 as (items & _ & Hmi1 & _).
  simpl in Hmi1. rewrite <- Hmi1 in Hmi.
  pose proof (custom_loop_numbered _ _ _ _ _ Hloop2 Hmi) as Hmi2.
  apply custom_loop in Hloop2 as (miscs & _ & Hbi2 & _).
  rewrite <- Hbi2 in Hbi1.
  assert (booking_items st' = booking_items (tx t2) /\
          misc_items st' = misc_items (tx t2)) as (-> & ->); [|done].
  apply bind_Ok in H as ([tx4 invoice_id] & Hinv & H).
  assert (tx4 = st') as -> by (destruct (id_truthy _); by injection H).
  destruct (Num.float_gt_0 _).
  - apply bind_Ok in Hinv as ([tx4' id] & Hins & [= <- _]).
    by apply insert_invoice_Ok in Hins as (_ & -> & _).
  - by injection Hinv as <- _.
Qed.

Lemma submit_preserves_sequential (clk : Clock) (fields : Fields) (st st' : Store)
    (resp : Response) :
  process_new_booking clk fields st = Ok (st', resp) ->
  sequential st -> sequential st'.
Proof.
  intros H (Hc & Hv & Hs & Hb & Hbi & Hmi & Hi).
  destruct (process_new_booking_items_numbered _ _ _ _ _ H Hbi Hmi) as [Hbi' Hmi'].
  pose proof H as (mv & bd & Hc' & Hv' & Hb' & _)%process_new_booking_rows.
  apply process_new_booking_Ok in H. cbv zeta in H.
  destruct H as (c & v & b & items & miscs & _ & _ & Hs' & _ & _ & _ & _ & _
                 & _ & _ & _ & _ & _ & _ & Hinv).
  unfold sequential. rewrite Hc', Hv', Hb', Hs'.
  split_and!; try done; try by apply numbered_snoc.
  destruct (Num.float_gt_0 _); destruct Hinv as [-> _]; [|done].
  by apply numbered_snoc.
Qed.

Lemma cancel_preserves_sequential (bid : Z) (st : Store) :
  sequential st -> sequential (canceled bid st).
Proof.
  intros (Hc & Hv & Hs & Hb & Hbi & Hmi & Hi). unfold sequential. simpl.
  split_and!; try done.
  - apply numbered_fmap_id; [|done]. intros b. by case_decide.
  - apply numbered_fmap_id; [|done]. intros i. by case_decide.
Qed.

Lemma sequential_init : sequential init_store.
Proof.
  unfold sequential. simpl. split_and!; try (by intros k x Hk).
  intros k x Hk.
  do 5 (destruct k as [|k]; [by injection Hk as <- |]). done.
Qed.

(** X22. In every store the server reaches, the rows of every table carry
    the ids 1, 2, 3, ... in the order they were inserted, so the k-th
    invoice of the installation has the id k and a number that ends in
    k, zero-padded to three digits: the sequence has no gaps. *)
Theorem reachable_ids_sequential (st : Store) :
  reachable st ->
  sequential st /\
  forall k i, invoices st !! k = Some i ->
    i_id i = Z.of_nat k + 1 /\
    exists today,
      Date.valid today = true /\
      invoice_number i =
        "INV" +:+ Date.strftime_Ymd today +:+ "-" +:+ Str.fmt_0d 3 (Z.of_nat k + 1).
Proof.
  intros Hreach.
  assert (sequential st) as Hseq.
  { induction Hreach as [|clk path fields st st' resp _ IH Hclk Hpost].
    - apply sequential_init.
    - apply do_POST_Ok in Hpost
        as [[_ H] | [(_ & bid & _ & -> & _) | [-> _]]].
      + eauto using submit_preserves_sequential.
      + by apply cancel_preserves_sequential.
      + done. }
  split; [done |]. intros k i Hk.
  destruct Hseq as (_ & _ & _ & _ & _ & _ & Hi).
  specialize (Hi k i Hk). split; [done |].
  apply reachable_consistent in Hreach as [_ _ _ _ [_ Hnum] _ _].
  destruct (Hnum i (list_elem_of_lookup_2 _ _ _ Hk)) as (_ & today & Hv & Hn).
  exists today. split; [done |]. by rewrite <- Hi.
Qed.

(* ===================================================================== *)
(** * The theorems at work on the example *)
(* ===================================================================== *)

Lemma references_bookings_init : references_bookings init_store.
Proof. split_and!; intros x Hx; by apply elem_of_nil in Hx. Qed.

Lemma example_submission :
  process_new_booking clock_2025_01_15 example_fields init_store
  = Ok (example_store, See_Other "/invoice/1").
Proof. by vm_compute. Qed.

Lemma example_reachable : reachable example_store.
Proof.
  apply (reach_post clock_2025_01_15 "/booking/new" example_fields init_store
           example_store (See_Other "/invoice/1")).
  - constructor.
  - by repeat split.
  - exact example_submission.
Qed.

Lemma C1_witness :
  exists inv,
    references_bookings init_store /\
    process_new_booking clock_2025_01_15 example_fields init_store
      = Ok (example_store, See_Other "/invoice/1") /\
    inv ∈ invoices example_store /\
    (inv ∉ invoices init_store) /\
    total_ex_vat inv = fsum (line_ex <$> booking_lines (i_booking_id inv) example_store) /\
    total_vat inv = fsum (line_vat_of <$> booking_lines (i_booking_id inv) example_store) /\
    total_inc inv = (total_ex_vat inv + total_vat inv)%float.
Proof.
  eexists.
  assert (references_bookings init_store) as H1 by exact references_bookings_init.
  assert (process_new_booking clock_2025_01_15 example_fields init_store
          = Ok (example_store, See_Other "/invoice/1")) as H2 by (by vm_compute).
  split; [exact H1 |]. split; [exact H2 |].
  assert (forall inv, inv ∉ invoices init_store) as H4.
  { intros inv Hin. by apply elem_of_nil in Hin. }
  split; [vm_compute; left |]. split; [apply H4 |].
  apply (proj1 C1_invoice_totals clock_2025_01_15 example_fields init_store
           example_store (See_Other "/invoice/1") _ H1 H2); [vm_compute; left | apply H4].
Defined.


Lemma plain_form_unparsable : plain_form unparsable_fields.
Proof. apply (bool_decide_unpack _). by vm_compute. Qed.


Lemma C3_witness :
  reachable example_store /\
  NoDup (invoice_number <$> invoices example_store) /\
  forall i, i ∈ invoices example_store ->
    exists date seq,
      invoice_number i = "INV" +:+ date +:+ "-" +:+ seq /\
      String.length date = 8%nat /\ all_digits date = true /\
      all_digits seq = true /\ Z.of_N (dec_value seq) = i_id i /\
      (3 <= String.length seq)%nat /\
      (i_id i <= 999 -> inv_pattern_3 (invoice_number i) = true).
Proof.
  split; [exact example_reachable |].
  exact (C3_invoice_numbers_unique example_store example_reachable).
Defined.

Lemma C5_witness :
  exists st' miscs inv,
    plain_form unparsable_fields /\
    process_new_booking clock_2025_01_15 unparsable_fields init_store
      = Ok (st', See_Other "/invoice/1") /\
    custom_rows unparsable_fields = [("Tow fee", (1, 50%float, 0.20%float))] /\
    misc_items st' = misc_items init_store ++ miscs /\
    Forall2 holds_custom_line miscs [("Tow fee", (1, 50%float, 0.20%float))] /\
    invoices st' = invoices init_store ++ [inv] /\
    total_ex_vat inv = 50%float /\
    total_vat inv = 10%float /\
    total_inc inv = 60%float.
Proof.
  assert (custom_rows unparsable_fields = [("Tow fee", (1, 50%float, 0.20%float))])
    as Hrows by (by vm_compute).
  assert (fsum (line_ex <$> (snd <$> catalog_rows unparsable_fields (services init_store))
                            ++ (snd <$> custom_rows unparsable_fields)) = 50%float)
    as Hex0 by (by vm_compute).
  assert (fsum (line_vat_of <$> (snd <$> catalog_rows unparsable_fields (services init_store))
                                ++ (snd <$> custom_rows unparsable_fields)) = 10%float)
    as Hvat0 by (by vm_compute).
  destruct (process_new_booking clock_2025_01_15 unparsable_fields init_store)
    as [[st' resp]|e] eqn:Hrun; [|by vm_compute in Hrun].
  assert (resp = See_Other "/invoice/1") as -> by (vm_compute in Hrun; congruence).
  destruct (proj1 C5_custom_items clock_2025_01_15 unparsable_fields init_store
              st' (See_Other "/invoice/1") plain_form_unparsable Hrun)
    as (miscs & H1 & H2 & _ & H4).
  rewrite Hex0, Hvat0 in H4. change (Num.float_gt_0 50) with true in H4.
  cbv iota in H4. destruct H4 as (inv & Hinv & Hex & Hvat & Hinc).
  rewrite Hrows in H2.
  exists st', miscs, inv. split; [exact plain_form_unparsable |].
  split; [reflexivity |]. split; [reflexivity |]. split; [exact H1 |].
  split; [exact H2 |]. split; [exact Hinv |].
  rewrite Hinc, Hex, Hvat. split_and!; reflexivity.
Defined.

Lemma C6_witness :
  exists page,
    handle_invoice 1 example_store_30 = Ok (Respond_Invoice page) /\
    setting "payment_terms_days" example_store_30 = Some (Some "30") /\
    plain "30" = true /\
    due_date page = "2025-02-14" /\
    exists inv issue_dt due_dt,
      inv ∈ invoices example_store_30 /\ i_id inv = 1 /\
      Date.strptime_Ymd (issue_date inv) = Ok issue_dt /\
      Date.valid due_dt = true /\
      plus_days issue_dt 30 due_dt /\
      Date.toordinal due_dt = Date.toordinal issue_dt + 30 /\
      (1000 <= Date.year due_dt -> due_date page = Date.isoformat due_dt).
Proof.
  assert (setting "payment_terms_days" example_store_30 = Some (Some "30")) as Hset
    by (by vm_compute).
  assert (plain "30" = true) as Hplain by reflexivity.
  eexists. split; [vm_compute; reflexivity |]. split; [exact Hset |].
  split; [exact Hplain |]. split; [reflexivity |].
  edestruct (C6_due_date 1 example_store_30)
    as (inv & issue_dt & due_dt & days & Hin & Hid & Hissue & Hdays & Hrest).
  { vm_compute. reflexivity. }
  { intros value Hvalue. rewrite Hset in Hvalue. by injection Hvalue as <-. }
  assert (days = 30) as ->.
  { destruct Hdays as [[Hnone _] | (value & Hvalue & ->)].
    - by rewrite Hset in Hnone.
    - rewrite Hset in Hvalue. by injection Hvalue as <-. }
  exists inv, issue_dt, due_dt. split; [exact Hin |]. split; [exact Hid |].
  split; [exact Hissue |]. exact Hrest.
Defined.

Lemma C7_witness :
  exists page,
    handle_invoice 1 example_store = Ok (Respond_Invoice page) /\
    next_service_date page = "2025-07-14" /\
    exists inv issue_dt next_dt,
      inv ∈ invoices example_store /\ i_id inv = 1 /\
      Date.strptime_Ymd (issue_date inv) = Ok issue_dt /\
      next_service_date page = Date.isoformat next_dt /\
      Date.valid next_dt = true /\
      ((has_interim_item (i_booking_id inv) example_store /\
        plus_days issue_dt 180 next_dt) \/
       (~ has_interim_item (i_booking_id inv) example_store /\
        plus_days issue_dt 360 next_dt)).
Proof.
  eexists. split; [vm_compute; reflexivity |]. split; [reflexivity |].
  apply (C7_next_service_date 1 example_store). vm_compute. reflexivity.
Defined.



(* ===================================================================== *)
(** * The further theorems at work on the example *)
(* ===================================================================== *)

Lemma example_steps : rtc post_step init_store example_store.
Proof.
  apply rtc_once.
  exists clock_2025_01_15, "/booking/new", example_fields, (See_Other "/invoice/1").
  exact example_submission.
Qed.


Lemma reachable_ids_and_references_witness :
  reachable example_store /\
  unique_ids example_store /\ referential_integrity example_store.
Proof.
  split; [exact example_reachable |].
  exact (reachable_ids_and_references example_store example_reachable).
Defined.

Lemma reachable_invoice_totals_witness :
  reachable example_store /\
  (forall i j, i ∈ invoices example_store -> j ∈ invoices example_store ->
     i_booking_id i = i_booking_id j -> i = j) /\
  (forall i, i ∈ invoices example_store ->
     total_ex_vat i = fsum (line_ex <$> booking_lines (i_booking_id i) example_store) /\
     total_vat i = fsum (line_vat_of <$> booking_lines (i_booking_id i) example_store) /\
     total_inc i = (total_ex_vat i + total_vat i)%float /\
     Num.float_gt_0 (total_ex_vat i) = true).
Proof.
  split; [exact example_reachable |].
  exact (reachable_invoice_totals example_store example_reachable).
Defined.

Lemma reachable_statuses_witness :
  reachable example_store /\
  (forall b, b ∈ bookings example_store ->
     b_status b = "booked" \/ b_status b = "canceled") /\
  (forall i, i ∈ invoices example_store ->
     i_status i = "unpaid" \/ i_status i = "canceled") /\
  (forall i b, i ∈ invoices example_store -> b ∈ bookings example_store ->
     i_booking_id i = b_id b ->
     (i_status i = "canceled" <-> b_status b = "canceled")).
Proof.
  split; [exact example_reachable |].
  exact (reachable_statuses example_store example_reachable).
Defined.

Lemma reachable_catalog_and_settings_witness :
  reachable example_store /\
  services example_store = services init_store /\
  settings example_store = settings init_store /\
  get_settings example_store = get_settings init_store /\
  payment_terms_days example_store = 14.
Proof.
  split; [exact example_reachable |].
  exact (reachable_catalog_and_settings example_store example_reachable).
Defined.

Lemma reachable_items_priced_from_catalog_witness :
  reachable example_store /\
  (forall bi, bi ∈ booking_items example_store ->
     0 < bi_quantity bi /\
     exists s, s ∈ services init_store /\ s_id s = bi_service_id bi /\
               bi_unit_price bi = s_unit_price s /\
               bi_vat_rate bi = s_vat_rate s) /\
  (forall mi, mi ∈ misc_items example_store ->
     mi_name mi <> "" /\ 0 < mi_quantity mi /\
     Num.float_gt_0 (mi_unit_price mi) = true).
Proof.
  split; [exact example_reachable |].
  exact (reachable_items_priced_from_catalog example_store example_reachable).
Defined.

Lemma requests_keep_rows_witness :
  rtc post_step init_store example_store /\ keeps init_store example_store.
Proof.
  split; [exact example_steps |].
  exact (requests_keep_rows init_store example_store example_steps).
Defined.

Lemma reachable_invoice_page_witness :
  exists i,
    reachable example_store /\ i ∈ invoices example_store /\
    Date.toordinal (date_of_iso (issue_date i)) + 360 <= Date._MAXORDINAL /\
    exists page due_dt,
      handle_invoice (i_id i) example_store = Ok (Respond_Invoice page) /\
      p_invoice_number page = invoice_number i /\
      p_issue_date page = issue_date i /\
      p_total_ex page = total_ex_vat i /\
      p_total_vat page = total_vat i /\
      p_total_inc page = total_inc i /\
      Date.add_days (date_of_iso (issue_date i)) 14 = Ok due_dt /\
      due_date page = Date.isoformat due_dt /\
      fsum (line_total_ex <$> items_rows page) = p_total_ex page /\
      fsum (line_vat <$> items_rows page) = p_total_vat page /\
      Forall (fun l => line_total_inc l = (line_total_ex l + line_vat l)%float)
             (items_rows page).
Proof.
  eexists.
  split; [exact example_reachable |].
  split; [vm_compute; left |].
  split; [by vm_compute |].
  apply (reachable_invoice_page example_store _ example_reachable).
  - vm_compute. left.
  - by vm_compute.
Defined.

Lemma reachable_invoice_not_found_witness :
  reachable example_store /\ - 2 ^ 63 <= 7 < 2 ^ 63 /\
  (handle_invoice 7 example_store = Ok (Send_Error 404 "Invoice not found") <->
   7 ∉ (i_id <$> invoices example_store)).
Proof.
  assert (- 2 ^ 63 <= 7 < 2 ^ 63) as Hrange by lia.
  split; [exact example_reachable |]. split; [exact Hrange |].
  exact (reachable_invoice_not_found example_store 7 example_reachable Hrange).
Defined.


Lemma reachable_invoice_list_witness :
  reachable example_store /\
  il_inv_id <$> handle_invoice_list example_store ≡ₚ i_id <$> invoices example_store /\
  StronglySorted invoice_row_before (handle_invoice_list example_store) /\
  forall row, row ∈ handle_invoice_list example_store ->
    exists i b c,
      i ∈ invoices example_store /\ b ∈ bookings example_store /\
      c ∈ customers example_store /\
      b_id b = i_booking_id i /\ c_id c = b_customer_id b /\
      il_inv_id row = i_id i /\ il_inv_num row = invoice_number i /\
      il_issue_date row = issue_date i /\ il_total_inc row = total_inc i /\
      il_status row = i_status i /\
      il_customer_name row = display_name (first_name c) (last_name c).
Proof.
  split; [exact example_reachable |].
  exact (reachable_invoice_list example_store example_reachable).
Defined.

Lemma reachable_booking_list_witness :
  reachable example_store /\
  bl_id <$> handle_booking_list example_store ≡ₚ b_id <$> bookings example_store /\
  StronglySorted booking_row_before (handle_booking_list example_store) /\
  forall row, row ∈ handle_booking_list example_store ->
    exists b,
      b ∈ bookings example_store /\ bl_id row = b_id b /\
      bl_date row = booking_date b /\ bl_status row = b_status b /\
      (bl_cancel_form row = None <-> b_status b = "canceled") /\
      match bl_inv_link row with
      | Some (href, text) =>
          exists i, i ∈ invoices example_store /\ i_booking_id i = b_id b /\
                    href = "/invoice/" +:+ Str.of_Z (i_id i) /\
                    text = invoice_number i
      | None => forall i, i ∈ invoices example_store -> i_booking_id i <> b_id b
      end.
Proof.
  split; [exact example_reachable |].
  exact (reachable_booking_list example_store example_reachable).
Defined.

Lemma cancel_form_cancels_witness :
  exists row,
    row ∈ handle_booking_list example_store /\
    bl_cancel_form row = Some ("/booking/cancel", [("booking_id", "1")]) /\
    do_POST clock_2025_01_15 "/booking/cancel"
      (fields_of_pairs [("booking_id", "1")]) example_store
      = Ok (canceled (bl_id row) example_store, See_Other "/bookings") /\
    forall row', row' ∈ handle_booking_list (canceled (bl_id row) example_store) ->
      bl_id row' = bl_id row ->
      bl_status row' = "canceled" /\ bl_cancel_form row' = None.
Proof.
  eexists.
  split; [vm_compute; left |]. split; [reflexivity |].
  apply (cancel_form_cancels clock_2025_01_15 example_store _
           "/booking/cancel" [("booking_id", "1")]).
  - vm_compute. left.
  - reflexivity.
Defined.

Lemma reachable_dashboard_witness :
  reachable example_store /\
  dp_company_name (handle_dashboard example_store) = "Motorhouse Beds Ltd" /\
  0 <= dp_invoice_count (handle_dashboard example_store)
    <= dp_booking_count (handle_dashboard example_store).
Proof.
  split; [exact example_reachable |].
  exact (reachable_dashboard example_store example_reachable).
Defined.

Lemma reachable_booking_form_witness :
  reachable example_store /\
  exists rows,
    handle_new_booking_form example_store = Ok rows /\
    (fun r => (sr_name r, sr_price r, sr_vat_percent r, sr_input_name r)) <$> rows =
    [ ("Full Service", "200.00", 20, "qty_1");
      ("Interim Service", "120.00", 20, "qty_2");
      ("MOT Test", "54.85", 0, "qty_3");
      ("Brake Pads Replacement", "150.00", 20, "qty_4");
      ("Diagnostics", "60.00", 20, "qty_5") ] /\
    sr_input_name <$> rows =
      (fun s => "qty_" +:+ Str.of_Z (s_id s)) <$> services example_store.
Proof.
  split; [exact example_reachable |].
  exact (reachable_booking_form example_store example_reachable).
Defined.

Lemma reachable_invoice_list_chronological_witness :
  reachable example_store /\
  StronglySorted
    (fun r1 r2 => Date.toordinal (date_of_iso (il_issue_date r2))
                  <= Date.toordinal (date_of_iso (il_issue_date r1)))
    (handle_invoice_list example_store).
Proof.
  split; [exact example_reachable |].
  exact (reachable_invoice_list_chronological example_store example_reachable).
Defined.

Lemma reachable_ids_sequential_witness :
  reachable example_store /\
  sequential example_store /\
  forall k i, invoices example_store !! k = Some i ->
    i_id i = Z.of_nat k + 1 /\
    exists today,
      Date.valid today = true /\
      invoice_number i =
        "INV" +:+ Date.strftime_Ymd today +:+ "-" +:+ Str.fmt_0d 3 (Z.of_nat k + 1).
Proof.
  split; [exact example_reachable |].
  exact (reachable_ids_sequential example_store example_reachable).
Defined.
